(** * AnimTycoon: calendar, resource pool and simulation engine

    A shallow embedding of [production_params.py], [resource_pool.py] and
    [simulator.py], with the properties of the specification stated over it.

    Conventions of the embedding.
    - A [datetime] is an integer: the number of seconds since
      1970-01-01T00:00:00 (naive, no time zone).  [timedelta(days=n)] is
      [n * 86400] seconds.  Numbers of hours are integers.
    - A Python dict is a [gmap]; a Python set is a [gset]; a Python list or
      tuple is a [list].
    - [Resource] objects are shared between the two indices of a
      [ResourcePool]: the pool carries an object store ([objs]) and both
      indices hold locations into it, so that a booking made through the type
      index is seen through the id index.
    - A call that can raise returns a [result]: [Ok] with the value and the
      state after the call, or [Raise] with the exception and the state at the
      point of the raise.
    - A [while] loop whose termination is not structural takes a [fuel]
      argument and answers [None] when the fuel runs out before the loop
      exits.
    - The event queue of [simpy] is a heap.  It is modelled as a list with
      an executable pop ([pop_min], [run_loop], [simulate]), and also up to
      permutation with a pop that may take any least entry ([heappop],
      [runs], [simulates]), to state that the outcome of a run does not
      depend on the layout of the heap.
    - [print] calls and the text of exception messages beyond a fixed string
      are left out.  The range limits of [datetime] are modelled in
      [next_workday], whose scan can reach them, and left out elsewhere. *)

From Stdlib Require Import ZArith QArith Lia List.
From stdpp Require Import gmap strings list fin_maps sorting.

Open Scope Z_scope.

(** ** Exceptions and results *)

Inductive exn :=
  | ValueError (msg : string)
  | KeyError (key : string)
  | IndexError
  | NameError (name : string)
  | OverflowError.

Inductive result (S A : Type) :=
  | Ok (a : A) (s : S)
  | Raise (e : exn) (s : S).
Arguments Ok {S A} a s.
Arguments Raise {S A} e s.

(** ** datetime *)

Definition timedelta_days (n : Z) : Z := n * 86400.

(** [date.weekday()]: Monday is 0 and Sunday is 6; 1970-01-01 was a Thursday. *)
Definition weekday (date : Z) : Z := (date / 86400 + 3) mod 7.

(** ** production_params.BusinessCalendar *)

Record BusinessCalendar := {
  cal_name : string;
  work_days : list Z;
  holidays : gset Z;
  vacations : list (Z * Z)
}.

(** [start <= date <= end] *)
Definition in_interval (date : Z) (iv : Z * Z) : bool :=
  (iv.1 <=? date) && (date <=? iv.2).

Definition is_workday (c : BusinessCalendar) (date : Z) : bool :=
  bool_decide (weekday date ∈ work_days c)
  && negb (bool_decide (date ∈ holidays c))
  && negb (existsb (in_interval date) (vacations c)).

(** [datetime.min] and [datetime.max] in whole seconds: 0001-01-01T00:00:00
    and 9999-12-31T23:59:59. *)
Definition datetime_min : Z := -62135596800.
Definition datetime_max : Z := 253402300799.

(** [date + timedelta(...)]: [OverflowError] outside the range of [datetime]. *)
Definition datetime_add (date delta : Z) : exn + Z :=
  if (datetime_min <=? date + delta) && (date + delta <=? datetime_max)
  then inr (date + delta)
  else inl OverflowError.

(** The [while] loop of [next_workday]: [is_workday] is tested on [next_day],
    and while the test fails [next_day += timedelta(days=1)].  The embedding
    also records the dates on which the test was evaluated, in order. *)
Fixpoint next_workday_loop (fuel : nat) (c : BusinessCalendar) (next_day : Z)
  : list Z * option (result unit Z) :=
  match fuel with
  | O => ([], None)
  | S fuel' =>
      if negb (is_workday c next_day)
      then match datetime_add next_day (timedelta_days 1) with
           | inl e => ([next_day], Some (Raise e tt))
           | inr next_day' =>
               let '(seen, r) := next_workday_loop fuel' c next_day' in
               (next_day :: seen, r)
           end
      else ([next_day], Some (Ok next_day tt))
  end.

(** [next_workday].  The module [production_params] imports [timedelta] only
    under its [if __name__ == "__main__"] guard, so the name is bound in the
    module only when the file is run as a script ([script = true]); for a
    caller that imports the module, the first statement,
    [next_day = date + timedelta(days=1)], raises [NameError]. *)
Definition next_workday (script : bool) (fuel : nat) (c : BusinessCalendar) (date : Z)
  : list Z * option (result unit Z) :=
  if negb script then ([], Some (Raise (NameError "timedelta") tt))
  else match datetime_add date (timedelta_days 1) with
       | inl e => ([], Some (Raise e tt))
       | inr next_day => next_workday_loop fuel c next_day
       end.

(** ** resource_pool.Resource *)

Record Resource := {
  name : string;
  resource_type : string;
  calendar : BusinessCalendar;
  assigned_hours : gmap Z Z;
  res_vacations : list (Z * Z)
}.

Definition Resource_init (nm ty : string) (cal : BusinessCalendar) : Resource :=
  {| name := nm; resource_type := ty; calendar := cal;
     assigned_hours := ∅; res_vacations := [] |}.

Definition add_vacation (r : Resource) (start_date end_date : Z) : Resource :=
  {| name := name r; resource_type := resource_type r; calendar := calendar r;
     assigned_hours := assigned_hours r;
     res_vacations := res_vacations r ++ [(start_date, end_date)] |}.

(** [self.assigned_hours.get(date, 0)] *)
Definition load (r : Resource) (date : Z) : Z :=
  default 0 (assigned_hours r !! date).

Definition is_available (r : Resource) (date required_hours : Z) : bool :=
  if negb (is_workday (calendar r) date) then false
  else if existsb (in_interval date) (res_vacations r) then false
  else let current_load := load r date in
       current_load + required_hours <=? 8.

Definition set_assigned (r : Resource) (date hours : Z) : Resource :=
  {| name := name r; resource_type := resource_type r; calendar := calendar r;
     assigned_hours := <[date := hours]> (assigned_hours r);
     res_vacations := res_vacations r |}.

Definition assign_work (r : Resource) (date hours : Z) : result Resource unit :=
  if negb (is_available r date hours)
  then Raise (ValueError "Resource not available") r
  else Ok tt (set_assigned r date (load r date + hours)).

(** The state left by a call, whichever way it ended. *)
Definition state_of {S A} (x : result S A) : S :=
  match x with Ok _ s => s | Raise _ s => s end.

(** A caller that issues the calls one after the other on the same resource
    (an unavailable call raises and books nothing). *)
Definition assign_all (r : Resource) (calls : list (Z * Z)) : Resource :=
  fold_left (fun r c => state_of (assign_work r c.1 c.2)) calls r.

(** ** resource_pool.ResourcePool *)

Record ResourcePool := {
  pool_calendar : BusinessCalendar;
  objs : list Resource;
  resources : gmap string nat;
  resources_by_type : gmap string (list nat)
}.

Definition ResourcePool_init (cal : BusinessCalendar) : ResourcePool :=
  {| pool_calendar := cal; objs := []; resources := ∅; resources_by_type := ∅ |}.

(** [self.resources_by_type.get(resource_type, [])] *)
Definition bucket (p : ResourcePool) (ty : string) : list nat :=
  default [] (resources_by_type p !! ty).

Definition add_resource (p : ResourcePool) (resource_id nm ty : string)
  : result ResourcePool nat :=
  let resource := Resource_init nm ty (pool_calendar p) in
  let l := length (objs p) in
  Ok l {| pool_calendar := pool_calendar p;
          objs := objs p ++ [resource];
          resources := <[resource_id := l]> (resources p);
          resources_by_type := <[ty := bucket p ty ++ [l]]> (resources_by_type p) |}.

Definition set_obj (p : ResourcePool) (l : nat) (r : Resource) : ResourcePool :=
  {| pool_calendar := pool_calendar p;
     objs := <[l := r]> (objs p);
     resources := resources p;
     resources_by_type := resources_by_type p |}.

(** The [for] loop of [allocate_resource] over the bucket.  A location that is
    not in the store cannot occur in Python (the lists hold the objects
    themselves); the embedding passes over it. *)
Fixpoint allocate_scan (p : ResourcePool) (ls : list nat) (date hours : Z)
  : result ResourcePool (option nat) :=
  match ls with
  | [] => Ok None p
  | l :: ls' =>
      match objs p !! l with
      | None => allocate_scan p ls' date hours
      | Some resource =>
          if is_available resource date hours
          then match assign_work resource date hours with
               | Ok _ resource' => Ok (Some l) (set_obj p l resource')
               | Raise e resource' => Raise e (set_obj p l resource')
               end
          else allocate_scan p ls' date hours
      end
  end.

Definition allocate_resource (p : ResourcePool) (ty : string) (date hours : Z)
  : result ResourcePool (option nat) :=
  allocate_scan p (bucket p ty) date hours.

(** [resource.assigned_hours.get(current, 0)] summed over
    [self.resources.values()]. *)
Definition load_at (p : ResourcePool) (l : nat) (date : Z) : Z :=
  match objs p !! l with Some r => load r date | None => 0 end.






(** ** production_params.WorkflowDefinition and ProductionParameters *)

(** A stage definition is a dict with the keys ["default"] and
    ["resource_type"] and one key per complexity level that overrides the
    default; the numeric entries other than ["default"] are [sd_levels]. *)
Record StageDef := {
  sd_default : option Z;
  sd_levels : gmap string Z;
  sd_resource_type : option string
}.

Record WorkflowDefinition := {
  stages : gmap string StageDef;
  stage_order : list string
}.

(** [list.index] *)
Fixpoint index_of (x : string) (l : list string) : option nat :=
  match l with
  | [] => None
  | y :: l' => if bool_decide (y = x) then Some O else S <$> index_of x l'
  end.

Definition get_next_stage (wf : WorkflowDefinition) (current_stage : string)
  : exn + option string :=
  match index_of current_stage (stage_order wf) with
  | None => inl (ValueError "not in list")
  | Some idx =>
      if (Z.of_nat idx <? Z.of_nat (length (stage_order wf)) - 1)
      then inr (stage_order wf !! S idx)
      else inr None
  end.

Record ProductionParameters := {
  creative_calendar : gmap string Z;
  complexity_matrix : gmap string string;
  workflow_definitions : gmap string WorkflowDefinition;
  resource_calendars : gmap string BusinessCalendar
}.

(** [stage_def.get(complexity, stage_def["default"])]: the default is
    evaluated first and must be present. *)
Definition stage_bid (stage_def : StageDef) (complexity : string) : exn + Z :=
  match sd_default stage_def with
  | None => inl (KeyError "default")
  | Some d => inr (default d (sd_levels stage_def !! complexity))
  end.

(** ** simulator.ProductionEvent *)

Record ProductionEvent := {
  item_id : string;
  stage : string;
  start_time : Z;
  end_time : Z;
  resource : string;
  duration : Q
}.

(** [(end_time - start_time).total_seconds() / 3600] *)
Definition ProductionEvent_init (item st : string) (start_t end_t : Z) (res : string)
  : ProductionEvent :=
  {| item_id := item; stage := st; start_time := start_t; end_time := end_t;
     resource := res; duration := (inject_Z (end_t - start_t) / 3600)%Q |}.

(** ** The simpy environment

    The event queue of [simpy.Environment] orders its entries by time, then
    priority (urgent before normal), then the serial number given at
    scheduling.  The entries the simulator produces are: the start of a
    process, a timeout a process waits on, the end of a process (normal or by
    an exception), and the stop event of [run(until=...)]. *)

Inductive sim_event :=
  | EvInitialize (pid : nat)
  | EvTimeout (pid : nat)
  | EvProcess (pid : nat) (failed : option exn)
  | EvUntil.

Definition URGENT : Z := 0.
Definition NORMAL : Z := 1.

Record entry := {
  e_time : Z;
  e_priority : Z;
  e_id : nat;
  e_event : sim_event
}.

Record Environment := {
  now : Z;
  queue : list entry;
  eid : nat
}.

Definition Environment_init : Environment := {| now := 0; queue := []; eid := O |}.

Definition schedule (env : Environment) (ev : sim_event) (priority delay : Z)
  : Environment :=
  {| now := now env;
     queue := queue env ++ [{| e_time := now env + delay; e_priority := priority;
                                e_id := eid env; e_event := ev |}];
     eid := S (eid env) |}.

Definition entry_ltb (a b : entry) : bool :=
  (e_time a <? e_time b)
  || ((e_time a =? e_time b)
      && ((e_priority a <? e_priority b)
          || ((e_priority a =? e_priority b) && (Nat.ltb (e_id a) (e_id b))))).

(** [heappop]: the least entry and the rest of the queue. *)
Fixpoint pop_min (q : list entry) : option (entry * list entry) :=
  match q with
  | [] => None
  | a :: q' =>
      match pop_min q' with
      | None => Some (a, [])
      | Some (m, rest) =>
          if entry_ltb m a then Some (m, a :: rest) else Some (a, q')
      end
  end.

(** ** simulator.AnimSimulator *)

(** The points at which the generator [process_asset] is suspended, with the
    local variables that are live there. *)
Inductive pc :=
  | PStart
  | PInputWait (current_stage : string) (stage_def : StageDef) (bid_hours : Z)
  | PHold (current_stage : string) (start : Z) (res : nat)
  | PStall (current_stage : string)
  | PDone
  | PFailed.

Record Process := {
  p_asset_id : string;
  p_workflow : WorkflowDefinition;
  p_complexity : string;
  p_pc : pc
}.

Definition set_pc (P : Process) (k : pc) : Process :=
  {| p_asset_id := p_asset_id P; p_workflow := p_workflow P;
     p_complexity := p_complexity P; p_pc := k |}.

Record AnimSimulator := {
  params : ProductionParameters;
  env : Environment;
  resource_pool : ResourcePool;
  events : list ProductionEvent;
  current_date : Z;
  procs : list Process
}.

Definition with_pool (s : AnimSimulator) (p : ResourcePool) : AnimSimulator :=
  {| params := params s; env := env s; resource_pool := p; events := events s;
     current_date := current_date s; procs := procs s |}.

Definition with_env (s : AnimSimulator) (e : Environment) : AnimSimulator :=
  {| params := params s; env := e; resource_pool := resource_pool s;
     events := events s; current_date := current_date s; procs := procs s |}.

Definition with_events (s : AnimSimulator) (evs : list ProductionEvent) : AnimSimulator :=
  {| params := params s; env := env s; resource_pool := resource_pool s;
     events := evs; current_date := current_date s; procs := procs s |}.

Definition with_procs (s : AnimSimulator) (ps : list Process) : AnimSimulator :=
  {| params := params s; env := env s; resource_pool := resource_pool s;
     events := events s; current_date := current_date s; procs := ps |}.

(** [_get_pending_tasks], [_create_flow_network] and [_solve_min_cost_flow]
    return fixed data; [resolve_conflict] prints the assignment and answers
    whether the task list was non-empty. *)
Definition _get_pending_tasks (st : string) : list (string * Z * string) :=
  [("asset1"%string, 1, st); ("asset2"%string, 2, st); ("asset3"%string, 3, st)].

Definition _solve_min_cost_flow : list (string * string) :=
  [("asset1", "m1"); ("asset2", "l1"); ("asset3", "a1")]%string.

Definition resolve_conflict (asset_id st : string) : bool :=
  let pending_tasks := _get_pending_tasks st in
  match pending_tasks with
  | [] => false
  | _ => let assigned := _solve_min_cost_flow in true
  end.

(** What a resumed generator does next: it yields a timeout (and is suspended
    at the given point), returns, or raises. *)
Inductive suspend :=
  | Yield (delay : Z) (k : pc)
  | Return
  | Throw (e : exn).

(** [self.env.timeout(delay)] raises on a negative delay. *)
Definition timeout (delay : Z) (k : pc) : suspend :=
  if delay <? 0 then Throw (ValueError "Negative delay") else Yield delay k.

Definition resource_name (p : ResourcePool) (l : nat) : string :=
  match objs p !! l with Some r => name r | None => "" end.

(** [self.current_date + timedelta(days=self.env.now)] *)
Definition sim_date (s : AnimSimulator) : Z :=
  current_date s + timedelta_days (now (env s)).

Section process_asset.
Variable asset_id : string.
Variable workflow : WorkflowDefinition.
Variable complexity : string.

(** Lines 68-92: from the allocation to the end of the iteration.  [head]
    is the next test of [while current_stage]. *)
Definition stage_from_alloc
    (head : AnimSimulator -> option string -> option (AnimSimulator * suspend))
    (s : AnimSimulator) (current_stage : string) (stage_def : StageDef)
    (bid_hours : Z) : option (AnimSimulator * suspend) :=
  match sd_resource_type stage_def with
  | None => Some (s, Throw (KeyError "resource_type"))
  | Some rty =>
      let start_time := sim_date s in
      match allocate_resource (resource_pool s) rty start_time bid_hours with
      | Raise e p' => Some (with_pool s p', Throw e)
      | Ok (Some res) p' =>
          let s' := with_pool s p' in
          let start := sim_date s' in
          Some (s', timeout (bid_hours * 24) (PHold current_stage start res))
      | Ok None p' =>
          let s' := with_pool s p' in
          let resolved := resolve_conflict asset_id current_stage in
          if negb resolved
          then Some (s', timeout 1 (PStall current_stage))
          else match get_next_stage workflow current_stage with
               | inl e => Some (s', Throw e)
               | inr next => head s' next
               end
      end
  end.

(** The [while current_stage] loop from its test.  A stage name is false
    when it is [None] or the empty string. *)
Fixpoint stage_loop (fuel : nat) (s : AnimSimulator) (current_stage : option string)
  : option (AnimSimulator * suspend) :=
  match fuel with
  | O => None
  | S fuel' =>
      match current_stage with
      | None => Some (s, Return)
      | Some st =>
          if bool_decide (st = ""%string) then Some (s, Return) else
          match stages workflow !! st with
          | None => Some (s, Throw (KeyError st))
          | Some stage_def =>
              match stage_bid stage_def complexity with
              | inl e => Some (s, Throw e)
              | inr bid_hours =>
                  match stage_order workflow !! O with
                  | None => Some (s, Throw IndexError)
                  | Some first =>
                      if bool_decide (st = first) then
                        match creative_calendar (params s) !! asset_id with
                        | None => Some (s, Throw (KeyError asset_id))
                        | Some input_date =>
                            Some (s, timeout (input_date - current_date s)
                                       (PInputWait st stage_def bid_hours))
                        end
                      else stage_from_alloc (stage_loop fuel') s st stage_def bid_hours
                  end
              end
          end
      end
  end.

(** The generator resumed at the point where it was suspended. *)
Definition resume (fuel : nat) (s : AnimSimulator) (k : pc)
  : option (AnimSimulator * suspend) :=
  match k with
  | PStart =>
      match stage_order workflow !! O with
      | None => Some (s, Throw IndexError)
      | Some first => stage_loop fuel s (Some first)
      end
  | PInputWait st stage_def bid_hours =>
      stage_from_alloc (stage_loop fuel) s st stage_def bid_hours
  | PHold st start res =>
      let end_t := sim_date s in
      let s' := with_events s
                  (events s ++ [ProductionEvent_init asset_id st start end_t
                                  (resource_name (resource_pool s) res)]) in
      match get_next_stage workflow st with
      | inl e => Some (s', Throw e)
      | inr next => stage_loop fuel s' next
      end
  | PStall st => stage_loop fuel s (Some st)
  | PDone | PFailed => Some (s, Return)
  end.
End process_asset.

Definition _register_resources (p : ResourcePool) : ResourcePool :=
  let p := state_of (add_resource p "m1" "Modeling Artist" "quota") in
  let p := state_of (add_resource p "m2" "Modeling Artist" "quota") in
  let p := state_of (add_resource p "l1" "Layout Artist" "quota") in
  let p := state_of (add_resource p "l2" "Layout Artist" "quota") in
  let p := state_of (add_resource p "a1" "Animation Artist" "quota") in
  let p := state_of (add_resource p "a2" "Animation Artist" "quota") in
  let p := state_of (add_resource p "a3" "Animation Artist" "quota") in
  state_of (add_resource p "s1" "Support Technician" "support").

(** [AnimSimulator.__init__]; [wall_clock] is the value [datetime.now()]
    returns at construction. *)
Definition AnimSimulator_init (prm : ProductionParameters) (wall_clock : Z)
  : exn + AnimSimulator :=
  match resource_calendars prm !! "studio"%string with
  | None => inl (KeyError "studio")
  | Some cal =>
      inr {| params := prm; env := Environment_init;
             resource_pool := _register_resources (ResourcePool_init cal);
             events := []; current_date := wall_clock; procs := [] |}
  end.

(** [self.env.process(self.process_asset(...))]: the generator is created
    unstarted and its start is scheduled as an urgent event. *)
Definition env_process (s : AnimSimulator) (asset wf_complexity : string)
  (wf : WorkflowDefinition) : AnimSimulator :=
  let pid := length (procs s) in
  let P := {| p_asset_id := asset; p_workflow := wf;
              p_complexity := wf_complexity; p_pc := PStart |} in
  with_env (with_procs s (procs s ++ [P]))
           (schedule (env s) (EvInitialize pid) URGENT 0).

Fixpoint schedule_production (s : AnimSimulator) (project_id : string)
  (assets : list string) : result AnimSimulator unit :=
  match assets with
  | [] => Ok tt s
  | asset :: assets' =>
      match workflow_definitions (params s) !! "asset_workflow"%string with
      | None => Raise (KeyError "asset_workflow") s
      | Some wf =>
          match complexity_matrix (params s) !! asset with
          | None => Raise (KeyError asset) s
          | Some level =>
              schedule_production (env_process s asset level wf) project_id assets'
          end
      end
  end.

(** One resumption of process [pid] by the scheduler: the generator runs to
    its next [yield], its end or an exception, and the matching event is
    scheduled. *)
Definition resume_process (fuel : nat) (s : AnimSimulator) (pid : nat)
  : option AnimSimulator :=
  match procs s !! pid with
  | None => Some s
  | Some P =>
      match resume (p_asset_id P) (p_workflow P) (p_complexity P) fuel s (p_pc P) with
      | None => None
      | Some (s', Yield delay k) =>
          Some (with_env (with_procs s' (<[pid := set_pc P k]> (procs s')))
                         (schedule (env s') (EvTimeout pid) NORMAL delay))
      | Some (s', Return) =>
          Some (with_env (with_procs s' (<[pid := set_pc P PDone]> (procs s')))
                         (schedule (env s') (EvProcess pid None) NORMAL 0))
      | Some (s', Throw e) =>
          Some (with_env (with_procs s' (<[pid := set_pc P PFailed]> (procs s')))
                         (schedule (env s') (EvProcess pid (Some e)) NORMAL 0))
      end
  end.

(** How [run] ends. *)
Inductive run_status :=
  | Completed
  | Crashed (e : exn).

(** [Environment.step] repeated until the stop event is processed, the queue
    is empty, or a failed process is processed. *)
Fixpoint run_loop (fuel : nat) (s : AnimSimulator) : option (run_status * AnimSimulator) :=
  match fuel with
  | O => None
  | S fuel' =>
      match pop_min (queue (env s)) with
      | None => Some (Completed, s)
      | Some (e, rest) =>
          let s1 := with_env s {| now := e_time e; queue := rest; eid := eid (env s) |} in
          match e_event e with
          | EvUntil => Some (Completed, s1)
          | EvProcess _ (Some err) => Some (Crashed err, s1)
          | EvProcess _ None => run_loop fuel' s1
          | EvInitialize pid | EvTimeout pid =>
              match resume_process fuel s1 pid with
              | None => None
              | Some s2 => run_loop fuel' s2
              end
          end
      end
  end.

(** [AnimSimulator.run(until)] *)
Definition run (fuel : nat) (s : AnimSimulator) (until : Z)
  : option (run_status * AnimSimulator) :=
  if until <=? now (env s)
  then Some (Crashed (ValueError "until must be greater than the current time"), s)
  else run_loop fuel (with_env s (schedule (env s) EvUntil URGENT (until - now (env s)))).

(** A whole session as [app.py] drives it: construction, an optional
    replacement of the resource pool, scheduling, and the run.  The answer is
    the way the run ended and the event list. *)
Definition simulate (fuel : nat) (prm : ProductionParameters) (wall_clock : Z)
  (pool : option ResourcePool) (project_id : string) (assets : list string)
  (until : Z) : option (run_status * list ProductionEvent) :=
  match AnimSimulator_init prm wall_clock with
  | inl e => Some (Crashed e, [])
  | inr s0 =>
      let s1 := match pool with Some p => with_pool s0 p | None => s0 end in
      match schedule_production s1 project_id assets with
      | Raise e s2 => Some (Crashed e, events s2)
      | Ok _ s2 =>
          match run fuel s2 until with
          | None => None
          | Some (st, s3) => Some (st, events s3)
          end
      end
  end.

(** ** Concrete inputs used by the examples *)

(** Monday to Friday, no holiday, no vacation: [BusinessCalendar("Studio Calendar")]. *)
Definition studio_cal : BusinessCalendar :=
  {| cal_name := "Studio Calendar"; work_days := [0; 1; 2; 3; 4];
     holidays := ∅; vacations := [] |}.

(** A calendar whose [work_days] is the empty tuple. *)
Definition no_workdays_cal : BusinessCalendar :=
  {| cal_name := "Closed"; work_days := []; holidays := ∅; vacations := [] |}.

(** Midnight of day [n] after 1970-01-01; day 4 (1970-01-05) is a Monday. *)
Definition day (n : Z) : Z := timedelta_days n.

(** The dates [d + 1 day], ..., [d + n days]. *)
Definition days_after (d : Z) (n : nat) : list Z :=
  (fun i => d + timedelta_days (Z.of_nat (S i))) <$> seq 0 n.

(** The calls of a sequence that succeed when issued in order on [r], and the
    hours a list of calls asks for on one date. *)
Fixpoint accepted (r : Resource) (calls : list (Z * Z)) : list (Z * Z) :=
  match calls with
  | [] => []
  | c :: calls' =>
      match assign_work r c.1 c.2 with
      | Ok _ r' => c :: accepted r' calls'
      | Raise _ r' => accepted r' calls'
      end
  end.

Fixpoint hours_on (d : Z) (calls : list (Z * Z)) : Z :=
  match calls with
  | [] => 0
  | c :: calls' => (if bool_decide (c.1 = d) then c.2 else 0) + hours_on d calls'
  end.

(** The invariant of a pool: the two indices hold the same resources, every
    indexed resource is in the store, and a resource is in one bucket only. *)
Record pool_inv (p : ResourcePool) : Prop := {
  inv_ids_typed : ∀ id l, resources p !! id = Some l → ∃ ty, l ∈ bucket p ty;
  inv_typed_ids : ∀ ty l, l ∈ bucket p ty → ∃ id, resources p !! id = Some l;
  inv_stored : ∀ id l, resources p !! id = Some l → (l < length (objs p))%nat;
  inv_one_bucket : ∀ ty1 ty2 l, l ∈ bucket p ty1 → l ∈ bucket p ty2 → ty1 = ty2
}.

(** A pool with the single resource ["m1"]. *)
Definition pool_m1 : ResourcePool :=
  state_of (add_resource (ResourcePool_init studio_cal) "m1" "Modeling Artist" "quota").

(** Exactly one resource of the type has free capacity: the one at [l]. *)
Definition only_available (p : ResourcePool) (ty : string) (date hours : Z) (l : nat)
  : Prop :=
  (∃ r, l ∈ bucket p ty ∧ objs p !! l = Some r ∧ is_available r date hours = true)
  ∧ ∀ l' r', l' ∈ bucket p ty → l' ≠ l → objs p !! l' = Some r' →
      is_available r' date hours = false.

(** The resource [r] after a booking of [hours] on [date]. *)
Definition booked (r : Resource) (date hours : Z) : Resource :=
  set_assigned r date (load r date + hours).






(** Every resource has between 0 and 8 hours on every date. *)
Definition hours_bounded (p : ResourcePool) : Prop :=
  ∀ l r d, objs p !! l = Some r → 0 <= load r d <= 8.




(** The three ways in which a date is excluded from the working days. *)
Definition excluded (c : BusinessCalendar) (d : Z) : Prop :=
  weekday d ∉ work_days c
  ∨ d ∈ holidays c
  ∨ ∃ s e, (s, e) ∈ vacations c ∧ s <= d <= e.

(** ** A production used by the examples

    One asset ["x"] of complexity ["alta"], a workflow of two stages that both
    need a ["quota"] resource, and the studio calendar.  The wall clock reads
    Monday 2026-03-02T00:00:00 (day 20514 after 1970-01-01) and the creative
    input of the asset is due 7 seconds later. *)

Definition stage_quota (hours : Z) : StageDef :=
  {| sd_default := Some hours; sd_levels := ∅; sd_resource_type := Some "quota"%string |}.

Definition workflow_AB (hours_A hours_B : Z) : WorkflowDefinition :=
  {| stages := <["A"%string := stage_quota hours_A]>
                 (<["B"%string := stage_quota hours_B]> ∅);
     stage_order := ["A"; "B"]%string |}.

Definition monday_2026_03_02 : Z := day 20514.

Definition params_AB (hours_A hours_B : Z) : ProductionParameters :=
  {| creative_calendar := <["x"%string := monday_2026_03_02 + 7]> ∅;
     complexity_matrix := <["x"%string := "alta"%string]> ∅;
     workflow_definitions := <["asset_workflow"%string := workflow_AB hours_A hours_B]> ∅;
     resource_calendars := <["studio"%string := studio_cal]> ∅ |}.

(** ** A measure of the work left in a run

    The position of a stage in [stage_order] (the length of the list for a
    name that is not in it), the number of stages from a position to the end,
    a bound on the resumptions a suspended process still needs, and the total
    of these bounds over the queue of the environment. *)

Definition stage_pos (wf : WorkflowDefinition) (st : string) : nat :=
  default (length (stage_order wf)) (index_of st (stage_order wf)).

Definition remaining (wf : WorkflowDefinition) (next : option string) : nat :=
  match next with
  | Some st => length (stage_order wf) - stage_pos wf st
  | None => O
  end.

Definition pc_rank (wf : WorkflowDefinition) (k : pc) : nat :=
  match k with
  | PStart => 2 * length (stage_order wf) + 3
  | PInputWait st _ _ => 2 * remaining wf (Some st) + 1
  | PHold st _ _ => 2 * remaining wf (Some st)
  | PStall st => 2 * remaining wf (Some st) + 2
  | PDone | PFailed => O
  end.

Definition event_weight (ps : list Process) (ev : sim_event) : nat :=
  match ev with
  | EvInitialize pid | EvTimeout pid =>
      match ps !! pid with
      | Some P => 2 + pc_rank (p_workflow P) (p_pc P)
      | None => 1
      end
  | EvProcess _ _ | EvUntil => 1
  end.

Definition pending (ps : list Process) (q : list entry) : nat :=
  sum_list_with (fun e => event_weight ps (e_event e)) q.

(** The stage orders come from the keys of a dict: no name occurs twice. *)
Definition distinct_stages (ps : list Process) : Prop :=
  ∀ pid P, ps !! pid = Some P → NoDup (stage_order (p_workflow P)).

(** What a resumption yields, measured against a bound on the rank of the
    point where it is suspended next. *)
Definition yields_below (wf : WorkflowDefinition) (bound : nat) (out : suspend) : Prop :=
  match out with
  | Yield _ k => (pc_rank wf k <= bound)%nat
  | Return | Throw _ => True
  end.

(** ** production_params: construction of workflows and bid lookup *)

(** [WorkflowDefinition.__init__]: the argument is a dict, given here by its
    items in insertion order (the keys of a dict are distinct);
    [stage_order] is [list(stages.keys())]. *)
Definition WorkflowDefinition_init (items : list (string * StageDef)) : WorkflowDefinition :=
  {| stages := list_to_map items; stage_order := items.*1 |}.

Definition create_workflow (prm : ProductionParameters) (workflow_type : string)
  (items : list (string * StageDef)) : ProductionParameters :=
  {| creative_calendar := creative_calendar prm;
     complexity_matrix := complexity_matrix prm;
     workflow_definitions :=
       <[workflow_type := WorkflowDefinition_init items]> (workflow_definitions prm);
     resource_calendars := resource_calendars prm |}.

(** [get_stage_bid]: 0 for an unknown workflow or stage; for a known stage
    the same expression as in [process_asset]. *)
Definition get_stage_bid (prm : ProductionParameters) (workflow_type st complexity : string)
  : exn + Z :=
  match workflow_definitions prm !! workflow_type with
  | Some wf =>
      match stages wf !! st with
      | Some stage_def => stage_bid stage_def complexity
      | None => inr 0
      end
  | None => inr 0
  end.

(** ** Sequences of pool operations *)

Inductive pool_op :=
  | OpAdd (resource_id nm ty : string)
  | OpAllocate (ty : string) (date hours : Z).

Definition run_op (p : ResourcePool) (op : pool_op) : ResourcePool :=
  match op with
  | OpAdd resource_id nm ty => state_of (add_resource p resource_id nm ty)
  | OpAllocate ty date hours => state_of (allocate_resource p ty date hours)
  end.

Definition run_ops (p : ResourcePool) (ops : list pool_op) : ResourcePool :=
  fold_left run_op ops p.

Definition nonneg_op (op : pool_op) : Prop :=
  match op with
  | OpAdd _ _ _ => True
  | OpAllocate _ _ hours => 0 <= hours
  end.

(** No resource of the pool has more than 8 hours on any date. *)
Definition within_capacity (p : ResourcePool) : Prop :=
  ∀ l r d, objs p !! l = Some r → load r d <= 8.


(** ** The processes and queue entries that [schedule_production] adds *)

Definition new_process (prm : ProductionParameters) (wf : WorkflowDefinition)
  (asset : string) : Process :=
  {| p_asset_id := asset; p_workflow := wf;
     p_complexity := default ""%string (complexity_matrix prm !! asset);
     p_pc := PStart |}.

Definition initial_entries (t : Z) (eid0 pid0 n : nat) : list entry :=
  (fun i => {| e_time := t; e_priority := URGENT; e_id := (eid0 + i)%nat;
               e_event := EvInitialize (pid0 + i)%nat |}) <$> seq 0 n.

(** The items of a two-stage workflow dict. *)
Definition items_AB (hours_A hours_B : Z) : list (string * StageDef) :=
  [("A"%string, stage_quota hours_A); ("B"%string, stage_quota hours_B)].

(** ** What holds of the simulator while [run] is in progress *)

(** A suspension point is sound for the dates [lo] and [d] when the stage it
    names is a stage of the workflow and, for a hold, when its start date
    lies between [lo] and [d]. *)
Definition pc_ok (wf : WorkflowDefinition) (lo d : Z) (k : pc) : Prop :=
  match k with
  | PHold st start _ => lo <= start <= d ∧ is_Some (stages wf !! st)
  | PInputWait st _ _ => is_Some (stages wf !! st)
  | PStart | PStall _ | PDone | PFailed => True
  end.

Definition yield_ok (wf : WorkflowDefinition) (lo d : Z) (out : suspend) : Prop :=
  match out with
  | Yield delay k => 0 <= delay ∧ pc_ok wf lo d k
  | Return | Throw _ => True
  end.

(** An event is sound when it belongs to a scheduled asset and a stage of
    the workflow, starts no earlier than [lo], does not end before it starts,
    and ends no later than [hi]. *)
Definition event_ok (assets : list string) (wf : WorkflowDefinition) (lo hi : Z)
  (ev : ProductionEvent) : Prop :=
  item_id ev ∈ assets
  ∧ is_Some (stages wf !! stage ev)
  ∧ lo <= start_time ev
  ∧ start_time ev <= end_time ev
  ∧ end_time ev <= hi.

Definition by_end_time (a b : ProductionEvent) : Prop := end_time a <= end_time b.

Record run_inv (horizon : Z) (assets : list string) (wf : WorkflowDefinition)
    (s : AnimSimulator) : Prop := {
  ri_queue : ∀ e, e ∈ queue (env s) → now (env s) <= e_time e;
  ri_now : 0 <= now (env s) <= horizon;
  ri_until : ∃ u, u ∈ queue (env s) ∧ e_event u = EvUntil ∧ e_time u <= horizon;
  ri_procs : ∀ pid P, procs s !! pid = Some P →
      p_asset_id P ∈ assets ∧ p_workflow P = wf
      ∧ pc_ok wf (current_date s) (sim_date s) (p_pc P);
  ri_events : Forall (event_ok assets wf (current_date s) (sim_date s)) (events s);
  ri_sorted : StronglySorted by_end_time (events s)
}.

(** ** Processes that raise at their first resumption *)

(** The first stage of the workflow is defined with a default, and the
    creative input of the asset is missing or earlier than [wall_clock]. *)
Definition fails_at_start (prm : ProductionParameters) (wall_clock : Z) (P : Process)
  : Prop :=
  ∃ first sd bid,
    stage_order (p_workflow P) !! O = Some first
    ∧ first ≠ ""%string
    ∧ stages (p_workflow P) !! first = Some sd
    ∧ stage_bid sd (p_complexity P) = inr bid
    ∧ match creative_calendar prm !! p_asset_id P with
      | None => True
      | Some input_date => input_date < wall_clock
      end.

(** A queue that holds, before the time [T] of the stop event, the end of a
    failed process or the start of a process that fails at its start. *)
Definition doomed (T : Z) (s : AnimSimulator) : Prop :=
  (∀ u, u ∈ queue (env s) → e_event u = EvUntil → T <= e_time u)
  ∧ ((∃ f pid err, f ∈ queue (env s) ∧ e_event f = EvProcess pid (Some err)
                   ∧ e_time f < T)
     ∨ (∃ i pid P, i ∈ queue (env s) ∧ e_event i = EvInitialize pid ∧ e_time i < T
                   ∧ procs s !! pid = Some P ∧ p_pc P = PStart
                   ∧ fails_at_start (params s) (current_date s) P)).

(** ** The resources behind the events of a run *)

(** Two pools hold, at the same locations, resources of the same names and
    calendars. *)
Definition same_staff (p p' : ResourcePool) : Prop :=
  ∀ l, match objs p !! l, objs p' !! l with
       | Some r, Some r' => name r' = name r ∧ calendar r' = calendar r
       | None, None => True
       | _, _ => False
       end.

(** The resource at [res] in [p0] has [start] as a working day. *)
Definition hold_ok (p0 : ResourcePool) (start : Z) (res : nat) : Prop :=
  ∃ r, objs p0 !! res = Some r ∧ is_workday (calendar r) start = true.

Definition pc_staffed (p0 : ResourcePool) (k : pc) : Prop :=
  match k with
  | PHold _ start res => hold_ok p0 start res
  | _ => True
  end.

Definition yield_staffed (p0 : ResourcePool) (out : suspend) : Prop :=
  match out with
  | Yield _ k => pc_staffed p0 k
  | Return | Throw _ => True
  end.

(** The event was done by a resource of [p0] and starts on one of its working
    days. *)
Definition event_staffed (p0 : ResourcePool) (ev : ProductionEvent) : Prop :=
  ∃ l r, objs p0 !! l = Some r ∧ resource ev = name r
         ∧ is_workday (calendar r) (start_time ev) = true.

Record staff_inv (p0 : ResourcePool) (s : AnimSimulator) : Prop := {
  si_pool : same_staff p0 (resource_pool s);
  si_procs : ∀ pid P, procs s !! pid = Some P → pc_staffed p0 (p_pc P);
  si_events : Forall (event_staffed p0) (events s)
}.

(** ** The order of the stages of one item *)

Definition pc_in_order (wf : WorkflowDefinition) (k : pc) : Prop :=
  match k with
  | PInputWait st _ _ | PHold st _ _ | PStall st => st ∈ stage_order wf
  | PStart | PDone | PFailed => True
  end.

(** For two events of the same item, the stage of the second comes later in
    the workflow (fewer stages remain after it). *)
Definition stage_before (wf : WorkflowDefinition) (a b : ProductionEvent) : Prop :=
  item_id a = item_id b →
  (remaining wf (Some (stage b)) < remaining wf (Some (stage a)))%nat.

Record order_inv (wf : WorkflowDefinition) (s : AnimSimulator) : Prop := {
  oi_procs : ∀ pid P, procs s !! pid = Some P →
      p_workflow P = wf ∧ pc_in_order wf (p_pc P);
  oi_distinct : ∀ pid pid' P P', procs s !! pid = Some P → procs s !! pid' = Some P' →
      p_asset_id P = p_asset_id P' → pid = pid';
  oi_events : ∀ ev, ev ∈ events s →
      stage ev ∈ stage_order wf
      ∧ ∀ pid P, procs s !! pid = Some P → item_id ev = p_asset_id P →
          (pc_rank wf (p_pc P) < 2 * remaining wf (Some (stage ev)))%nat;
  oi_sorted : StronglySorted (stage_before wf) (events s)
}.

(** ** The duration of the events of a run *)









(** ** The stall branch *)

Definition is_stall (k : pc) : bool :=
  match k with PStall _ => true | _ => false end.

Definition yields_stall (out : suspend) : bool :=
  match out with Yield _ k => is_stall k | Return | Throw _ => false end.

(** The simulator of the examples right after its construction, with stage A
    asking for 9 hours. *)
Definition sim_A9 : AnimSimulator :=
  {| params := params_AB 9 2; env := Environment_init;
     resource_pool := _register_resources (ResourcePool_init studio_cal);
     events := []; current_date := monday_2026_03_02; procs := [] |}.

(** ** The event queue as a heap

    [simpy] keeps its queue in a binary heap ([heapq]): where an entry sits
    in the underlying list depends on the pushes and pops made so far, and
    [heappop] gives an entry that no other entry precedes in the order of
    the tuples [(time, priority, serial number)].  The definitions below
    describe [Environment.step] and [run] without fixing a layout: the queue
    counts up to permutation, a step may take any entry that none precedes,
    and a resumed generator may take any number of iterations. *)

Definition least (e : entry) (rest : list entry) : Prop :=
  ∀ e', e' ∈ rest → entry_ltb e' e = false.

Definition heappop (q : list entry) (e : entry) (rest : list entry) : Prop :=
  q ≡ₚ e :: rest ∧ least e rest.

(** The state after [heappop] and [self._now = t]. *)
Definition step_to (s : AnimSimulator) (e : entry) (rest : list entry) : AnimSimulator :=
  with_env s {| now := e_time e; queue := rest; eid := eid (env s) |}.

(** The process an event resumes, if any. *)
Definition callback_of (ev : sim_event) : option nat :=
  match ev with
  | EvInitialize pid | EvTimeout pid => Some pid
  | EvProcess _ _ | EvUntil => None
  end.

(** [run]: how it can end, and with which event list. *)
Inductive runs : AnimSimulator → run_status * list ProductionEvent → Prop :=
  | runs_empty s :
      queue (env s) = [] →
      runs s (Completed, events s)
  | runs_until s e rest :
      heappop (queue (env s)) e rest →
      e_event e = EvUntil →
      runs s (Completed, events s)
  | runs_failed s e rest pid err :
      heappop (queue (env s)) e rest →
      e_event e = EvProcess pid (Some err) →
      runs s (Crashed err, events s)
  | runs_ended s e rest pid r :
      heappop (queue (env s)) e rest →
      e_event e = EvProcess pid None →
      runs (step_to s e rest) r →
      runs s r
  | runs_resumed s e rest pid fuel s2 r :
      heappop (queue (env s)) e rest →
      callback_of (e_event e) = Some pid →
      resume_process fuel (step_to s e rest) pid = Some s2 →
      runs s2 r →
      runs s r.

(** A whole session, as [simulate], with the run described by [runs]. *)
Definition simulates (prm : ProductionParameters) (wall_clock : Z)
  (pool : option ResourcePool) (project_id : string) (assets : list string)
  (until : Z) (r : run_status * list ProductionEvent) : Prop :=
  match AnimSimulator_init prm wall_clock with
  | inl e => r = (Crashed e, [])
  | inr s0 =>
      let s1 := match pool with Some p => with_pool s0 p | None => s0 end in
      match schedule_production s1 project_id assets with
      | Raise e s2 => r = (Crashed e, events s2)
      | Ok _ s2 =>
          if until <=? now (env s2)
          then r = (Crashed (ValueError "until must be greater than the current time"),
                    events s2)
          else runs (with_env s2 (schedule (env s2) EvUntil URGENT
                                    (until - now (env s2)))) r
      end
  end.

(** The serial numbers of the queued entries are distinct and below the
    counter of the environment. *)
Definition serial_ids (env : Environment) : Prop :=
  NoDup (e_id <$> queue env) ∧ ∀ e, e ∈ queue env → (e_id e < eid env)%nat.

(** Two states that differ in the layout of the queue only. *)
Definition same_heap (s s' : AnimSimulator) : Prop :=
  params s = params s' ∧ now (env s) = now (env s') ∧ eid (env s) = eid (env s')
  ∧ queue (env s) ≡ₚ queue (env s') ∧ resource_pool s = resource_pool s'
  ∧ events s = events s' ∧ current_date s = current_date s' ∧ procs s = procs s'.

(** * Properties *)

(** ** BusinessCalendar *)

Lemma existsb_in_interval (date : Z) (ivs : list (Z * Z)) :
  existsb (in_interval date) ivs = true ↔
  ∃ s e, (s, e) ∈ ivs ∧ s <= date <= e.
Proof.
  rewrite existsb_exists. split.
  - intros [[s e] [Hin Hiv]]. exists s, e. split.
    + by apply list_elem_of_In.
    + unfold in_interval in Hiv. simpl in Hiv. lia.
  - intros (s & e & Hin & Hle). exists (s, e). split.
    + by apply list_elem_of_In.
    + unfold in_interval. simpl. lia.
Qed.

Lemma is_workday_true (c : BusinessCalendar) (d : Z) :
  is_workday c d = true ↔
  weekday d ∈ work_days c ∧ (d ∉ holidays c)
  ∧ ¬ (∃ s e, (s, e) ∈ vacations c ∧ s <= d <= e).
Proof.
  unfold is_workday.
  rewrite !andb_true_iff, !negb_true_iff, bool_decide_eq_true, bool_decide_eq_false.
  rewrite <- existsb_in_interval, not_true_iff_false. tauto.
Qed.

(** C5: [is_workday c d] is [False] whenever the weekday of [d] is not in
    [work_days], or [d] is a holiday, or [d] lies in a vacation interval
    (bounds included), and [True] in every other case.  The function only
    reads the calendar: it is a pure function of the calendar and the date. *)
Theorem is_workday_truth_table (c : BusinessCalendar) (d : Z) :
  (is_workday c d = false ↔ excluded c d)
  ∧ (is_workday c d = true ↔ ¬ excluded c d).
Proof.
  assert (Ht : is_workday c d = true ↔ ¬ excluded c d).
  { rewrite is_workday_true. unfold excluded. split.
    - intros (Hw & Hh & Hv) [?|[?|?]]; tauto.
    - intros Hn. split_and!.
      + destruct (decide (weekday d ∈ work_days c)); tauto.
      + tauto.
      + tauto. }
  split; [|exact Ht].
  rewrite <- not_true_iff_false, Ht.
  split; [|tauto].
  intros Hnn. unfold excluded in *.
  destruct (decide (weekday d ∈ work_days c)); [|tauto].
  destruct (decide (d ∈ holidays c)); [tauto|].
  destruct (existsb (in_interval d) (vacations c)) eqn:Hv.
  - apply existsb_in_interval in Hv. tauto.
  - exfalso. apply Hnn. intros [?|[?|Hex]]; try tauto.
    apply existsb_in_interval in Hex. congruence.
Qed.

Lemma datetime_add_in_range (date delta : Z) :
  datetime_min <= date + delta <= datetime_max →
  datetime_add date delta = inr (date + delta).
Proof.
  intros [Hlo Hhi]. unfold datetime_add.
  by rewrite (proj2 (Z.leb_le _ _) Hlo), (proj2 (Z.leb_le _ _) Hhi).
Qed.

Lemma datetime_add_overflow (date delta : Z) :
  datetime_max < date + delta → datetime_add date delta = inl OverflowError.
Proof.
  intros Hhi. unfold datetime_add.
  rewrite (proj2 (Z.leb_gt (date + delta) datetime_max)) by lia.
  by rewrite andb_false_r.
Qed.

(** With [timedelta] bound: the scan from [nd] finds the first working day
    when one lies [k] days ahead within the range of [datetime]. *)
Lemma next_workday_loop_finds (c : BusinessCalendar) (k : nat) :
  ∀ nd, datetime_min <= nd →
  nd + timedelta_days (Z.of_nat k) <= datetime_max →
  is_workday c (nd + timedelta_days (Z.of_nat k)) = true →
  ∃ j, (j <= k)%nat
    ∧ is_workday c (nd + timedelta_days (Z.of_nat j)) = true
    ∧ (∀ i, (i < j)%nat → is_workday c (nd + timedelta_days (Z.of_nat i)) = false)
    ∧ ∀ fuel, (j < fuel)%nat →
        next_workday_loop fuel c nd =
          ((fun i => nd + timedelta_days (Z.of_nat i)) <$> seq 0 (S j),
           Some (Ok (nd + timedelta_days (Z.of_nat j)) tt)).
Proof.
  assert (Hzero : ∀ nd, nd + timedelta_days (Z.of_nat 0) = nd)
    by (intros; unfold timedelta_days; lia).
  assert (Hhere : ∀ nd, is_workday c nd = true →
            ∀ fuel, (0 < fuel)%nat →
              next_workday_loop fuel c nd =
                ((fun i => nd + timedelta_days (Z.of_nat i)) <$> seq 0 1,
                 Some (Ok (nd + timedelta_days (Z.of_nat 0)) tt))).
  { intros nd Hnd [|fuel] Hf; [lia|]. simpl. rewrite Hnd. simpl. by rewrite Hzero. }
  induction k as [|k IH]; intros nd Hlo Hhi Hk.
  - rewrite Hzero in Hk. exists O. split_and!; [lia|by rewrite Hzero|intros; lia|].
    by apply Hhere.
  - destruct (is_workday c nd) eqn:Hnd.
    + exists O. split_and!; [lia|by rewrite Hzero|intros; lia|]. by apply Hhere.
    + assert (Hshift : ∀ i : nat, nd + timedelta_days 1 + timedelta_days (Z.of_nat i)
                          = nd + timedelta_days (Z.of_nat (S i)))
        by (intros; unfold timedelta_days; lia).
      destruct (IH (nd + timedelta_days 1)) as (j & Hj & Hw & Hbefore & Hrun).
      { unfold timedelta_days. lia. }
      { by rewrite Hshift. }
      { by rewrite Hshift. }
      exists (S j). split_and!; [lia| | |].
      * by rewrite <- Hshift.
      * intros [|i] Hi; [by rewrite Hzero|].
        rewrite <- Hshift. apply Hbefore. lia.
      * intros [|fuel] Hf; [lia|].
        cbn [next_workday_loop]. rewrite Hnd. cbn [negb].
        rewrite datetime_add_in_range.
        2: { unfold timedelta_days in *. lia. }
        rewrite (Hrun fuel) by lia. rewrite Hshift.
        f_equal. change (seq 0 (S (S j))) with (O :: seq 1 (S j)).
        rewrite <- (fmap_S_seq 0 (S j)), fmap_cons. f_equal.
        -- by rewrite Hzero.
        -- rewrite <- list_fmap_compose. apply list_fmap_ext.
           intros ? i _. simpl. apply Hshift.
Qed.

(** With [timedelta] bound, on a calendar with no working day: the scan
    leaves the range of [datetime] after finitely many iterations and raises
    [OverflowError]. *)
Lemma next_workday_loop_overflows (c : BusinessCalendar) (n : nat) :
  (∀ x, is_workday c x = false) →
  ∀ nd, datetime_min <= nd <= datetime_max →
  datetime_max - nd < Z.of_nat n * 86400 →
  ∀ fuel, (n <= fuel)%nat →
    (next_workday_loop fuel c nd).2 = Some (Raise OverflowError tt).
Proof.
  intros Hno. induction n as [|n IH]; intros nd Hrange Hfar fuel Hfuel; [lia|].
  destruct fuel as [|fuel]; [lia|].
  cbn [next_workday_loop]. rewrite Hno. cbn [negb].
  destruct (Z.le_gt_cases (nd + timedelta_days 1) datetime_max) as [Hin|Hout].
  - rewrite datetime_add_in_range by (unfold timedelta_days in *; lia).
    specialize (IH (nd + timedelta_days 1)).
    destruct (next_workday_loop fuel c (nd + timedelta_days 1)) as [seen r] eqn:Hloop.
    simpl in *. rewrite <- (IH ltac:(unfold timedelta_days in *; lia)
                               ltac:(unfold timedelta_days in *; lia) fuel ltac:(lia)).
    by rewrite Hloop.
  - by rewrite datetime_add_overflow by lia.
Qed.

Lemma days_after_NoDup (d : Z) (n : nat) : NoDup (days_after d n).
Proof.
  unfold days_after. apply NoDup_fmap_2; [|apply NoDup_seq].
  intros i j Hij. unfold timedelta_days in Hij. lia.
Qed.

Lemma no_workdays_cal_closed (x : Z) : is_workday no_workdays_cal x = false.
Proof.
  unfold is_workday.
  rewrite (bool_decide_eq_false_2 (weekday x ∈ work_days no_workdays_cal)); [done|].
  apply not_elem_of_nil.
Qed.

(** What [next_workday] does when the module is run as a script, so that
    [timedelta] is bound: when some date [d + (k+1)] days, within the range
    of [datetime], is a working day, it returns the first working day after
    [d], having tested the dates [d + 1], ..., up to it, each once. *)
Lemma next_workday_script_finds (c : BusinessCalendar) (d : Z) (k : nat) :
  datetime_min <= d →
  d + timedelta_days (Z.of_nat (S k)) <= datetime_max →
  is_workday c (d + timedelta_days (Z.of_nat (S k))) = true →
  ∃ j : nat, (j <= k)%nat ∧
    let r := d + timedelta_days (Z.of_nat (S j)) in
    (∀ fuel, (j < fuel)%nat →
       next_workday true fuel c d = (days_after d (S j), Some (Ok r tt)))
    ∧ d < r
    ∧ is_workday c r = true
    ∧ (∀ i : nat, (i < j)%nat →
         is_workday c (d + timedelta_days (Z.of_nat (S i))) = false)
    ∧ NoDup (days_after d (S j)).
Proof.
  intros Hlo Hhi Hk.
  assert (Hshift : ∀ i : nat, d + timedelta_days 1 + timedelta_days (Z.of_nat i)
                      = d + timedelta_days (Z.of_nat (S i)))
    by (intros; unfold timedelta_days; lia).
  destruct (next_workday_loop_finds c k (d + timedelta_days 1))
    as (j & Hj & Hw & Hbefore & Hrun).
  { unfold timedelta_days. lia. }
  { by rewrite Hshift. }
  { by rewrite Hshift. }
  exists j. split; [done|]. cbn zeta. split_and!.
  - intros fuel Hf. unfold next_workday. cbn [negb].
    rewrite datetime_add_in_range by (unfold timedelta_days in *; lia).
    rewrite (Hrun fuel Hf), Hshift. f_equal. unfold days_after.
    apply list_fmap_ext. intros ? i _. apply Hshift.
  - unfold timedelta_days. lia.
  - by rewrite <- Hshift.
  - intros i Hi. rewrite <- Hshift. by apply Hbefore.
  - apply days_after_NoDup.
Qed.

(** Run as a script on a calendar with no working day, [next_workday] does
    not loop for ever: it raises [OverflowError] when the scan passes
    [datetime.max]. *)
Lemma next_workday_script_overflows (c : BusinessCalendar) (d : Z) :
  (∀ x, is_workday c x = false) →
  datetime_min <= d <= datetime_max →
  ∃ fuel0, ∀ fuel, (fuel0 <= fuel)%nat →
    (next_workday true fuel c d).2 = Some (Raise OverflowError tt).
Proof.
  intros Hno Hrange. unfold next_workday. cbn [negb].
  destruct (Z.le_gt_cases (d + timedelta_days 1) datetime_max) as [Hin|Hout].
  - rewrite datetime_add_in_range by (unfold timedelta_days in *; lia).
    exists (Z.to_nat ((datetime_max - d) / 86400 + 1)). intros fuel Hfuel.
    apply (next_workday_loop_overflows c (Z.to_nat ((datetime_max - d) / 86400 + 1)));
      [done| | |done].
    + unfold timedelta_days in *. lia.
    + assert (0 <= (datetime_max - d) / 86400) by (apply Z.div_pos; lia).
      rewrite Z2Nat.id by lia.
      pose proof (Z.mod_pos_bound (datetime_max - d) 86400 ltac:(lia)).
      pose proof (Z.div_mod (datetime_max - d) 86400 ltac:(lia)).
      unfold timedelta_days. lia.
  - exists O. intros fuel _. by rewrite datetime_add_overflow by lia.
Qed.

(** C6 (what the code does): for a caller that imports [production_params],
    [next_workday] raises [NameError] at its first statement, whatever the
    calendar and the date: no date is tested and no date is returned.  On
    the studio calendar, from Friday 1970-01-09, the working day that it
    should return, Monday 1970-01-12, is three days ahead. *)
Theorem next_workday_name_error (fuel : nat) (c : BusinessCalendar) (date : Z) :
  next_workday false fuel c date = ([], Some (Raise (NameError "timedelta") tt))
  ∧ (∀ r, (next_workday false fuel c date).2 ≠ Some (Ok r tt))
  ∧ next_workday false fuel studio_cal (day 8)
    = ([], Some (Raise (NameError "timedelta") tt))
  ∧ is_workday studio_cal (day 11) = true
  ∧ is_workday studio_cal (day 9) = false
  ∧ is_workday studio_cal (day 10) = false.
Proof. split_and!; try done; by vm_compute. Qed.

(** ** Resource *)

Lemma load_set_assigned (r : Resource) (date h d : Z) :
  load (set_assigned r date h) d = if bool_decide (date = d) then h else load r d.
Proof.
  unfold load, set_assigned. simpl. case_bool_decide as Hd.
  - subst. by rewrite lookup_insert_eq.
  - by rewrite lookup_insert_ne.
Qed.

Lemma assign_work_unfold (r : Resource) (date hours : Z) :
  assign_work r date hours =
    if is_available r date hours
    then Ok tt (set_assigned r date (load r date + hours))
    else Raise (ValueError "Resource not available") r.
Proof. unfold assign_work. by destruct (is_available r date hours). Qed.

Lemma is_available_load (r : Resource) (date hours : Z) :
  is_available r date hours = true → load r date + hours <= 8.
Proof.
  unfold is_available.
  destruct (is_workday (calendar r) date); simpl; [|done].
  destruct (existsb (in_interval date) (res_vacations r)); [done|]. lia.
Qed.

Lemma assign_work_load_le (r : Resource) (date hours : Z) :
  (∀ d, load r d <= 8) →
  ∀ d, load (state_of (assign_work r date hours)) d <= 8.
Proof.
  intros Hinv d. rewrite assign_work_unfold.
  destruct (is_available r date hours) eqn:Hav; simpl; [|apply Hinv].
  rewrite load_set_assigned. case_bool_decide; [|apply Hinv].
  by apply is_available_load.
Qed.

Lemma assign_all_load_le (calls : list (Z * Z)) :
  ∀ r, (∀ d, load r d <= 8) → ∀ d, load (assign_all r calls) d <= 8.
Proof.
  induction calls as [|c calls IH]; intros r Hinv d; [apply Hinv|].
  unfold assign_all. simpl. apply IH. by apply assign_work_load_le.
Qed.

Lemma assign_all_accepted (calls : list (Z * Z)) :
  ∀ r d, load (assign_all r calls) d = load r d + hours_on d (accepted r calls).
Proof.
  induction calls as [|[date hours] calls IH]; intros r d; simpl; [lia|].
  unfold assign_all. simpl. fold (assign_all (state_of (assign_work r date hours)) calls).
  rewrite IH. rewrite assign_work_unfold.
  destruct (is_available r date hours); simpl; [|done].
  rewrite load_set_assigned. case_bool_decide; subst; lia.
Qed.

Lemma load_init (nm ty : string) (cal : BusinessCalendar) (d : Z) :
  load (Resource_init nm ty cal) d = 0.
Proof. done. Qed.

(** C4: [assign_work] raises exactly when [is_available] is false; a call
    that raises leaves the resource as it was, a call that succeeds adds
    [hours] to [assigned_hours[date]] and changes nothing else; hence, on a
    resource that starts with no booking, the hours of the successful calls
    of any sequence add up to at most 8 on every date, and this total is what
    [assigned_hours] holds. *)
Theorem assign_work_guarded (r : Resource) (date hours : Z) :
  ((∃ e r', assign_work r date hours = Raise e r') ↔ is_available r date hours = false)
  ∧ match assign_work r date hours with
    | Raise _ r' => r' = r
    | Ok _ r' =>
        assigned_hours r' = <[date := load r date + hours]> (assigned_hours r)
        ∧ name r' = name r ∧ resource_type r' = resource_type r
        ∧ calendar r' = calendar r ∧ res_vacations r' = res_vacations r
    end
  ∧ ∀ (calls : list (Z * Z)) (d : Z),
      let r0 := Resource_init (name r) (resource_type r) (calendar r) in
      load (assign_all r0 calls) d = hours_on d (accepted r0 calls)
      ∧ hours_on d (accepted r0 calls) <= 8.
Proof.
  split_and!.
  - rewrite assign_work_unfold.
    destruct (is_available r date hours); split; try done.
    + intros (e & r' & H). discriminate H.
    + intros _. eauto.
  - rewrite assign_work_unfold. by destruct (is_available r date hours).
  - intros calls d r0.
    assert (Heq : load (assign_all r0 calls) d = hours_on d (accepted r0 calls)).
    { rewrite assign_all_accepted. unfold r0. rewrite load_init. lia. }
    split; [done|]. rewrite <- Heq.
    apply assign_all_load_le. intros d'. unfold r0. by rewrite load_init.
Qed.

(** ** ResourcePool *)

Lemma bucket_add_resource (p : ResourcePool) (id nm ty ty' : string) :
  bucket (state_of (add_resource p id nm ty)) ty' =
    if decide (ty = ty') then bucket p ty ++ [length (objs p)] else bucket p ty'.
Proof.
  unfold bucket at 1. simpl. destruct (decide (ty = ty')) as [->|Hty].
  - by rewrite lookup_insert_eq.
  - by rewrite lookup_insert_ne.
Qed.

Lemma bucket_add_resource_old (p : ResourcePool) (id nm ty ty' : string) (l : nat) :
  l ∈ bucket p ty' → l ∈ bucket (state_of (add_resource p id nm ty)) ty'.
Proof.
  intros Hl. rewrite bucket_add_resource.
  destruct (decide (ty = ty')) as [->|Hty]; [|done].
  apply elem_of_app. by left.
Qed.

Lemma bucket_add_resource_inv (p : ResourcePool) (id nm ty ty' : string) (l : nat) :
  l ∈ bucket (state_of (add_resource p id nm ty)) ty' →
  l ∈ bucket p ty' ∨ (l = length (objs p) ∧ ty = ty').
Proof.
  rewrite bucket_add_resource.
  destruct (decide (ty = ty')) as [->|Hty]; [|by left].
  intros [Hl|Hl]%elem_of_app; [by left|right].
  apply list_elem_of_singleton in Hl. done.
Qed.

Lemma pool_inv_init (cal : BusinessCalendar) : pool_inv (ResourcePool_init cal).
Proof.
  split; unfold bucket; simpl; intros *.
  - by rewrite lookup_empty.
  - rewrite lookup_empty. simpl. by intros ?%not_elem_of_nil.
  - by rewrite lookup_empty.
  - rewrite !lookup_empty. simpl. by intros ?%not_elem_of_nil.
Qed.

Lemma pool_inv_bucket_stored (p : ResourcePool) (ty : string) (l : nat) :
  pool_inv p → l ∈ bucket p ty → (l < length (objs p))%nat.
Proof.
  intros Hinv Hl. destruct (inv_typed_ids p Hinv ty l Hl) as [id Hid].
  by eapply inv_stored.
Qed.

Lemma resources_add_resource (p : ResourcePool) (id nm ty : string) :
  resources (state_of (add_resource p id nm ty)) = <[id := length (objs p)]> (resources p).
Proof. done. Qed.

Lemma objs_add_resource (p : ResourcePool) (id nm ty : string) :
  objs (state_of (add_resource p id nm ty)) =
    objs p ++ [Resource_init nm ty (pool_calendar p)].
Proof. done. Qed.

Lemma add_resource_pool_inv (p : ResourcePool) (id nm ty : string) :
  resources p !! id = None → pool_inv p →
  pool_inv (state_of (add_resource p id nm ty)).
Proof.
  intros Hfresh Hinv.
  assert (Hnew : ∀ ty0, length (objs p) ∉ bucket p ty0).
  { intros ty0 Hin. pose proof (pool_inv_bucket_stored p ty0 _ Hinv Hin). lia. }
  split.
  - intros id' l'. rewrite resources_add_resource, lookup_insert.
    destruct (decide (id = id')) as [->|Hid].
    + intros [= <-]. exists ty. rewrite bucket_add_resource.
      destruct (decide (ty = ty)); [|done]. apply elem_of_app. right.
      by apply list_elem_of_singleton.
    + intros Hl'. destruct (inv_ids_typed p Hinv id' l' Hl') as [ty0 Hty0].
      exists ty0. by apply bucket_add_resource_old.
  - intros ty' l' Hl'. rewrite resources_add_resource.
    apply bucket_add_resource_inv in Hl' as [Hold|[-> _]].
    + destruct (inv_typed_ids p Hinv ty' l' Hold) as [id0 Hid0].
      exists id0. rewrite lookup_insert_ne; [done|]. congruence.
    + exists id. by rewrite lookup_insert_eq.
  - intros id' l'. rewrite resources_add_resource, objs_add_resource.
    rewrite lookup_insert, length_app. simpl.
    destruct (decide (id = id')) as [->|Hid].
    + intros [= <-]. lia.
    + intros Hl'. pose proof (inv_stored p Hinv id' l' Hl'). lia.
  - intros ty1 ty2 l' H1 H2.
    apply bucket_add_resource_inv in H1, H2.
    destruct H1 as [H1|[-> <-]], H2 as [H2|[Hl <-]].
    + by eapply inv_one_bucket.
    + subst. by apply Hnew in H1.
    + by apply Hnew in H2.
    + done.
Qed.

(** C7 (as the code has it): [add_resource] never raises.  It creates a new
    [Resource], binds the id to it in the id index (an earlier binding of the
    same id is replaced) and appends it to the bucket of its type.  When the
    id is fresh this keeps the invariant of the pool: both indices hold the
    same resources, each in one bucket. *)
Theorem add_resource_registers (p : ResourcePool) (id nm ty : string) :
  ∃ p', add_resource p id nm ty = Ok (length (objs p)) p'
    ∧ pool_calendar p' = pool_calendar p
    ∧ objs p' = objs p ++ [Resource_init nm ty (pool_calendar p)]
    ∧ resources p' = <[id := length (objs p)]> (resources p)
    ∧ resources_by_type p' =
        <[ty := bucket p ty ++ [length (objs p)]]> (resources_by_type p)
    ∧ (resources p !! id = None → pool_inv p → pool_inv p').
Proof.
  eexists. split; [reflexivity|]. split_and!; try reflexivity.
  intros Hfresh Hinv. by apply (add_resource_pool_inv p id nm ty).
Qed.

(** Registering ["m2"] in the pool that holds ["m1"]. *)
Lemma add_resource_registers_witness :
  resources pool_m1 !! "m2"%string = None ∧ pool_inv pool_m1
  ∧ ∃ p', add_resource pool_m1 "m2" "Modeling Artist" "quota" = Ok 1%nat p'
      ∧ bucket p' "quota" = [0%nat; 1%nat] ∧ pool_inv p'.
Proof.
  assert (Hinv : pool_inv pool_m1).
  { apply add_resource_pool_inv; [done|apply pool_inv_init]. }
  split; [done|]. split; [done|].
  destruct (add_resource_registers pool_m1 "m2" "Modeling Artist" "quota")
    as (p' & Heq & _ & _ & _ & Hty & Hkeep).
  exists p'. split; [exact Heq|]. split.
  - unfold bucket. rewrite Hty. by rewrite lookup_insert_eq.
  - by apply Hkeep.
Defined.

(** C7, the claim as stated fails: registering the id ["m1"] a second time
    does not raise, and both indices change (the id is rebound to the new
    resource and the bucket grows). *)
Lemma add_resource_duplicate_accepted :
  resources pool_m1 !! "m1"%string = Some 0%nat
  ∧ ∃ p', add_resource pool_m1 "m1" "Modeling Artist" "quota" = Ok 1%nat p'
      ∧ resources p' !! "m1"%string = Some 1%nat
      ∧ bucket pool_m1 "quota" = [0%nat]
      ∧ bucket p' "quota" = [0%nat; 1%nat]
      ∧ ¬ pool_inv p'.
Proof.
  split; [done|]. eexists. split; [reflexivity|]. split_and!; try done.
  intros Hinv.
  destruct (inv_typed_ids _ Hinv "quota" 0%nat) as [id Hid].
  { apply bucket_add_resource_old. change (bucket pool_m1 "quota") with [0%nat].
    by apply list_elem_of_singleton. }
  simpl in Hid. rewrite lookup_insert in Hid. case_decide; [done|].
  change (resources pool_m1) with (<["m1"%string := 0%nat]> (∅ : gmap string nat)) in Hid.
  rewrite lookup_insert in Hid. case_decide; [congruence|].
  by rewrite lookup_empty in Hid.
Qed.

Lemma allocate_scan_spec (p : ResourcePool) (date hours : Z) (ls : list nat) :
  match allocate_scan p ls date hours with
  | Ok (Some l) p' =>
      ∃ r, l ∈ ls ∧ objs p !! l = Some r ∧ is_available r date hours = true
        ∧ p' = set_obj p l (booked r date hours)
  | Ok None p' =>
      p' = p ∧ ∀ l r, l ∈ ls → objs p !! l = Some r → is_available r date hours = false
  | Raise _ _ => False
  end.
Proof.
  induction ls as [|l ls IH]; simpl.
  - split; [done|]. by intros l r ?%not_elem_of_nil.
  - destruct (objs p !! l) as [r|] eqn:Hl.
    + destruct (is_available r date hours) eqn:Hav.
      * rewrite assign_work_unfold, Hav. exists r. split_and!; try done.
        apply elem_of_cons. by left.
      * destruct (allocate_scan p ls date hours) as [[l0|] p'|]; [| |done].
        -- destruct IH as (r0 & Hin & ?). exists r0. split; [|done].
           apply elem_of_cons. by right.
        -- destruct IH as [-> IH]. split; [done|].
           intros l1 r1 [->|Hin]%elem_of_cons Hl1; [congruence|by eapply IH].
    + destruct (allocate_scan p ls date hours) as [[l0|] p'|]; [| |done].
      * destruct IH as (r0 & Hin & ?). exists r0. split; [|done].
        apply elem_of_cons. by right.
      * destruct IH as [-> IH]. split; [done|].
        intros l1 r1 [->|Hin]%elem_of_cons Hl1; [congruence|by eapply IH].
Qed.

Lemma allocate_scan_none (p : ResourcePool) (date hours : Z) (ls : list nat) :
  (∀ l r, l ∈ ls → objs p !! l = Some r → is_available r date hours = false) →
  allocate_scan p ls date hours = Ok None p.
Proof.
  induction ls as [|l ls IH]; intros Hno; simpl; [done|].
  destruct (objs p !! l) as [r|] eqn:Hl.
  - rewrite (Hno l r); [|apply elem_of_cons; by left|done].
    apply IH. intros l1 r1 Hin. apply Hno. apply elem_of_cons. by right.
  - apply IH. intros l1 r1 Hin. apply Hno. apply elem_of_cons. by right.
Qed.

Lemma allocate_scan_only (p : ResourcePool) (date hours : Z) (l : nat) (r : Resource)
    (ls : list nat) :
  l ∈ ls → objs p !! l = Some r → is_available r date hours = true →
  (∀ l' r', l' ∈ ls → l' ≠ l → objs p !! l' = Some r' →
     is_available r' date hours = false) →
  allocate_scan p ls date hours = Ok (Some l) (set_obj p l (booked r date hours)).
Proof.
  intros Hin Hl Hav. induction ls as [|l0 ls IH]; intros Hothers.
  - by apply not_elem_of_nil in Hin.
  - simpl. destruct (decide (l0 = l)) as [->|Hne].
    + by rewrite Hl, Hav, assign_work_unfold, Hav.
    + assert (Hin' : l ∈ ls).
      { apply elem_of_cons in Hin as [?|?]; [congruence|done]. }
      assert (Hrest : allocate_scan p ls date hours
                      = Ok (Some l) (set_obj p l (booked r date hours))).
      { apply IH; [done|]. intros l' r' Hl'. apply Hothers. apply elem_of_cons. by right. }
      destruct (objs p !! l0) as [r0|] eqn:Hl0; [|done].
      rewrite (Hothers l0 r0); [done|apply elem_of_cons; by left|done|done].
Qed.

Lemma is_available_full (r : Resource) (date hours : Z) :
  8 < load r date + hours → is_available r date hours = false.
Proof.
  intros Hfull. unfold is_available.
  destruct (is_workday (calendar r) date); simpl; [|done].
  destruct (existsb (in_interval date) (res_vacations r)); [done|]. lia.
Qed.

Lemma load_booked (r : Resource) (date hours : Z) :
  load (booked r date hours) date = load r date + hours.
Proof.
  unfold booked. rewrite load_set_assigned. by rewrite bool_decide_eq_true_2.
Qed.

(** C10: when [allocate_resource] returns the resource at [l], that resource
    is in the bucket of the type and was available, its [assigned_hours]
    entry for [date] has grown by [hours], and nothing else has changed: not
    its other dates or fields, not the other resources, not the two indices.
    When it returns [None] the pool is unchanged; this is the case in
    particular when the type has no bucket.  The call never raises. *)
Theorem allocate_resource_frame (p : ResourcePool) (ty : string) (date hours : Z) :
  match allocate_resource p ty date hours with
  | Ok (Some l) p' =>
      ∃ r r', l ∈ bucket p ty ∧ objs p !! l = Some r ∧ objs p' !! l = Some r'
        ∧ is_available r date hours = true
        ∧ assigned_hours r' !! date = Some (load r date + hours)
        ∧ (∀ d, d ≠ date → assigned_hours r' !! d = assigned_hours r !! d)
        ∧ name r' = name r ∧ resource_type r' = resource_type r
        ∧ calendar r' = calendar r ∧ res_vacations r' = res_vacations r
        ∧ (∀ l', l' ≠ l → objs p' !! l' = objs p !! l')
        ∧ length (objs p') = length (objs p)
        ∧ resources p' = resources p
        ∧ resources_by_type p' = resources_by_type p
        ∧ pool_calendar p' = pool_calendar p
  | Ok None p' => p' = p
  | Raise _ _ => False
  end
  ∧ (resources_by_type p !! ty = None →
     allocate_resource p ty date hours = Ok None p).
Proof.
  split.
  - unfold allocate_resource.
    pose proof (allocate_scan_spec p date hours (bucket p ty)) as Hspec.
    destruct (allocate_scan p (bucket p ty) date hours) as [[l|] p'|]; [| |done].
    + destruct Hspec as (r & Hin & Hl & Hav & ->).
      exists r, (booked r date hours). simpl.
      split_and!; try done.
      * apply list_lookup_insert_eq. by eapply lookup_lt_Some.
      * by rewrite lookup_insert_eq.
      * intros d Hd. by rewrite lookup_insert_ne.
      * intros l' Hl'. by apply list_lookup_insert_ne.
      * apply length_insert.
    + by destruct Hspec.
  - intros Hnone. unfold allocate_resource, bucket. by rewrite Hnone.
Qed.

(** On the pool with the single resource ["m1"], a request of 8 hours on
    Monday 1970-01-05 books it; a request for a type with no bucket changes
    nothing. *)
Lemma allocate_resource_frame_witness :
  (∃ p', allocate_resource pool_m1 "quota" (day 4) 8 = Ok (Some 0%nat) p'
         ∧ load_at p' 0 (day 4) = 8 ∧ resources p' = resources pool_m1)
  ∧ allocate_resource pool_m1 "support" (day 4) 8 = Ok None pool_m1.
Proof.
  split.
  - pose proof (allocate_resource_frame pool_m1 "quota" (day 4) 8) as [H _].
    change (allocate_resource pool_m1 "quota" (day 4) 8)
      with (Ok (A := option nat) (Some 0%nat)
              (set_obj pool_m1 0 (booked (Resource_init "Modeling Artist" "quota" studio_cal)
                                    (day 4) 8))) in *.
    eexists. split; [reflexivity|].
    destruct H as (r & r' & _ & Hr & Hr' & _ & Hload & _ & _ & _ & _ & _ & _ & _ & Hres & _).
    split; [|exact Hres].
    unfold load_at. rewrite Hr'. unfold load. rewrite Hload.
    injection Hr as <-. reflexivity.
  - apply (allocate_resource_frame pool_m1 "support" (day 4) 8). reflexivity.
Defined.

(** C9 (as the code has it): when exactly one resource of the type is
    available for the date and the hours, and its load after one booking
    leaves no room for a second one of the same hours (as with the default of
    8 hours on a resource with a non-negative load), the first call books and
    returns that resource and the second call returns [None]. *)
Theorem allocate_resource_twice (p : ResourcePool) (ty : string) (date hours : Z)
    (l : nat) (r : Resource) :
  only_available p ty date hours l →
  objs p !! l = Some r →
  8 < load r date + 2 * hours →
  ∃ p1, allocate_resource p ty date hours = Ok (Some l) p1
    ∧ objs p1 !! l = Some (booked r date hours)
    ∧ allocate_resource p1 ty date hours = Ok None p1.
Proof.
  intros [(r0 & Hin & Hl0 & Hav) Hothers] Hl Hfull.
  assert (r0 = r) as -> by congruence.
  exists (set_obj p l (booked r date hours)).
  assert (Hlt : (l < length (objs p))%nat) by (by eapply lookup_lt_Some).
  split_and!.
  - unfold allocate_resource. by apply allocate_scan_only.
  - simpl. by apply list_lookup_insert_eq.
  - unfold allocate_resource.
    change (bucket (set_obj p l (booked r date hours)) ty) with (bucket p ty).
    apply allocate_scan_none. intros l' r' Hin'. simpl.
    destruct (decide (l' = l)) as [->|Hne].
    + rewrite list_lookup_insert_eq by done. intros [= <-].
      apply is_available_full. rewrite load_booked. lia.
    + rewrite list_lookup_insert_ne by done. by apply Hothers.
Qed.

(** The default request of 8 hours, twice, on the pool with the single
    resource ["m1"]. *)
Lemma allocate_resource_twice_witness :
  ∃ p1, allocate_resource pool_m1 "quota" (day 4) 8 = Ok (Some 0%nat) p1
    ∧ allocate_resource p1 "quota" (day 4) 8 = Ok None p1.
Proof.
  destruct (allocate_resource_twice pool_m1 "quota" (day 4) 8 0
              (Resource_init "Modeling Artist" "quota" studio_cal))
    as (p1 & H1 & _ & H2).
  - split.
    + eexists. split_and!; [|reflexivity|reflexivity].
      change (bucket pool_m1 "quota") with [0%nat]. by apply list_elem_of_singleton.
    + intros l' r'. change (bucket pool_m1 "quota") with [0%nat].
      intros ->%list_elem_of_singleton. done.
  - reflexivity.
  - reflexivity.
  - by exists p1.
Defined.

(** C9, the claim as stated fails: with a request of 4 hours the single
    resource of the pool is the only one available, the first call books it,
    and the second call books it again instead of returning [None]. *)
Lemma allocate_resource_twice_rebooks :
  only_available pool_m1 "quota" (day 4) 4 0
  ∧ ∃ p1 p2, allocate_resource pool_m1 "quota" (day 4) 4 = Ok (Some 0%nat) p1
      ∧ allocate_resource p1 "quota" (day 4) 4 = Ok (Some 0%nat) p2
      ∧ load_at p2 0 (day 4) = 8.
Proof.
  split.
  - split.
    + eexists. split_and!; [|reflexivity|reflexivity].
      change (bucket pool_m1 "quota") with [0%nat]. by apply list_elem_of_singleton.
    + intros l' r'. change (bucket pool_m1 "quota") with [0%nat].
      intros ->%list_elem_of_singleton. done.
  - do 2 eexists. split_and!; reflexivity.
Qed.













(** ** The simulation engine *)

(** More fuel does not change the outcome of a loop that has ended. *)
Lemma stage_from_alloc_mono (asset : string) (wf : WorkflowDefinition)
    (head1 head2 : AnimSimulator → option string → option (AnimSimulator * suspend))
    (s : AnimSimulator) (st : string) (sd : StageDef) (bid : Z)
    (r : AnimSimulator * suspend) :
  (∀ s' next r', head1 s' next = Some r' → head2 s' next = Some r') →
  stage_from_alloc asset wf head1 s st sd bid = Some r →
  stage_from_alloc asset wf head2 s st sd bid = Some r.
Proof.
  intros Hhead. unfold stage_from_alloc.
  destruct (sd_resource_type sd); [|done].
  destruct (allocate_resource _ _ _ _) as [[res|] p'|]; try done.
  destruct (negb (resolve_conflict asset st)); [done|].
  destruct (get_next_stage wf st); [done|]. apply Hhead.
Qed.

Lemma stage_loop_mono (asset : string) (wf : WorkflowDefinition) (cx : string)
    (fuel : nat) :
  ∀ fuel' s st r, (fuel <= fuel')%nat →
  stage_loop asset wf cx fuel s st = Some r →
  stage_loop asset wf cx fuel' s st = Some r.
Proof.
  induction fuel as [|fuel IH]; intros [|fuel'] s st r Hle; try done; [lia|].
  cbn [stage_loop].
  destruct st as [st|]; [|done].
  destruct (bool_decide (st = ""%string)); [done|].
  destruct (stages wf !! st); [|done].
  destruct (stage_bid _ cx); [done|].
  destruct (stage_order wf !! O); [|done].
  destruct (bool_decide _); [done|].
  apply stage_from_alloc_mono. intros s' next r'. apply IH. lia.
Qed.

Lemma resume_mono (asset : string) (wf : WorkflowDefinition) (cx : string)
    (fuel fuel' : nat) (s : AnimSimulator) (k : pc) (r : AnimSimulator * suspend) :
  (fuel <= fuel')%nat →
  resume asset wf cx fuel s k = Some r → resume asset wf cx fuel' s k = Some r.
Proof.
  intros Hle. destruct k; simpl; try done.
  - destruct (stage_order wf !! O); [|done]. by apply stage_loop_mono.
  - apply stage_from_alloc_mono. intros s' next r'. by apply stage_loop_mono.
  - destruct (get_next_stage wf _); [done|]. by apply stage_loop_mono.
  - by apply stage_loop_mono.
Qed.

Lemma resume_process_mono (fuel fuel' : nat) (s s' : AnimSimulator) (pid : nat) :
  (fuel <= fuel')%nat →
  resume_process fuel s pid = Some s' → resume_process fuel' s pid = Some s'.
Proof.
  intros Hle. unfold resume_process.
  destruct (procs s !! pid) as [P|]; [|done].
  destruct (resume _ _ _ fuel s (p_pc P)) as [r|] eqn:Hr; [|done].
  by rewrite (resume_mono _ _ _ fuel fuel' s _ r Hle Hr).
Qed.

Lemma run_loop_mono (fuel : nat) :
  ∀ fuel' s r, (fuel <= fuel')%nat →
  run_loop fuel s = Some r → run_loop fuel' s = Some r.
Proof.
  induction fuel as [|fuel IH]; intros [|fuel'] s r Hle; try done; [lia|].
  cbn [run_loop].
  destruct (pop_min (queue (env s))) as [[e rest]|]; [|done].
  destruct (e_event e) as [pid|pid|pid [err|]|]; try done.
  - destruct (resume_process (S fuel) _ pid) as [s2|] eqn:Hr; [|done].
    rewrite (resume_process_mono (S fuel) (S fuel') _ s2 pid) by (done || lia).
    apply IH. lia.
  - destruct (resume_process (S fuel) _ pid) as [s2|] eqn:Hr; [|done].
    rewrite (resume_process_mono (S fuel) (S fuel') _ s2 pid) by (done || lia).
    apply IH. lia.
  - apply IH. lia.
Qed.

Lemma simulate_mono (fuel fuel' : nat) (prm : ProductionParameters) (wall_clock : Z)
    (pool : option ResourcePool) (project_id : string) (assets : list string)
    (until : Z) (r : run_status * list ProductionEvent) :
  (fuel <= fuel')%nat →
  simulate fuel prm wall_clock pool project_id assets until = Some r →
  simulate fuel' prm wall_clock pool project_id assets until = Some r.
Proof.
  intros Hle. unfold simulate.
  destruct (AnimSimulator_init prm wall_clock) as [e|s0]; [done|].
  destruct (schedule_production _ project_id assets) as [[] s2|e s2]; [|done].
  unfold run. destruct (until <=? now (env s2)); [done|].
  destruct (run_loop fuel _) as [[st s3]|] eqn:Hrun; [|done].
  by rewrite (run_loop_mono fuel fuel' _ _ Hle Hrun).
Qed.

(** *** Every run ends *)

Lemma index_of_Some (x : string) (l : list string) (i : nat) :
  index_of x l = Some i → l !! i = Some x.
Proof.
  revert i. induction l as [|y l IH]; intros i; simpl; [done|].
  case_bool_decide as Hy.
  - intros [= <-]. by subst.
  - destruct (index_of x l) as [j|]; [|done]. simpl. intros [= <-]. by apply IH.
Qed.

Lemma index_of_NoDup (x : string) (l : list string) (i : nat) :
  NoDup l → l !! i = Some x → index_of x l = Some i.
Proof.
  intros Hnd. revert i. induction Hnd as [|y l Hy Hnd IH]; intros i; [done|].
  destruct i as [|i]; simpl.
  - intros [= ->]. by rewrite bool_decide_eq_true_2.
  - intros Hi. rewrite bool_decide_eq_false_2.
    + by rewrite (IH i Hi).
    + intros ->. apply Hy. by eapply list_elem_of_lookup_2.
Qed.

Lemma get_next_stage_remaining (wf : WorkflowDefinition) (st : string)
    (next : option string) :
  NoDup (stage_order wf) →
  get_next_stage wf st = inr next →
  (remaining wf next < remaining wf (Some st))%nat.
Proof.
  intros Hnd. unfold get_next_stage, remaining, stage_pos.
  destruct (index_of st (stage_order wf)) as [idx|] eqn:Hidx; [|done].
  pose proof (index_of_Some _ _ _ Hidx) as Hlook.
  apply lookup_lt_Some in Hlook. simpl.
  destruct (Z.of_nat idx <? Z.of_nat (length (stage_order wf)) - 1) eqn:Hlt.
  - intros [= <-]. destruct (stage_order wf !! S idx) as [st'|] eqn:Hnext; [|lia].
    rewrite (index_of_NoDup _ _ _ Hnd Hnext). simpl. lia.
  - intros [= <-]. lia.
Qed.

Lemma stage_loop_ends (asset : string) (wf : WorkflowDefinition) (cx : string) :
  NoDup (stage_order wf) →
  ∀ fuel s next, (remaining wf next < fuel)%nat →
  ∃ s' out, stage_loop asset wf cx fuel s next = Some (s', out)
    ∧ procs s' = procs s ∧ env s' = env s
    ∧ yields_below wf (2 * remaining wf next + 1) out.
Proof.
  intros Hnd. induction fuel as [|fuel IH]; intros s next Hfuel; [lia|].
  cbn [stage_loop].
  destruct next as [st|]; [|by exists s, Return].
  destruct (bool_decide (st = ""%string)); [by exists s, Return|].
  destruct (stages wf !! st) as [sd|]; [|by eexists s, (Throw _)].
  destruct (stage_bid sd cx) as [e|bid]; [by eexists s, (Throw _)|].
  destruct (stage_order wf !! O) as [first|]; [|by eexists s, (Throw _)].
  case_bool_decide as Hfirst.
  - destruct (creative_calendar (params s) !! asset) as [input_date|];
      [|by eexists s, (Throw _)].
    unfold timeout. destruct (_ <? 0); [by eexists s, (Throw _)|].
    eexists s, (Yield _ _). split_and!; try done. simpl. lia.
  - unfold stage_from_alloc.
    destruct (sd_resource_type sd) as [rty|]; [|by eexists s, (Throw _)].
    destruct (allocate_resource _ _ _ _) as [[res|] p'|e p'].
    + unfold timeout. destruct (_ <? 0); [by eexists _, (Throw _)|].
      eexists _, (Yield _ _). split_and!; try done. simpl. lia.
    + cbn [resolve_conflict _get_pending_tasks negb].
      destruct (get_next_stage wf st) as [e|next] eqn:Hnext;
        [by eexists _, (Throw _)|].
      pose proof (get_next_stage_remaining wf st next Hnd Hnext) as Hrem.
      destruct (IH (with_pool s p') next) as (s' & out & Hrun & Hp & He & Hout); [lia|].
      exists s', out. split_and!; try done.
      destruct out; simpl in *; try done. lia.
    + by eexists _, (Throw _).
Qed.

Lemma resume_ends (asset : string) (wf : WorkflowDefinition) (cx : string)
    (fuel : nat) (s : AnimSimulator) (k : pc) :
  NoDup (stage_order wf) →
  (2 + pc_rank wf k <= fuel)%nat →
  ∃ s' out, resume asset wf cx fuel s k = Some (s', out)
    ∧ procs s' = procs s ∧ env s' = env s
    ∧ match out with
      | Yield _ k' => (pc_rank wf k' < pc_rank wf k)%nat
      | Return | Throw _ => True
      end.
Proof.
  intros Hnd Hfuel. destruct k as [|st sd bid|st start res|st| |]; cbn [resume].
  - destruct (stage_order wf !! O) as [first|] eqn:Hfirst; [|by eexists s, (Throw _)].
    destruct (stage_loop_ends asset wf cx Hnd fuel s (Some first))
      as (s' & out & Hrun & Hp & He & Hout).
    { simpl in *. lia. }
    exists s', out. split_and!; try done.
    destruct out; simpl in *; try done. lia.
  - unfold stage_from_alloc.
    destruct (sd_resource_type sd) as [rty|]; [|by eexists s, (Throw _)].
    destruct (allocate_resource _ _ _ _) as [[r|] p'|e p'].
    + unfold timeout. destruct (_ <? 0); [by eexists _, (Throw _)|].
      eexists _, (Yield _ _). split_and!; try done. simpl. lia.
    + cbn [resolve_conflict _get_pending_tasks negb].
      destruct (get_next_stage wf st) as [e|next] eqn:Hnext;
        [by eexists _, (Throw _)|].
      pose proof (get_next_stage_remaining wf st next Hnd Hnext) as Hrem.
      destruct (stage_loop_ends asset wf cx Hnd fuel (with_pool s p') next)
        as (s' & out & Hrun & Hp & He & Hout).
      { simpl in *. lia. }
      exists s', out. split_and!; try done.
      destruct out; simpl in *; try done. lia.
    + by eexists _, (Throw _).
  - destruct (get_next_stage wf st) as [e|next] eqn:Hnext;
      [by eexists _, (Throw _)|].
    pose proof (get_next_stage_remaining wf st next Hnd Hnext) as Hrem.
    destruct (stage_loop_ends asset wf cx Hnd fuel
                (with_events s (events s ++ [ProductionEvent_init asset st start
                   (sim_date s) (resource_name (resource_pool s) res)])) next)
      as (s' & out & Hrun & Hp & He & Hout).
    { simpl in *. lia. }
    exists s', out. split_and!; try done.
    destruct out; simpl in *; try done. lia.
  - destruct (stage_loop_ends asset wf cx Hnd fuel s (Some st))
      as (s' & out & Hrun & Hp & He & Hout).
    { simpl in *. lia. }
    exists s', out. split_and!; try done.
    destruct out; simpl in *; try done. lia.
  - by exists s, Return.
  - by exists s, Return.
Qed.

Lemma pop_min_perm (q : list entry) (e : entry) (rest : list entry) :
  pop_min q = Some (e, rest) → q ≡ₚ e :: rest.
Proof.
  revert e rest. induction q as [|a q IH]; intros e rest; simpl; [done|].
  destruct (pop_min q) as [[m rest']|] eqn:Hq.
  - specialize (IH m rest' eq_refl). destruct (entry_ltb m a).
    + intros [= <- <-]. rewrite IH. apply Permutation_swap.
    + by intros [= <- <-].
  - intros [= <- <-]. destruct q; [done|]. simpl in Hq.
    destruct (pop_min q) as [[??]|]; [destruct (entry_ltb _ _)|]; done.
Qed.

Lemma pending_pop (ps : list Process) (q : list entry) (e : entry) (rest : list entry) :
  pop_min q = Some (e, rest) →
  pending ps q = (event_weight ps (e_event e) + pending ps rest)%nat.
Proof.
  intros Hpop. unfold pending. by rewrite (pop_min_perm q e rest Hpop).
Qed.

Lemma event_weight_update (ps : list Process) (pid : nat) (P : Process) (k : pc)
    (ev : sim_event) :
  ps !! pid = Some P →
  (pc_rank (p_workflow P) k <= pc_rank (p_workflow P) (p_pc P))%nat →
  (event_weight (<[pid := set_pc P k]> ps) ev <= event_weight ps ev)%nat.
Proof.
  intros HP Hrank.
  assert (Hcase : ∀ pid', (match <[pid := set_pc P k]> ps !! pid' with
                          | Some P' => 2 + pc_rank (p_workflow P') (p_pc P')
                          | None => 1
                          end <= match ps !! pid' with
                                 | Some P' => 2 + pc_rank (p_workflow P') (p_pc P')
                                 | None => 1
                                 end)%nat).
  { intros pid'. destruct (decide (pid = pid')) as [<-|Hne].
    - rewrite list_lookup_insert_eq by (by eapply lookup_lt_Some).
      rewrite HP. simpl. lia.
    - by rewrite list_lookup_insert_ne. }
  destruct ev; simpl; try done; apply Hcase.
Qed.

Lemma pending_update (ps : list Process) (pid : nat) (P : Process) (k : pc)
    (q : list entry) :
  ps !! pid = Some P →
  (pc_rank (p_workflow P) k <= pc_rank (p_workflow P) (p_pc P))%nat →
  (pending (<[pid := set_pc P k]> ps) q <= pending ps q)%nat.
Proof.
  intros HP Hrank. unfold pending.
  induction q as [|e q IH]; simpl; [done|].
  pose proof (event_weight_update ps pid P k (e_event e) HP Hrank). lia.
Qed.

Lemma distinct_stages_update (ps : list Process) (pid : nat) (P : Process) (k : pc) :
  ps !! pid = Some P → distinct_stages ps →
  distinct_stages (<[pid := set_pc P k]> ps).
Proof.
  intros HP Hd pid' P'. destruct (decide (pid = pid')) as [<-|Hne].
  - rewrite list_lookup_insert_eq by (by eapply lookup_lt_Some).
    intros [= <-]. simpl. by eapply Hd.
  - rewrite list_lookup_insert_ne by done. apply Hd.
Qed.

Lemma resume_process_ends (fuel : nat) (s : AnimSimulator) (pid : nat) (P : Process) :
  distinct_stages (procs s) →
  procs s !! pid = Some P →
  (2 + pc_rank (p_workflow P) (p_pc P) <= fuel)%nat →
  ∃ s2, resume_process fuel s pid = Some s2
    ∧ distinct_stages (procs s2)
    ∧ (pending (procs s2) (queue (env s2))
       <= pending (procs s) (queue (env s)) + 1 + pc_rank (p_workflow P) (p_pc P))%nat.
Proof.
  intros Hd HP Hfuel. unfold resume_process. rewrite HP.
  destruct (resume_ends (p_asset_id P) (p_workflow P) (p_complexity P) fuel s (p_pc P))
    as (s' & out & -> & Hp & He & Hout); [by eapply Hd|done|].
  rewrite Hp, He.
  assert (Hlt : (pid < length (procs s))%nat) by (by eapply lookup_lt_Some).
  destruct out as [delay k| |e]; eexists; (split; [reflexivity|]); simpl.
  - split; [by apply distinct_stages_update|].
    unfold pending. rewrite sum_list_with_app. simpl.
    rewrite list_lookup_insert_eq by done. simpl.
    pose proof (pending_update (procs s) pid P k (queue (env s)) HP ltac:(lia)) as Hq.
    unfold pending in Hq. lia.
  - split; [by apply distinct_stages_update|].
    unfold pending. rewrite sum_list_with_app. simpl.
    pose proof (pending_update (procs s) pid P PDone (queue (env s)) HP
                  ltac:(simpl; lia)) as Hq.
    unfold pending in Hq. lia.
  - split; [by apply distinct_stages_update|].
    unfold pending. rewrite sum_list_with_app. simpl.
    pose proof (pending_update (procs s) pid P PFailed (queue (env s)) HP
                  ltac:(simpl; lia)) as Hq.
    unfold pending in Hq. lia.
Qed.

Lemma run_loop_ends (fuel : nat) :
  ∀ s, distinct_stages (procs s) →
  (pending (procs s) (queue (env s)) < fuel)%nat →
  ∃ r, run_loop fuel s = Some r.
Proof.
  induction fuel as [|fuel IH]; intros s Hd Hfuel; [lia|].
  cbn [run_loop].
  destruct (pop_min (queue (env s))) as [[e rest]|] eqn:Hpop; [|by eexists].
  rewrite (pending_pop _ _ e rest Hpop) in Hfuel.
  set (s1 := with_env s {| now := e_time e; queue := rest; eid := eid (env s) |}).
  assert (Hresume : ∀ pid, event_weight (procs s) (e_event e)
                           = match procs s !! pid with
                             | Some P => (2 + pc_rank (p_workflow P) (p_pc P))%nat
                             | None => 1%nat
                             end →
            ∃ r, match resume_process (S fuel) s1 pid with
                 | Some s2 => run_loop fuel s2
                 | None => None
                 end = Some r).
  { intros pid Hw. destruct (procs s !! pid) as [P|] eqn:HP.
    - destruct (resume_process_ends (S fuel) s1 pid P) as (s2 & -> & Hd2 & Hpend);
        [done|done|lia|].
      apply IH; [done|]. simpl in Hpend. lia.
    - unfold resume_process. change (procs s1) with (procs s). rewrite HP.
      apply IH; [done|]. simpl. lia. }
  destruct (e_event e) as [pid|pid|pid [err|]|] eqn:Hev.
  - by apply Hresume.
  - by apply Hresume.
  - by eexists.
  - apply IH; [done|]. simpl in *. lia.
  - by eexists.
Qed.

Lemma schedule_production_distinct (project_id : string) (assets : list string) :
  ∀ s, (∀ wf, workflow_definitions (params s) !! "asset_workflow"%string = Some wf →
           NoDup (stage_order wf)) →
  distinct_stages (procs s) →
  distinct_stages (procs (state_of (schedule_production s project_id assets))).
Proof.
  induction assets as [|asset assets IH]; intros s Hwf Hd; simpl; [done|].
  destruct (workflow_definitions (params s) !! "asset_workflow"%string) as [wf|] eqn:Hw;
    [|done].
  destruct (complexity_matrix (params s) !! asset) as [level|]; [|done].
  apply IH.
  - intros wf0. change (params (env_process s asset level wf)) with (params s).
    rewrite Hw. apply Hwf.
  - simpl. intros pid P.
    intros [HP|[_ HP]]%lookup_app_Some; [by eapply Hd|].
    destruct (pid - length (procs s))%nat; [|done].
    injection HP as <-. simpl. by apply Hwf.
Qed.

Lemma simulate_ends (prm : ProductionParameters) (wall_clock : Z)
    (pool : option ResourcePool) (project_id : string) (assets : list string)
    (until : Z) :
  (∀ wf, workflow_definitions prm !! "asset_workflow"%string = Some wf →
     NoDup (stage_order wf)) →
  ∃ fuel r, simulate fuel prm wall_clock pool project_id assets until = Some r.
Proof.
  intros Hwf. unfold simulate.
  destruct (AnimSimulator_init prm wall_clock) as [e|s0] eqn:Hinit; [by exists O; eexists|].
  assert (Hprm : params s0 = prm).
  { unfold AnimSimulator_init in Hinit.
    destruct (resource_calendars prm !! "studio"%string); [|done].
    by injection Hinit as <-. }
  assert (Hp0 : procs s0 = []).
  { unfold AnimSimulator_init in Hinit.
    destruct (resource_calendars prm !! "studio"%string); [|done].
    by injection Hinit as <-. }
  set (s1 := match pool with Some p => with_pool s0 p | None => s0 end).
  assert (Hprm1 : params s1 = prm) by (by destruct pool).
  assert (Hp1 : procs s1 = []) by (by destruct pool).
  pose proof (schedule_production_distinct project_id assets s1) as Hd.
  destruct (schedule_production s1 project_id assets) as [[] s2|e s2];
    [|by exists O; eexists].
  simpl in Hd. unfold run.
  destruct (until <=? now (env s2)); [by exists O; eexists|].
  set (s3 := with_env s2 (schedule (env s2) EvUntil URGENT (until - now (env s2)))).
  destruct (run_loop_ends (S (pending (procs s3) (queue (env s3)))) s3) as [[st s4] Hrun].
  - apply Hd; [by rewrite Hprm1|]. rewrite Hp1. by intros pid P.
  - lia.
  - exists (S (pending (procs s3) (queue (env s3)))). eexists. by rewrite Hrun.
Qed.

(** What one stage with a resource does: it yields a timeout of
    [bid_hours * 24] units of the clock, and the event recorded at the
    resumption ends at the date of the clock at that time. *)
Lemma stage_from_alloc_hold (asset : string) (wf : WorkflowDefinition)
    (head : AnimSimulator → option string → option (AnimSimulator * suspend))
    (s : AnimSimulator) (st rty : string) (sd : StageDef) (bid : Z)
    (res : nat) (p' : ResourcePool) :
  sd_resource_type sd = Some rty →
  allocate_resource (resource_pool s) rty (sim_date s) bid = Ok (Some res) p' →
  0 <= bid →
  stage_from_alloc asset wf head s st sd bid
    = Some (with_pool s p', Yield (bid * 24) (PHold st (sim_date s) res)).
Proof.
  intros Hrty Halloc Hbid. unfold stage_from_alloc. rewrite Hrty, Halloc.
  unfold timeout. by rewrite (proj2 (Z.ltb_ge _ _)) by lia.
Qed.

(** The dates of the clock before and after a hold of [bid * 24] units. *)
Lemma hold_span (s s2 : AnimSimulator) (bid : Z) :
  current_date s2 = current_date s →
  now (env s2) = now (env s) + bid * 24 →
  sim_date s2 - sim_date s = timedelta_days (24 * bid).
Proof.
  intros Hdate Hnow. unfold sim_date, timedelta_days. rewrite Hdate, Hnow. lia.
Qed.

(** What one stage without a resource does: the resolver answers [True], and
    the loop goes on with the next stage, at the same time and with the same
    event list. *)
Lemma stage_from_alloc_skip (asset : string) (wf : WorkflowDefinition)
    (head : AnimSimulator → option string → option (AnimSimulator * suspend))
    (s : AnimSimulator) (st rty : string) (sd : StageDef) (bid : Z)
    (next : option string) :
  sd_resource_type sd = Some rty →
  allocate_resource (resource_pool s) rty (sim_date s) bid = Ok None (resource_pool s) →
  get_next_stage wf st = inr next →
  stage_from_alloc asset wf head s st sd bid = head s next.
Proof.
  intros Hrty Halloc Hnext. unfold stage_from_alloc. rewrite Hrty, Halloc.
  simpl. rewrite Hnext. by destruct s.
Qed.

(** C1 (what the code does): with the wall clock at Monday 2026-03-02 and a
    first stage of 2 bid hours, the run records stage A from 2026-03-09 to
    2026-04-26: the process held the clock for [2 * 24 = 48] units, and the
    clock is read in days, so the stage lasts 48 simulated days (1152
    hours), not the 2 days of its bid hour count. *)
Theorem stage_hold_is_24_days_per_bid_hour :
  ∃ ev, simulate 20 (params_AB 2 3) monday_2026_03_02 None "p" ["x"%string] 365
          = Some (Completed, [ev])
    ∧ stage ev = "A"%string
    ∧ start_time ev = monday_2026_03_02 + timedelta_days 7
    ∧ end_time ev - start_time ev = timedelta_days (24 * 2)
    ∧ end_time ev - start_time ev ≠ timedelta_days 2
    ∧ (duration ev == 1152)%Q.
Proof.
  eexists. split; [vm_compute; reflexivity|].
  split_and!; try (vm_compute; reflexivity). by vm_compute.
Qed.

(** *** The run does not depend on the layout of the heap *)

(** A resumed generator changes the pool and the event list only. *)
Lemma stage_loop_frame (asset : string) (wf : WorkflowDefinition) (cx : string)
    (fuel : nat) :
  ∀ s next s' out, stage_loop asset wf cx fuel s next = Some (s', out) →
  env s' = env s ∧ procs s' = procs s ∧ current_date s' = current_date s
  ∧ params s' = params s ∧ events s' = events s.
Proof.
  induction fuel as [|fuel IH]; intros s next s' out; [done|].
  cbn [stage_loop].
  destruct next as [st|]; [|by intros [= <- <-]].
  destruct (bool_decide (st = ""%string)); [by intros [= <- <-]|].
  destruct (stages wf !! st) as [sd|]; [|by intros [= <- <-]].
  destruct (stage_bid sd cx) as [e|bid]; [by intros [= <- <-]|].
  destruct (stage_order wf !! O) as [first|]; [|by intros [= <- <-]].
  destruct (bool_decide (st = first)).
  - destruct (creative_calendar (params s) !! asset) as [input_date|];
      [|by intros [= <- <-]].
    unfold timeout. by destruct (_ <? 0); intros [= <- <-].
  - unfold stage_from_alloc.
    destruct (sd_resource_type sd) as [rty|]; [|by intros [= <- <-]].
    destruct (allocate_resource _ _ _ _) as [[res|] p'|e p'].
    + unfold timeout. by destruct (_ <? 0); intros [= <- <-].
    + cbn [resolve_conflict _get_pending_tasks negb].
      destruct (get_next_stage wf st) as [e|next]; [by intros [= <- <-]|].
      intros Hrun. by apply IH in Hrun.
    + by intros [= <- <-].
Qed.

Lemma resume_frame (asset : string) (wf : WorkflowDefinition) (cx : string)
    (fuel : nat) (s s' : AnimSimulator) (k : pc) (out : suspend) :
  resume asset wf cx fuel s k = Some (s', out) →
  env s' = env s ∧ procs s' = procs s ∧ current_date s' = current_date s
  ∧ params s' = params s.
Proof.
  destruct k as [|st sd bid|st start res|st| |]; cbn [resume].
  - destruct (stage_order wf !! O) as [first|]; [|by intros [= <- <-]].
    intros Hrun. apply stage_loop_frame in Hrun. tauto.
  - unfold stage_from_alloc.
    destruct (sd_resource_type sd) as [rty|]; [|by intros [= <- <-]].
    destruct (allocate_resource _ _ _ _) as [[res|] p'|e p'].
    + unfold timeout. by destruct (_ <? 0); intros [= <- <-].
    + cbn [resolve_conflict _get_pending_tasks negb].
      destruct (get_next_stage wf st) as [e|next]; [by intros [= <- <-]|].
      intros Hrun. apply stage_loop_frame in Hrun. tauto.
    + by intros [= <- <-].
  - destruct (get_next_stage wf st) as [e|next]; [by intros [= <- <-]|].
    intros Hrun. apply stage_loop_frame in Hrun. tauto.
  - intros Hrun. apply stage_loop_frame in Hrun. tauto.
  - by intros [= <- <-].
  - by intros [= <- <-].
Qed.

Lemma entry_ltb_spec (a b : entry) :
  entry_ltb a b = true
  ↔ e_time a < e_time b
    ∨ (e_time a = e_time b
       ∧ (e_priority a < e_priority b
          ∨ (e_priority a = e_priority b ∧ (e_id a < e_id b)%nat))).
Proof.
  unfold entry_ltb.
  rewrite !orb_true_iff, !andb_true_iff, !orb_true_iff, !andb_true_iff.
  rewrite !Z.ltb_lt, !Z.eqb_eq, Nat.ltb_lt. tauto.
Qed.

Lemma entry_ltb_false (a b : entry) :
  entry_ltb a b = false
  ↔ e_time b < e_time a
    ∨ (e_time a = e_time b
       ∧ (e_priority b < e_priority a
          ∨ (e_priority a = e_priority b ∧ (e_id b <= e_id a)%nat))).
Proof.
  rewrite <- not_true_iff_false, entry_ltb_spec. lia.
Qed.

(** [pop_min] is one way to pop the heap. *)
Lemma pop_min_least (q : list entry) :
  ∀ e rest, pop_min q = Some (e, rest) → least e rest.
Proof.
  induction q as [|a q IH]; intros e rest; simpl; [done|].
  destruct (pop_min q) as [[m rest']|] eqn:Hq.
  - specialize (IH m rest' eq_refl).
    destruct (entry_ltb m a) eqn:Hma.
    + intros [= <- <-] e' [->|He']%elem_of_cons; [|by apply IH].
      apply entry_ltb_false. apply entry_ltb_spec in Hma. lia.
    + intros [= <- <-] e' He'.
      apply pop_min_perm in Hq. rewrite Hq in He'.
      apply elem_of_cons in He' as [->|He']; [done|].
      apply IH in He'. apply entry_ltb_false in He', Hma.
      apply entry_ltb_false. lia.
  - intros [= <- <-] e' He'. by apply not_elem_of_nil in He'.
Qed.

Lemma pop_min_heappop (q : list entry) (e : entry) (rest : list entry) :
  pop_min q = Some (e, rest) → heappop q e rest.
Proof. intros Hpop. split; [by apply pop_min_perm|by apply (pop_min_least q)]. Qed.

Lemma pop_min_None (q : list entry) : pop_min q = None → q = [].
Proof.
  destruct q as [|a q]; [done|]. simpl.
  destruct (pop_min q) as [[??]|]; [destruct (entry_ltb _ _)|]; done.
Qed.

(** With distinct serial numbers, only one entry can be popped. *)
Lemma heappop_unique (q q' : list entry) (e e' : entry) (rest rest' : list entry) :
  NoDup (e_id <$> q) → q ≡ₚ q' →
  heappop q e rest → heappop q' e' rest' →
  e = e' ∧ rest ≡ₚ rest'.
Proof.
  intros Hnd Hqq [Hq Hleast] [Hq' Hleast'].
  assert (Heq : e = e').
  { assert (He' : e' ∈ e :: rest) by (rewrite <- Hq, Hqq, Hq'; by left).
    assert (He : e ∈ e' :: rest') by (rewrite <- Hq', <- Hqq, Hq; by left).
    apply elem_of_cons in He' as [->|He']; [done|].
    apply elem_of_cons in He as [->|He]; [done|].
    pose proof (Hleast _ He') as Hlt'. pose proof (Hleast' _ He) as Hlt.
    apply entry_ltb_false in Hlt, Hlt'.
    assert (Hid : e_id e = e_id e') by lia.
    rewrite Hq in Hnd. rewrite fmap_cons in Hnd.
    apply NoDup_cons in Hnd as [Hnotin _].
    exfalso. apply Hnotin. rewrite Hid. apply list_elem_of_fmap.
    exists e'. by split. }
  subst e'. split; [done|].
  apply (Permutation_cons_inv (a := e)). by rewrite <- Hq, Hqq, Hq'.
Qed.

(** A resumed generator reads the clock of the environment, not its queue. *)
Lemma stage_loop_layout (asset : string) (wf : WorkflowDefinition) (cx : string)
    (fuel : nat) (env' : Environment) :
  ∀ s next t y, now env' = now (env s) →
  stage_loop asset wf cx fuel s next = Some (t, y) →
  stage_loop asset wf cx fuel (with_env s env') next = Some (with_env t env', y).
Proof.
  induction fuel as [|fuel IH]; intros s next t y Hnow; [done|].
  cbn [stage_loop].
  destruct next as [st|]; [|by intros [= <- <-]].
  destruct (bool_decide (st = ""%string)); [by intros [= <- <-]|].
  destruct (stages wf !! st) as [sd|]; [|by intros [= <- <-]].
  destruct (stage_bid sd cx) as [e|bid]; [by intros [= <- <-]|].
  destruct (stage_order wf !! O) as [first|]; [|by intros [= <- <-]].
  destruct (bool_decide (st = first)).
  - change (params (with_env s env')) with (params s).
    change (current_date (with_env s env')) with (current_date s).
    destruct (creative_calendar (params s) !! asset) as [input_date|];
      by intros [= <- <-].
  - unfold stage_from_alloc.
    destruct (sd_resource_type sd) as [rty|]; [|by intros [= <- <-]].
    change (resource_pool (with_env s env')) with (resource_pool s).
    assert (Hdate : ∀ p, sim_date (with_pool (with_env s env') p) = sim_date (with_pool s p))
      by (intros p; unfold sim_date; simpl; by rewrite Hnow).
    assert (Hdate' : sim_date (with_env s env') = sim_date s)
      by (unfold sim_date; simpl; by rewrite Hnow).
    rewrite Hdate'.
    destruct (allocate_resource _ _ _ _) as [[res|] p'|e p'].
    + rewrite Hdate. by intros [= <- <-].
    + cbn [resolve_conflict _get_pending_tasks negb].
      destruct (get_next_stage wf st) as [e|next]; [by intros [= <- <-]|].
      intros Hrun. by apply (IH (with_pool s p')).
    + by intros [= <- <-].
Qed.

Lemma resume_layout (asset : string) (wf : WorkflowDefinition) (cx : string)
    (fuel : nat) (env' : Environment) (s t : AnimSimulator) (k : pc) (y : suspend) :
  now env' = now (env s) →
  resume asset wf cx fuel s k = Some (t, y) →
  resume asset wf cx fuel (with_env s env') k = Some (with_env t env', y).
Proof.
  intros Hnow.
  assert (Hdate : ∀ p, sim_date (with_pool (with_env s env') p) = sim_date (with_pool s p))
    by (intros p; unfold sim_date; simpl; by rewrite Hnow).
  assert (Hdate' : sim_date (with_env s env') = sim_date s)
    by (unfold sim_date; simpl; by rewrite Hnow).
  destruct k as [|st sd bid|st start res|st| |]; cbn [resume].
  - destruct (stage_order wf !! O) as [first|]; [|by intros [= <- <-]].
    by apply stage_loop_layout.
  - unfold stage_from_alloc.
    destruct (sd_resource_type sd) as [rty|]; [|by intros [= <- <-]].
    change (resource_pool (with_env s env')) with (resource_pool s).
    rewrite Hdate'.
    destruct (allocate_resource _ _ _ _) as [[res|] p'|e p'].
    + rewrite Hdate. by intros [= <- <-].
    + cbn [resolve_conflict _get_pending_tasks negb].
      destruct (get_next_stage wf st) as [e|next]; [by intros [= <- <-]|].
      intros Hrun. by apply (stage_loop_layout _ _ _ _ _ (with_pool s p')).
    + by intros [= <- <-].
  - rewrite Hdate'.
    change (resource_pool (with_env s env')) with (resource_pool s).
    change (events (with_env s env')) with (events s).
    destruct (get_next_stage wf st) as [e|next]; [by intros [= <- <-]|].
    intros Hrun.
    by apply (stage_loop_layout _ _ _ _ _ (with_events s _)).
  - by apply stage_loop_layout.
  - by intros [= <- <-].
  - by intros [= <- <-].
Qed.

Lemma same_heap_with_env (s s' : AnimSimulator) :
  same_heap s s' → s' = with_env s (env s').
Proof.
  destruct s, s'. unfold same_heap. simpl.
  by intros (-> & _ & _ & _ & -> & -> & -> & ->).
Qed.

Lemma same_heap_refl (s : AnimSimulator) : same_heap s s.
Proof. by repeat split. Qed.

Lemma resume_process_layout (fuel : nat) (s s' s2 : AnimSimulator) (pid : nat) :
  same_heap s s' →
  resume_process fuel s pid = Some s2 →
  ∃ s2', resume_process fuel s' pid = Some s2' ∧ same_heap s2 s2'.
Proof.
  intros Hsame.
  pose proof Hsame as (Hprm & Hnow & Heid & Hq & Hpool & Hevs & Hdate & Hprocs).
  rewrite (same_heap_with_env s s' Hsame).
  unfold resume_process.
  change (procs (with_env s (env s'))) with (procs s).
  destruct (procs s !! pid) as [P|].
  2: { intros [= <-]. eexists. split; [done|].
       rewrite <- (same_heap_with_env s s' Hsame). done. }
  destruct (resume _ _ _ fuel s (p_pc P)) as [[t y]|] eqn:Hres; [|done].
  pose proof (resume_frame _ _ _ _ _ _ _ _ Hres) as (Henv & _).
  rewrite (resume_layout _ _ _ fuel (env s') s t (p_pc P) y (eq_sym Hnow) Hres).
  destruct y as [delay k| |e]; intros [= <-]; (eexists; split; [done|]);
    unfold same_heap, schedule; simpl; rewrite Henv, Hnow, Heid, Hq; done.
Qed.

(** The serial numbers stay distinct along a run. *)
Lemma serial_ids_schedule (env : Environment) (ev : sim_event) (priority delay : Z) :
  serial_ids env → serial_ids (schedule env ev priority delay).
Proof.
  intros [Hnd Hlt]. split; simpl.
  - rewrite fmap_app. apply NoDup_app. split_and!; [done| |apply NoDup_singleton].
    intros i (e & -> & He)%list_elem_of_fmap Hi%list_elem_of_singleton.
    apply Hlt in He. simpl in Hi. lia.
  - intros e [He| ->%list_elem_of_singleton]%elem_of_app; [|simpl; lia].
    apply Hlt in He. lia.
Qed.

Lemma serial_ids_step_to (s : AnimSimulator) (e : entry) (rest : list entry) :
  serial_ids (env s) → heappop (queue (env s)) e rest →
  serial_ids (env (step_to s e rest)).
Proof.
  intros [Hnd Hlt] [Hq _]. split; simpl.
  - rewrite Hq, fmap_cons in Hnd. by apply NoDup_cons in Hnd as [_ Hnd].
  - intros e' He'. apply Hlt. rewrite Hq. by right.
Qed.

Lemma serial_ids_resume_process (fuel : nat) (s s2 : AnimSimulator) (pid : nat) :
  serial_ids (env s) → resume_process fuel s pid = Some s2 → serial_ids (env s2).
Proof.
  intros Hids. unfold resume_process.
  destruct (procs s !! pid) as [P|]; [|by intros [= <-]].
  destruct (resume _ _ _ fuel s (p_pc P)) as [[t y]|] eqn:Hres; [|done].
  apply resume_frame in Hres as (Henv & _).
  destruct y as [delay k| |e]; intros [= <-]; simpl; rewrite Henv;
    by apply serial_ids_schedule.
Qed.

Lemma same_heap_step_to (s s' : AnimSimulator) (e : entry) (rest rest' : list entry) :
  same_heap s s' → rest ≡ₚ rest' → same_heap (step_to s e rest) (step_to s' e rest').
Proof.
  intros (Hprm & Hnow & Heid & Hq & Hpool & Hevs & Hdate & Hprocs) Hrest.
  by repeat split.
Qed.

Lemma heappop_nil (e : entry) (rest : list entry) : ¬ heappop [] e rest.
Proof. intros [Hq _]. by apply Permutation_nil_cons in Hq. Qed.

(** Two runs from states that differ in the layout of the queue only end in
    the same way with the same events. *)
Lemma runs_deterministic (s : AnimSimulator) (r : run_status * list ProductionEvent) :
  runs s r →
  ∀ s' r', same_heap s s' → serial_ids (env s) → runs s' r' → r = r'.
Proof.
  induction 1 as [s Hempty|s e rest Hpop Hev|s e rest pid err Hpop Hev
                  |s e rest pid r Hpop Hev Hrun IH
                  |s e rest pid fuel s2 r Hpop Hev Hres Hrun IH];
    intros s' r' Hsame Hids Hrun';
    pose proof Hsame as (_ & _ & _ & Hq & _ & Hevs & _ & _).
  - inversion Hrun' as [t Hempty'|t e' rest' Hpop'|t e' rest' pid' err' Hpop'
                        |t e' rest' pid' r0 Hpop'|t e' rest' pid' fuel' t2 r0 Hpop'];
      subst; try (by rewrite Hevs);
      rewrite Hempty in Hq; apply Permutation_nil in Hq; rewrite Hq in Hpop';
      by apply heappop_nil in Hpop'.
  - inversion Hrun' as [t Hempty'|t e' rest' Hpop' Hev'|t e' rest' pid' err' Hpop' Hev'
                        |t e' rest' pid' r0 Hpop' Hev'
                        |t e' rest' pid' fuel' t2 r0 Hpop' Hev']; subst.
    + rewrite Hempty' in Hq. apply Permutation_nil_r in Hq. rewrite Hq in Hpop.
      by apply heappop_nil in Hpop.
    + by rewrite Hevs.
    + destruct (heappop_unique _ _ _ _ _ _ (proj1 Hids) Hq Hpop Hpop') as [<- _].
      congruence.
    + destruct (heappop_unique _ _ _ _ _ _ (proj1 Hids) Hq Hpop Hpop') as [<- _].
      congruence.
    + destruct (heappop_unique _ _ _ _ _ _ (proj1 Hids) Hq Hpop Hpop') as [<- _].
      rewrite Hev in Hev'. done.
  - inversion Hrun' as [t Hempty'|t e' rest' Hpop' Hev'|t e' rest' pid' err' Hpop' Hev'
                        |t e' rest' pid' r0 Hpop' Hev'
                        |t e' rest' pid' fuel' t2 r0 Hpop' Hev']; subst.
    + rewrite Hempty' in Hq. apply Permutation_nil_r in Hq. rewrite Hq in Hpop.
      by apply heappop_nil in Hpop.
    + destruct (heappop_unique _ _ _ _ _ _ (proj1 Hids) Hq Hpop Hpop') as [<- _].
      congruence.
    + destruct (heappop_unique _ _ _ _ _ _ (proj1 Hids) Hq Hpop Hpop') as [<- _].
      rewrite Hevs. congruence.
    + destruct (heappop_unique _ _ _ _ _ _ (proj1 Hids) Hq Hpop Hpop') as [<- _].
      congruence.
    + destruct (heappop_unique _ _ _ _ _ _ (proj1 Hids) Hq Hpop Hpop') as [<- _].
      rewrite Hev in Hev'. done.
  - inversion Hrun' as [t Hempty'|t e' rest' Hpop' Hev'|t e' rest' pid' err' Hpop' Hev'
                        |t e' rest' pid' r0 Hpop' Hev' Hrun0
                        |t e' rest' pid' fuel' t2 r0 Hpop' Hev']; subst.
    + rewrite Hempty' in Hq. apply Permutation_nil_r in Hq. rewrite Hq in Hpop.
      by apply heappop_nil in Hpop.
    + destruct (heappop_unique _ _ _ _ _ _ (proj1 Hids) Hq Hpop Hpop') as [<- _].
      congruence.
    + destruct (heappop_unique _ _ _ _ _ _ (proj1 Hids) Hq Hpop Hpop') as [<- _].
      congruence.
    + destruct (heappop_unique _ _ _ _ _ _ (proj1 Hids) Hq Hpop Hpop') as [<- Hrest].
      apply (IH (step_to s' e rest')); [by apply same_heap_step_to| |done].
      by apply serial_ids_step_to.
    + destruct (heappop_unique _ _ _ _ _ _ (proj1 Hids) Hq Hpop Hpop') as [<- _].
      rewrite Hev in Hev'. done.
  - inversion Hrun' as [t Hempty'|t e' rest' Hpop' Hev'|t e' rest' pid' err' Hpop' Hev'
                        |t e' rest' pid' r0 Hpop' Hev' Hrun0
                        |t e' rest' pid' fuel' t2 r0 Hpop' Hev' Hres' Hrun0]; subst.
    + rewrite Hempty' in Hq. apply Permutation_nil_r in Hq. rewrite Hq in Hpop.
      by apply heappop_nil in Hpop.
    + destruct (heappop_unique _ _ _ _ _ _ (proj1 Hids) Hq Hpop Hpop') as [<- _].
      rewrite Hev' in Hev. done.
    + destruct (heappop_unique _ _ _ _ _ _ (proj1 Hids) Hq Hpop Hpop') as [<- _].
      rewrite Hev' in Hev. done.
    + destruct (heappop_unique _ _ _ _ _ _ (proj1 Hids) Hq Hpop Hpop') as [<- _].
      rewrite Hev' in Hev. done.
    + destruct (heappop_unique _ _ _ _ _ _ (proj1 Hids) Hq Hpop Hpop') as [<- Hrest].
      assert (pid' = pid) as -> by congruence.
      apply (resume_process_mono fuel (fuel `max` fuel')) in Hres; [|lia].
      apply (resume_process_mono fuel' (fuel `max` fuel')) in Hres'; [|lia].
      destruct (resume_process_layout _ _ (step_to s' e rest') _ _
                  (same_heap_step_to s s' e rest rest' Hsame Hrest) Hres)
        as (t2' & Hres2 & Hsame2).
      rewrite Hres' in Hres2. injection Hres2 as <-.
      apply (IH t2); [done| |done].
      apply (serial_ids_resume_process _ _ _ _ (serial_ids_step_to s e rest Hids Hpop) Hres).
Qed.

(** [run_loop] is one of the runs. *)
Lemma run_loop_runs (fuel : nat) :
  ∀ s st s', run_loop fuel s = Some (st, s') → runs s (st, events s').
Proof.
  induction fuel as [|fuel IH]; intros s st s'; [done|].
  cbn [run_loop].
  destruct (pop_min (queue (env s))) as [[e rest]|] eqn:Hpop.
  2: { intros [= <- <-]. apply runs_empty. by apply pop_min_None. }
  apply pop_min_heappop in Hpop.
  destruct (e_event e) as [pid|pid|pid [err|]|] eqn:Hev.
  - destruct (resume_process (S fuel) _ pid) as [s2|] eqn:Hres; [|done].
    intros Hrun. apply (runs_resumed s e rest pid (S fuel) s2); try done.
    + by rewrite Hev.
    + by apply IH.
  - destruct (resume_process (S fuel) _ pid) as [s2|] eqn:Hres; [|done].
    intros Hrun. apply (runs_resumed s e rest pid (S fuel) s2); try done.
    + by rewrite Hev.
    + by apply IH.
  - intros [= <- <-]. by apply (runs_failed s e rest pid err).
  - intros Hrun. apply (runs_ended s e rest pid); try done. by apply IH.
  - intros [= <- <-]. by apply (runs_until s e rest).
Qed.

Lemma schedule_production_serial_ids (project_id : string) (assets : list string) :
  ∀ s, serial_ids (env s) →
  serial_ids (env (state_of (schedule_production s project_id assets))).
Proof.
  induction assets as [|asset assets IH]; intros s Hids; simpl; [done|].
  destruct (workflow_definitions (params s) !! "asset_workflow"%string) as [wf|]; [|done].
  destruct (complexity_matrix (params s) !! asset) as [level|]; [|done].
  apply IH. simpl. by apply serial_ids_schedule.
Qed.

Lemma serial_ids_init : serial_ids Environment_init.
Proof. split; simpl; [apply NoDup_nil_2|]. intros e He. by apply not_elem_of_nil in He. Qed.

(** A session has one outcome, whatever the layout of the heap. *)
Lemma simulates_unique (prm : ProductionParameters) (wall_clock : Z)
    (pool : option ResourcePool) (project_id : string) (assets : list string)
    (until : Z) (r1 r2 : run_status * list ProductionEvent) :
  simulates prm wall_clock pool project_id assets until r1 →
  simulates prm wall_clock pool project_id assets until r2 →
  r1 = r2.
Proof.
  unfold simulates.
  destruct (AnimSimulator_init prm wall_clock) as [e|s0] eqn:Hinit; [congruence|].
  assert (Henv0 : env s0 = Environment_init).
  { unfold AnimSimulator_init in Hinit.
    destruct (resource_calendars prm !! "studio"%string); [|done].
    by injection Hinit as <-. }
  set (s1 := match pool with Some p => with_pool s0 p | None => s0 end).
  assert (Hids1 : serial_ids (env s1)).
  { replace (env s1) with (env s0) by (by destruct pool).
    rewrite Henv0. apply serial_ids_init. }
  pose proof (schedule_production_serial_ids project_id assets s1 Hids1) as Hids2.
  destruct (schedule_production s1 project_id assets) as [[] s2|e s2]; [|congruence].
  simpl in Hids2.
  destruct (until <=? now (env s2)); [congruence|].
  intros Hrun1 Hrun2.
  apply (runs_deterministic _ _ Hrun1 _ _ (same_heap_refl _)); [|done].
  by apply serial_ids_schedule.
Qed.

(** What [simulate] computes is an outcome of the session. *)
Lemma simulate_simulates (fuel : nat) (prm : ProductionParameters) (wall_clock : Z)
    (pool : option ResourcePool) (project_id : string) (assets : list string)
    (until : Z) (r : run_status * list ProductionEvent) :
  simulate fuel prm wall_clock pool project_id assets until = Some r →
  simulates prm wall_clock pool project_id assets until r.
Proof.
  unfold simulate, simulates.
  destruct (AnimSimulator_init prm wall_clock) as [e|s0]; [by intros [= <-]|].
  destruct (schedule_production _ project_id assets) as [[] s2|e s2];
    [|by intros [= <-]].
  unfold run. destruct (until <=? now (env s2)); [by intros [= <-]|].
  destruct (run_loop fuel _) as [[st s3]|] eqn:Hrun; [|done].
  intros [= <-]. by apply (run_loop_runs fuel).
Qed.

(** C2 (as the code has it): the outcome of a session is fixed by its inputs
    and by the reading of the wall clock at the construction of the
    simulator.  Two sessions that agree on the parameters, the pool, the
    scheduled items, the horizon and that reading end in the same way with
    the same event list, field by field, whatever the layout of the event
    heap in each and however many iterations each resumption takes: the
    serial numbers of the queued events are distinct, so that the
    [(time, priority, serial number)] order leaves one entry to pop at each
    step.  That outcome is the one [simulate] computes. *)
Theorem simulate_deterministic (prm : ProductionParameters) (wall_clock : Z)
    (pool : option ResourcePool) (project_id : string) (assets : list string)
    (until : Z) (r1 r2 : run_status * list ProductionEvent) :
  simulates prm wall_clock pool project_id assets until r1 →
  simulates prm wall_clock pool project_id assets until r2 →
  r1 = r2
  ∧ ∀ fuel r, simulate fuel prm wall_clock pool project_id assets until = Some r →
      r = r1.
Proof.
  intros Hrun1 Hrun2. split.
  - by apply (simulates_unique prm wall_clock pool project_id assets until).
  - intros fuel r Hr. apply simulate_simulates in Hr.
    by apply (simulates_unique prm wall_clock pool project_id assets until).
Qed.

(** The asset of the examples scheduled twice: the two processes are
    resumed at the same times with the same priority throughout, and the
    session has one outcome, with two events. *)
Lemma simulate_deterministic_witness :
  ∃ r, simulates (params_AB 2 3) monday_2026_03_02 None "p" ["x"; "x"]%string 365 r
    ∧ length r.2 = 2%nat
    ∧ ∀ r', simulates (params_AB 2 3) monday_2026_03_02 None "p" ["x"; "x"]%string 365 r'
        → r' = r.
Proof.
  assert (Hrun : ∃ r, simulate 30 (params_AB 2 3) monday_2026_03_02 None "p"
                        ["x"; "x"]%string 365 = Some r ∧ length r.2 = 2%nat)
    by (eexists; split; vm_compute; reflexivity).
  destruct Hrun as (r & Hrun & Hlen).
  apply simulate_simulates in Hrun.
  exists r. split_and!; [done..|].
  intros r' Hrun'.
  by destruct (simulate_deterministic (params_AB 2 3) monday_2026_03_02 None "p"
                 ["x"; "x"]%string 365 r' r Hrun' Hrun) as [-> _].
Defined.

(** C2, the claim as stated fails: the same parameters, the same pool, the
    same item and the same horizon, with the simulator constructed at
    2026-03-02T00:00:00 and at 2026-03-02T00:00:03, give one event in the
    first run and two events, with other timestamps, in the second. *)
Lemma simulate_depends_on_wall_clock :
  ∃ a a' b',
    simulate 20 (params_AB 2 3) monday_2026_03_02 None "p" ["x"%string] 365
      = Some (Completed, [a])
    ∧ simulate 20 (params_AB 2 3) (monday_2026_03_02 + 3) None "p" ["x"%string] 365
      = Some (Completed, [a'; b'])
    ∧ start_time a = monday_2026_03_02 + timedelta_days 7
    ∧ start_time a' = monday_2026_03_02 + 3 + timedelta_days 4.
Proof. do 3 eexists. split; [|split]; [vm_compute; reflexivity..|]. split; vm_compute; reflexivity. Qed.

(** C3 (what the code does): stage A asks for 9 hours, which no resource can
    give; the resolver reports a resolution, and the process goes on to stage
    B at the same simulated time without a second attempt at A.  The run
    ends with one event, for stage B, that starts at the time at which A was
    attempted; stage A has no event. *)
Theorem unallocated_stage_is_skipped :
  ∃ ev, simulate 20 (params_AB 9 2) monday_2026_03_02 None "p" ["x"%string] 365
          = Some (Completed, [ev])
    ∧ item_id ev = "x"%string
    ∧ stage ev = "B"%string
    ∧ start_time ev = monday_2026_03_02 + timedelta_days 7
    ∧ resolve_conflict "x" "A" = true.
Proof. eexists. split; [vm_compute; reflexivity|]. split_and!; vm_compute; reflexivity. Qed.

(** * Further properties of the code *)

(** ** WorkflowDefinition and ProductionParameters *)

(** X1: in a workflow whose stage names are distinct, [get_next_stage] of the
    stage at position [i] is the stage at position [i + 1], and [None] for
    the last stage; for a name that is not a stage it raises. *)
Theorem get_next_stage_walk (wf : WorkflowDefinition) :
  NoDup (stage_order wf) →
  (∀ i st, stage_order wf !! i = Some st →
     get_next_stage wf st = inr (stage_order wf !! S i))
  ∧ (∀ st, st ∉ stage_order wf → ∃ e, get_next_stage wf st = inl e).
Proof.
  intros Hnd. split.
  - intros i st Hi. unfold get_next_stage.
    rewrite (index_of_NoDup st _ i Hnd Hi).
    pose proof (lookup_lt_Some _ _ _ Hi) as Hlt.
    destruct (Z.of_nat i <? Z.of_nat (length (stage_order wf)) - 1) eqn:Hlast; [done|].
    apply Z.ltb_ge in Hlast. f_equal. symmetry. apply lookup_ge_None. lia.
  - intros st Hnot. unfold get_next_stage.
    destruct (index_of st (stage_order wf)) as [idx|] eqn:Hidx; [|by eexists].
    exfalso. apply Hnot. apply index_of_Some in Hidx. by eapply list_elem_of_lookup_2.
Qed.

Lemma get_next_stage_walk_witness :
  get_next_stage (workflow_AB 2 3) "A" = inr (Some "B"%string)
  ∧ get_next_stage (workflow_AB 2 3) "B" = inr None
  ∧ ∃ e, get_next_stage (workflow_AB 2 3) "C" = inl e.
Proof.
  assert (Hnd : NoDup (stage_order (workflow_AB 2 3))).
  { simpl. apply NoDup_cons. split; [|apply NoDup_singleton].
    by intros ?%list_elem_of_singleton. }
  destruct (get_next_stage_walk (workflow_AB 2 3) Hnd) as [Hnext Hout].
  split_and!.
  - apply (Hnext 0%nat). reflexivity.
  - apply (Hnext 1%nat). reflexivity.
  - apply Hout. simpl. intros Hin.
    apply elem_of_cons in Hin as [?|Hin]; [done|].
    apply elem_of_cons in Hin as [?|Hin]; [done|].
    by apply not_elem_of_nil in Hin.
Defined.

Lemma list_to_map_lookup_NoDup (items : list (string * StageDef)) (st : string)
    (sd : StageDef) :
  NoDup items.*1 → (st, sd) ∈ items →
  (list_to_map items : gmap string StageDef) !! st = Some sd.
Proof. intros Hnd Hin. by apply elem_of_list_to_map_1. Qed.

(** X2: after [create_workflow(ty, stages)], [get_stage_bid(ty, st, cx)]
    gives, for a stage [st] of [stages] that has a default, the entry of the
    stage for [cx] when there is one and the default otherwise; it gives 0
    for a name that is not a stage; and the bids of the other workflow types
    are what they were. *)
Theorem get_stage_bid_create_workflow (prm : ProductionParameters) (ty : string)
    (items : list (string * StageDef)) :
  NoDup items.*1 →
  (∀ st sd d cx, (st, sd) ∈ items → sd_default sd = Some d →
     get_stage_bid (create_workflow prm ty items) ty st cx
       = inr (default d (sd_levels sd !! cx)))
  ∧ (∀ st cx, st ∉ items.*1 →
       get_stage_bid (create_workflow prm ty items) ty st cx = inr 0)
  ∧ (∀ ty' st cx, ty' ≠ ty →
       get_stage_bid (create_workflow prm ty items) ty' st cx
         = get_stage_bid prm ty' st cx)
  ∧ stage_order (WorkflowDefinition_init items) = items.*1.
Proof.
  intros Hnd. split_and!.
  - intros st sd d cx Hin Hd. unfold get_stage_bid, create_workflow. simpl.
    rewrite lookup_insert_eq. simpl.
    rewrite (list_to_map_lookup_NoDup items st sd Hnd Hin).
    unfold stage_bid. by rewrite Hd.
  - intros st cx Hnot. unfold get_stage_bid, create_workflow. simpl.
    rewrite lookup_insert_eq. simpl.
    by rewrite (proj1 (not_elem_of_list_to_map _ _) Hnot).
  - intros ty' st cx Hne. unfold get_stage_bid, create_workflow. simpl.
    by rewrite lookup_insert_ne.
  - done.
Qed.

Lemma get_stage_bid_create_workflow_witness :
  get_stage_bid (create_workflow (params_AB 9 9) "w" (items_AB 2 3)) "w" "B" "alta" = inr 3
  ∧ get_stage_bid (create_workflow (params_AB 9 9) "w" (items_AB 2 3)) "w" "C" "alta" = inr 0
  ∧ get_stage_bid (create_workflow (params_AB 9 9) "w" (items_AB 2 3))
      "asset_workflow" "A" "alta" = inr 9.
Proof.
  assert (Hnd : NoDup (items_AB 2 3).*1).
  { simpl. apply NoDup_cons. split; [|apply NoDup_singleton].
    by intros ?%list_elem_of_singleton. }
  destruct (get_stage_bid_create_workflow (params_AB 9 9) "w" (items_AB 2 3) Hnd)
    as (Hin & Hout & Hother & _).
  split_and!.
  - apply (Hin "B"%string (stage_quota 3) 3 "alta"%string); [|done].
    apply elem_of_cons. right. apply elem_of_cons. by left.
  - apply Hout. simpl. intros Hc.
    apply elem_of_cons in Hc as [?|Hc]; [done|].
    apply elem_of_cons in Hc as [?|Hc]; [done|].
    by apply not_elem_of_nil in Hc.
  - rewrite Hother by done. by vm_compute.
Defined.

(** ** Resource and ResourcePool *)

(** X3: after [add_vacation(start, end)] the resource is unavailable on every
    date from [start] to [end], whatever the hours asked; on the other dates
    its availability is what it was, and its bookings are unchanged. *)
Theorem add_vacation_blocks (r : Resource) (start_date end_date : Z) :
  (∀ d h, start_date <= d <= end_date →
     is_available (add_vacation r start_date end_date) d h = false)
  ∧ (∀ d h, ¬ (start_date <= d <= end_date) →
       is_available (add_vacation r start_date end_date) d h = is_available r d h)
  ∧ assigned_hours (add_vacation r start_date end_date) = assigned_hours r.
Proof.
  split_and!; [| |done].
  - intros d h Hin. unfold is_available, add_vacation. simpl.
    destruct (is_workday (calendar r) d); simpl; [|done].
    rewrite existsb_app. simpl. unfold in_interval at 2. simpl.
    rewrite (proj2 (Z.leb_le start_date d)) by lia.
    rewrite (proj2 (Z.leb_le d end_date)) by lia.
    by rewrite orb_true_r.
  - intros d h Hout. unfold is_available, add_vacation, load. simpl.
    destruct (is_workday (calendar r) d); simpl; [|done].
    rewrite existsb_app. simpl. unfold in_interval at 2. simpl.
    assert ((start_date <=? d) && (d <=? end_date) = false) as ->.
    { apply andb_false_iff. destruct (Z.leb_spec start_date d); [|by left].
      right. apply Z.leb_gt. lia. }
    by rewrite !orb_false_r.
Qed.

Lemma allocate_scan_first_fit (p : ResourcePool) (date hours : Z) (ls : list nat) :
  match allocate_scan p ls date hours with
  | Ok (Some l) _ =>
      ∃ pre post r, ls = pre ++ l :: post
        ∧ objs p !! l = Some r ∧ is_available r date hours = true
        ∧ ∀ l' r', l' ∈ pre → objs p !! l' = Some r' →
            is_available r' date hours = false
  | Ok None _ =>
      ∀ l r, l ∈ ls → objs p !! l = Some r → is_available r date hours = false
  | Raise _ _ => False
  end.
Proof.
  induction ls as [|l ls IH]; simpl.
  - by intros l r ?%not_elem_of_nil.
  - assert (Hskip : (∀ r, objs p !! l = Some r → is_available r date hours = false) →
      match allocate_scan p ls date hours with
      | Ok (Some l0) _ =>
          ∃ pre post r, l :: ls = pre ++ l0 :: post
            ∧ objs p !! l0 = Some r ∧ is_available r date hours = true
            ∧ ∀ l' r', l' ∈ pre → objs p !! l' = Some r' →
                is_available r' date hours = false
      | Ok None _ =>
          ∀ l0 r, l0 ∈ l :: ls → objs p !! l0 = Some r →
            is_available r date hours = false
      | Raise _ _ => False
      end).
    { intros Hl. destruct (allocate_scan p ls date hours) as [[l0|] p'|]; [| |done].
      - destruct IH as (pre & post & r & -> & Hl0 & Hav & Hpre).
        exists (l :: pre), post, r. split_and!; try done.
        intros l' r' [->|Hin]%elem_of_cons; [apply Hl|by apply Hpre].
      - intros l0 r [->|Hin]%elem_of_cons; [apply Hl|by apply IH]. }
    destruct (objs p !! l) as [r|] eqn:Hl; [|by apply Hskip].
    destruct (is_available r date hours) eqn:Hav.
    + rewrite assign_work_unfold, Hav. exists [], ls, r. split_and!; try done.
      by intros l' r' ?%not_elem_of_nil.
    + apply Hskip. by intros r' [= <-].
Qed.

(** X4: [allocate_resource] is first-fit.  The resource it returns is
    available and every resource registered before it in the bucket of the
    type is not; it returns [None] exactly when no resource of the bucket is
    available. *)
Theorem allocate_resource_first_fit (p : ResourcePool) (ty : string) (date hours : Z) :
  match allocate_resource p ty date hours with
  | Ok (Some l) _ =>
      ∃ pre post r, bucket p ty = pre ++ l :: post
        ∧ objs p !! l = Some r ∧ is_available r date hours = true
        ∧ ∀ l' r', l' ∈ pre → objs p !! l' = Some r' →
            is_available r' date hours = false
  | Ok None _ =>
      ∀ l r, l ∈ bucket p ty → objs p !! l = Some r →
        is_available r date hours = false
  | Raise _ _ => False
  end.
Proof. apply allocate_scan_first_fit. Qed.

Lemma within_capacity_add (p : ResourcePool) (id nm ty : string) :
  within_capacity p → within_capacity (state_of (add_resource p id nm ty)).
Proof.
  intros Hc l r d. rewrite objs_add_resource.
  intros [Hl|[_ Hl]]%lookup_app_Some; [by eapply Hc|].
  destruct (l - length (objs p))%nat; [|done].
  injection Hl as <-. by rewrite load_init.
Qed.

Lemma allocate_resource_state (p : ResourcePool) (ty : string) (date hours : Z) :
  state_of (allocate_resource p ty date hours) = p
  ∨ ∃ l r, objs p !! l = Some r ∧ is_available r date hours = true
      ∧ state_of (allocate_resource p ty date hours)
        = set_obj p l (booked r date hours).
Proof.
  unfold allocate_resource.
  pose proof (allocate_scan_spec p date hours (bucket p ty)) as Hspec.
  destruct (allocate_scan p (bucket p ty) date hours) as [[l|] p'|]; [| |done].
  - destruct Hspec as (r & _ & Hl & Hav & ->). right. by exists l, r.
  - destruct Hspec as [-> _]. by left.
Qed.

Lemma within_capacity_allocate (p : ResourcePool) (ty : string) (date hours : Z) :
  within_capacity p → within_capacity (state_of (allocate_resource p ty date hours)).
Proof.
  intros Hc.
  destruct (allocate_resource_state p ty date hours) as [->|(l & r & Hl & Hav & ->)];
    [done|].
  intros l' r' d. simpl. destruct (decide (l' = l)) as [->|Hne].
  - rewrite list_lookup_insert_eq by (by eapply lookup_lt_Some).
    intros [= <-]. unfold booked. rewrite load_set_assigned.
    case_bool_decide as Hd; [by apply is_available_load|by eapply Hc].
  - rewrite list_lookup_insert_ne by done. apply Hc.
Qed.

Lemma hours_bounded_add (p : ResourcePool) (id nm ty : string) :
  hours_bounded p → hours_bounded (state_of (add_resource p id nm ty)).
Proof.
  intros Hc l r d. rewrite objs_add_resource.
  intros [Hl|[_ Hl]]%lookup_app_Some; [by eapply Hc|].
  destruct (l - length (objs p))%nat; [|done].
  injection Hl as <-. rewrite load_init. lia.
Qed.

Lemma hours_bounded_allocate (p : ResourcePool) (ty : string) (date hours : Z) :
  0 <= hours →
  hours_bounded p → hours_bounded (state_of (allocate_resource p ty date hours)).
Proof.
  intros Hh Hc.
  destruct (allocate_resource_state p ty date hours) as [->|(l & r & Hl & Hav & ->)];
    [done|].
  intros l' r' d. simpl. destruct (decide (l' = l)) as [->|Hne].
  - rewrite list_lookup_insert_eq by (by eapply lookup_lt_Some).
    intros [= <-]. unfold booked. rewrite load_set_assigned.
    case_bool_decide as Hd; [|by eapply Hc].
    pose proof (is_available_load r date hours Hav).
    pose proof (Hc l r date Hl). lia.
  - rewrite list_lookup_insert_ne by done. apply Hc.
Qed.

(** X5: in a pool built from the empty pool by any sequence of
    [add_resource] and [allocate_resource] calls, no resource has more than 8
    hours on any date; when no call asks for a negative number of hours, no
    resource has a negative number of hours either. *)
Theorem pool_operations_within_capacity (cal : BusinessCalendar) (ops : list pool_op) :
  within_capacity (run_ops (ResourcePool_init cal) ops)
  ∧ (Forall nonneg_op ops → hours_bounded (run_ops (ResourcePool_init cal) ops)).
Proof.
  split.
  - assert (Hgen : ∀ p, within_capacity p → within_capacity (run_ops p ops)).
    { induction ops as [|op ops IH]; intros p Hp; [done|].
      unfold run_ops. simpl. apply IH.
      destruct op; [by apply within_capacity_add|by apply within_capacity_allocate]. }
    apply Hgen. by intros l r d.
  - intros Hops.
    assert (Hgen : ∀ p, hours_bounded p → hours_bounded (run_ops p ops)).
    { induction Hops as [|op ops Hop Hops IH]; intros p Hp; [done|].
      unfold run_ops. simpl. apply IH.
      destruct op; [by apply hours_bounded_add|by apply hours_bounded_allocate]. }
    apply Hgen. by intros l r d.
Qed.

Lemma pool_operations_within_capacity_witness :
  hours_bounded
    (run_ops (ResourcePool_init studio_cal)
       [OpAdd "m1" "Modeling Artist" "quota"; OpAllocate "quota" (day 4) 5;
        OpAllocate "quota" (day 4) 5; OpAllocate "quota" (day 4) 3]).
Proof.
  apply (pool_operations_within_capacity studio_cal).
  repeat constructor; simpl; lia.
Defined.






(** ** AnimSimulator *)

Lemma initial_entries_S (t : Z) (eid0 pid0 n : nat) :
  initial_entries t eid0 pid0 (S n) =
    {| e_time := t; e_priority := URGENT; e_id := eid0; e_event := EvInitialize pid0 |}
    :: initial_entries t (S eid0) (S pid0) n.
Proof.
  unfold initial_entries. change (seq 0 (S n)) with (O :: seq 1 n).
  rewrite <- (fmap_S_seq 0 n), fmap_cons, <- list_fmap_compose.
  f_equal.
  - by rewrite !Nat.add_0_r.
  - apply list_fmap_ext. intros ? i _. simpl. f_equal; [lia|f_equal; lia].
Qed.

Lemma env_process_new (s : AnimSimulator) (asset level : string) (wf : WorkflowDefinition) :
  complexity_matrix (params s) !! asset = Some level →
  procs (env_process s asset level wf) = procs s ++ [new_process (params s) wf asset]
  ∧ queue (env (env_process s asset level wf))
    = queue (env s) ++ initial_entries (now (env s)) (eid (env s)) (length (procs s)) 1.
Proof.
  intros Hlevel. unfold env_process, new_process. simpl. rewrite Hlevel. simpl.
  split; [done|]. unfold initial_entries, schedule. simpl.
  by rewrite !Nat.add_0_r, Z.add_0_r.
Qed.

Lemma schedule_production_ok (project_id : string) (assets : list string)
    (wf : WorkflowDefinition) :
  ∀ s : AnimSimulator,
  workflow_definitions (params s) !! "asset_workflow"%string = Some wf →
  (∀ a, a ∈ assets → is_Some (complexity_matrix (params s) !! a)) →
  ∃ s', schedule_production s project_id assets = Ok tt s'
    ∧ procs s' = procs s ++ (new_process (params s) wf <$> assets)
    ∧ queue (env s')
      = queue (env s)
        ++ initial_entries (now (env s)) (eid (env s)) (length (procs s)) (length assets)
    ∧ now (env s') = now (env s)
    ∧ events s' = events s
    ∧ resource_pool s' = resource_pool s
    ∧ params s' = params s
    ∧ current_date s' = current_date s.
Proof.
  induction assets as [|a assets IH]; intros s Hwf Hall.
  - exists s. simpl. unfold initial_entries. simpl. by rewrite !app_nil_r.
  - simpl. rewrite Hwf.
    destruct (Hall a) as [level Hlevel]; [apply elem_of_cons; by left|].
    rewrite Hlevel.
    destruct (env_process_new s a level wf Hlevel) as [Hp Hq].
    destruct (IH (env_process s a level wf)) as (s' & -> & Hp' & Hq' & Hn & He & Hr & Hpr & Hc).
    { exact Hwf. }
    { intros b Hb. apply Hall. apply elem_of_cons. by right. }
    exists s'. split; [done|].
    change (params (env_process s a level wf)) with (params s) in *.
    change (now (env (env_process s a level wf))) with (now (env s)) in *.
    change (eid (env (env_process s a level wf))) with (S (eid (env s))) in *.
    split_and!; try done.
    + rewrite Hp', Hp, <- app_assoc. done.
    + rewrite Hq', Hq, Hp, length_app, <- app_assoc. simpl.
      rewrite (initial_entries_S _ _ _ (length assets)).
      unfold initial_entries at 1. simpl. rewrite !Nat.add_0_r.
      by rewrite Nat.add_1_r.
Qed.

(** X7: when the workflow ["asset_workflow"] is defined and every asset of
    the list has a complexity entry, [schedule_production] succeeds; it adds
    one unstarted process per asset, in the order of the list, and queues one
    urgent start event for each at the current time; the clock, the events,
    the pool and the parameters are unchanged. *)
Theorem schedule_production_registers (project_id : string) (assets : list string)
    (wf : WorkflowDefinition) :
  ∀ s : AnimSimulator,
  workflow_definitions (params s) !! "asset_workflow"%string = Some wf →
  (∀ a, a ∈ assets → is_Some (complexity_matrix (params s) !! a)) →
  ∃ s', schedule_production s project_id assets = Ok tt s'
    ∧ procs s' = procs s ++ (new_process (params s) wf <$> assets)
    ∧ queue (env s')
      = queue (env s)
        ++ initial_entries (now (env s)) (eid (env s)) (length (procs s)) (length assets)
    ∧ now (env s') = now (env s)
    ∧ events s' = events s
    ∧ resource_pool s' = resource_pool s
    ∧ params s' = params s
    ∧ current_date s' = current_date s.
Proof. apply schedule_production_ok. Qed.

Lemma schedule_production_registers_witness :
  ∃ s0 s', AnimSimulator_init (params_AB 2 3) monday_2026_03_02 = inr s0
    ∧ schedule_production s0 "p" ["x"%string] = Ok tt s'
    ∧ procs s' = [new_process (params_AB 2 3) (workflow_AB 2 3) "x"]
    ∧ queue (env s') = initial_entries 0 0 0 1.
Proof.
  eexists. 
  destruct (schedule_production_registers "p" ["x"%string] (workflow_AB 2 3)
              {| params := params_AB 2 3; env := Environment_init;
                 resource_pool := _register_resources (ResourcePool_init studio_cal);
                 events := []; current_date := monday_2026_03_02; procs := [] |})
    as (s' & Hrun & Hp & Hq & _).
  - reflexivity.
  - intros a ->%list_elem_of_singleton. by eexists.
  - exists s'. split; [reflexivity|]. split; [exact Hrun|]. split; [exact Hp|exact Hq].
Defined.

(** X8: when the workflow is defined and an asset of the list has no
    complexity entry while all the assets before it have one,
    [schedule_production] raises [KeyError] for that asset; the processes of
    the assets before it stay registered and the assets after it are not. *)
Theorem schedule_production_missing_complexity (project_id : string)
    (pre post : list string) (a : string) (wf : WorkflowDefinition) :
  ∀ s : AnimSimulator,
  workflow_definitions (params s) !! "asset_workflow"%string = Some wf →
  (∀ b, b ∈ pre → is_Some (complexity_matrix (params s) !! b)) →
  complexity_matrix (params s) !! a = None →
  ∃ s', schedule_production s project_id (pre ++ a :: post) = Raise (KeyError a) s'
    ∧ procs s' = procs s ++ (new_process (params s) wf <$> pre)
    ∧ length (queue (env s')) = (length (queue (env s)) + length pre)%nat.
Proof.
  induction pre as [|b pre IH]; intros s Hwf Hall Hnone.
  - exists s. simpl. rewrite Hwf, Hnone. by rewrite app_nil_r, Nat.add_0_r.
  - simpl. rewrite Hwf.
    destruct (Hall b) as [level Hlevel]; [apply elem_of_cons; by left|].
    rewrite Hlevel.
    destruct (env_process_new s b level wf Hlevel) as [Hp Hq].
    destruct (IH (env_process s b level wf)) as (s' & -> & Hp' & Hq').
    { exact Hwf. }
    { intros c Hc. apply Hall. apply elem_of_cons. by right. }
    { exact Hnone. }
    exists s'. split; [done|].
    change (params (env_process s b level wf)) with (params s) in *.
    split.
    + rewrite Hp', Hp, <- app_assoc. done.
    + rewrite Hq', Hq, length_app. simpl. lia.
Qed.

Lemma schedule_production_missing_complexity_witness :
  ∃ s0 s', AnimSimulator_init (params_AB 2 3) monday_2026_03_02 = inr s0
    ∧ schedule_production s0 "p" ["x"; "y"; "x"]%string = Raise (KeyError "y") s'
    ∧ length (procs s') = 1%nat.
Proof.
  eexists.
  destruct (schedule_production_missing_complexity "p" ["x"%string] ["x"%string] "y"
              (workflow_AB 2 3)
              {| params := params_AB 2 3; env := Environment_init;
                 resource_pool := _register_resources (ResourcePool_init studio_cal);
                 events := []; current_date := monday_2026_03_02; procs := [] |})
    as (s' & Hrun & Hp & _).
  - reflexivity.
  - intros b ->%list_elem_of_singleton. by eexists.
  - reflexivity.
  - exists s'. split; [reflexivity|]. split; [exact Hrun|]. by rewrite Hp.
Defined.

(** *** The events of a run *)

Lemma pop_min_time (q : list entry) (m : entry) (rest : list entry) :
  pop_min q = Some (m, rest) → ∀ e, e ∈ rest → e_time m <= e_time e.
Proof.
  revert m rest. induction q as [|a q IH]; intros m rest; simpl; [done|].
  destruct (pop_min q) as [[m' rest']|] eqn:Hq.
  - specialize (IH m' rest' eq_refl).
    pose proof (pop_min_perm q m' rest' Hq) as Hperm.
    destruct (entry_ltb m' a) eqn:Hlt.
    + intros [= <- <-] e [->|He]%elem_of_cons; [|by apply IH].
      unfold entry_ltb in Hlt.
      destruct (Z.ltb_spec (e_time m') (e_time a)); [lia|].
      destruct (Z.eqb_spec (e_time m') (e_time a)); [lia|done].
    + intros [= <- <-] e He.
      assert (e_time a <= e_time m').
      { unfold entry_ltb in Hlt.
        destruct (Z.ltb_spec (e_time m') (e_time a)); [done|lia]. }
      rewrite Hperm in He. apply elem_of_cons in He as [->|He]; [done|].
      specialize (IH e He). lia.
  - intros [= <- <-] e He. by apply not_elem_of_nil in He.
Qed.

Lemma stage_from_alloc_facts (asset : string) (wf : WorkflowDefinition)
    (head : AnimSimulator → option string → option (AnimSimulator * suspend))
    (s s' : AnimSimulator) (st : string) (sd : StageDef) (bid : Z) (out : suspend) :
  (∀ s1 next s2 out2, head s1 next = Some (s2, out2) →
     env s2 = env s1 ∧ procs s2 = procs s1 ∧ events s2 = events s1
     ∧ current_date s2 = current_date s1
     ∧ yield_ok wf (sim_date s1) (sim_date s1) out2) →
  is_Some (stages wf !! st) →
  stage_from_alloc asset wf head s st sd bid = Some (s', out) →
  env s' = env s ∧ procs s' = procs s ∧ events s' = events s
  ∧ current_date s' = current_date s
  ∧ yield_ok wf (sim_date s) (sim_date s) out.
Proof.
  intros Hhead Hst. unfold stage_from_alloc.
  destruct (sd_resource_type sd) as [rty|]; [|by intros [= <- <-]].
  destruct (allocate_resource _ _ _ _) as [[res|] p'|e p'].
  - unfold timeout. destruct (Z.ltb_spec (bid * 24) 0); intros [= <- <-]; [done|].
    split_and!; try done; simpl; split_and!; try done; unfold sim_date; simpl; lia.
  - cbn [resolve_conflict _get_pending_tasks negb].
    destruct (get_next_stage wf st) as [e|next]; [by intros [= <- <-]|].
    intros Hrun. apply Hhead in Hrun. exact Hrun.
  - by intros [= <- <-].
Qed.

Lemma stage_loop_facts (asset : string) (wf : WorkflowDefinition) (cx : string)
    (fuel : nat) :
  ∀ s next s' out, stage_loop asset wf cx fuel s next = Some (s', out) →
  env s' = env s ∧ procs s' = procs s ∧ events s' = events s
  ∧ current_date s' = current_date s
  ∧ yield_ok wf (sim_date s) (sim_date s) out.
Proof.
  induction fuel as [|fuel IH]; intros s next s' out; [done|].
  cbn [stage_loop].
  destruct next as [st|]; [|by intros [= <- <-]].
  destruct (bool_decide (st = ""%string)); [by intros [= <- <-]|].
  destruct (stages wf !! st) as [sd|] eqn:Hst; [|by intros [= <- <-]].
  destruct (stage_bid sd cx) as [e|bid]; [by intros [= <- <-]|].
  destruct (stage_order wf !! O) as [first|]; [|by intros [= <- <-]].
  destruct (bool_decide (st = first)).
  - destruct (creative_calendar (params s) !! asset) as [input_date|];
      [|by intros [= <- <-]].
    unfold timeout. destruct (Z.ltb_spec (input_date - current_date s) 0);
      intros [= <- <-]; [done|].
    split_and!; try done; simpl; by rewrite Hst.
  - intros Hrun. eapply stage_from_alloc_facts; [|by rewrite Hst|exact Hrun].
    intros s1 next s2 out2 H2. destruct (IH s1 next s2 out2 H2) as (?&?&?&?&?).
    done.
Qed.

Lemma resume_facts (asset : string) (wf : WorkflowDefinition) (cx : string)
    (fuel : nat) (s s' : AnimSimulator) (k : pc) (out : suspend) (lo : Z) :
  pc_ok wf lo (sim_date s) k →
  resume asset wf cx fuel s k = Some (s', out) →
  env s' = env s ∧ procs s' = procs s ∧ current_date s' = current_date s
  ∧ yield_ok wf (sim_date s) (sim_date s) out
  ∧ (events s' = events s
     ∨ ∃ st start res, k = PHold st start res
         ∧ events s' = events s ++ [ProductionEvent_init asset st start (sim_date s)
                                      (resource_name (resource_pool s) res)]).
Proof.
  intros Hk. destruct k as [|st sd bid|st start res|st| |]; cbn [resume].
  - destruct (stage_order wf !! O) as [first|]; [|intros [= <- <-]; by split_and!; try left].
    intros Hrun. apply stage_loop_facts in Hrun as (?&?&?&?&?).
    split_and!; try done. by left.
  - intros Hrun.
    destruct (stage_from_alloc_facts asset wf (stage_loop asset wf cx fuel)
                s s' st sd bid out) as (?&?&?&?&?); [|exact Hk|exact Hrun|].
    + intros s1 next s2 out2 H2.
      exact (stage_loop_facts asset wf cx fuel s1 next s2 out2 H2).
    + split_and!; try done. by left.
  - destruct (get_next_stage wf st) as [e|next].
    + intros [= <- <-]. split_and!; try done. right. by exists st, start, res.
    + intros Hrun. apply stage_loop_facts in Hrun as (?&?&?&?&?).
      split_and!; try done. right. by exists st, start, res.
  - intros Hrun. apply stage_loop_facts in Hrun as (?&?&?&?&?).
    split_and!; try done. by left.
  - intros [= <- <-]. split_and!; try done. by left.
  - intros [= <- <-]. split_and!; try done. by left.
Qed.

Lemma pc_ok_mono (wf : WorkflowDefinition) (lo lo' d d' : Z) (k : pc) :
  lo' <= lo → d <= d' → pc_ok wf lo d k → pc_ok wf lo' d' k.
Proof. intros Hlo Hd. destruct k; simpl; try done. intros [? ?]. split; [lia|done]. Qed.

Lemma event_ok_mono (assets : list string) (wf : WorkflowDefinition) (lo hi hi' : Z)
    (ev : ProductionEvent) :
  hi <= hi' → event_ok assets wf lo hi ev → event_ok assets wf lo hi' ev.
Proof. intros Hhi (?&?&?&?&?). split_and!; try done. lia. Qed.

Lemma run_inv_pop (horizon : Z) (assets : list string) (wf : WorkflowDefinition)
    (s : AnimSimulator) (e : entry) (rest : list entry) :
  run_inv horizon assets wf s →
  pop_min (queue (env s)) = Some (e, rest) →
  e_event e ≠ EvUntil →
  run_inv horizon assets wf
    (with_env s {| now := e_time e; queue := rest; eid := eid (env s) |}).
Proof.
  intros [Hq Hn [u (Hu & Hev & Hut)] Hp He Hs] Hpop Hne.
  pose proof (pop_min_perm _ _ _ Hpop) as Hperm.
  pose proof (pop_min_time _ _ _ Hpop) as Hmin.
  assert (Hein : e ∈ queue (env s)) by (rewrite Hperm; apply elem_of_cons; by left).
  assert (Hnow : now (env s) <= e_time e) by (by apply Hq).
  assert (Hurest : u ∈ rest).
  { rewrite Hperm in Hu. apply elem_of_cons in Hu as [->|?]; [done|done]. }
  assert (Hdate : sim_date s <= current_date s + timedelta_days (e_time e)).
  { unfold sim_date, timedelta_days. lia. }
  split; simpl.
  - exact Hmin.
  - specialize (Hmin u Hurest). lia.
  - by exists u.
  - intros pid P HP. destruct (Hp pid P HP) as (?&?&?). split_and!; try done.
    eapply pc_ok_mono; [| |eassumption]; [lia|exact Hdate].
  - eapply Forall_impl; [exact He|]. intros ev. by apply event_ok_mono.
  - exact Hs.
Qed.

Lemma run_inv_resume (horizon : Z) (assets : list string) (wf : WorkflowDefinition)
    (fuel : nat) (s s2 : AnimSimulator) (pid : nat) :
  run_inv horizon assets wf s →
  resume_process fuel s pid = Some s2 →
  current_date s2 = current_date s ∧ run_inv horizon assets wf s2.
Proof.
  intros Hinv. pose proof Hinv as [Hq Hn [u (Hu & Hev & Hut)] Hp He Hs].
  unfold resume_process.
  destruct (procs s !! pid) as [P|] eqn:HP; [|by intros [= <-]].
  destruct (Hp pid P HP) as (Hasset & Hwf & Hpc).
  destruct (resume _ _ _ fuel s (p_pc P)) as [[s' out]|] eqn:Hres; [|done].
  rewrite Hwf in Hres.
  destruct (resume_facts _ wf _ _ _ _ _ _ _ Hpc Hres) as (Henv & Hprocs & Hdate & Hout & Hevs).
  assert (Hcur : current_date s <= sim_date s).
  { unfold sim_date, timedelta_days. lia. }
  assert (Hsim : sim_date s' = sim_date s).
  { unfold sim_date. by rewrite Hdate, Henv. }
  assert (Hevents : Forall (event_ok assets wf (current_date s) (sim_date s)) (events s')
                    ∧ StronglySorted by_end_time (events s')).
  { destruct Hevs as [->|(st & start & res & Hk & ->)]; [done|].
    rewrite Hk in Hpc. destruct Hpc as [Hstart Hst]. split.
    - apply Forall_app. split; [done|]. apply Forall_singleton.
      split_and!; simpl; try done; lia.
    - apply StronglySorted_app. split_and!; [|done|by repeat constructor].
      intros x1 x2 Hx1 ->%list_elem_of_singleton.
      rewrite Forall_forall in He. destruct (He x1 Hx1) as (_&_&_&_&Hend).
      exact Hend. }
  destruct Hevents as [He' Hs'].
  assert (Hgen : ∀ (k : pc) (ev : sim_event) (delay : Z),
    0 <= delay → pc_ok wf (sim_date s) (sim_date s) k →
    let s2 := with_env (with_procs s' (<[pid := set_pc P k]> (procs s')))
                (schedule (env s') ev NORMAL delay) in
    current_date s2 = current_date s ∧ run_inv horizon assets wf s2).
  { intros k ev delay Hdelay Hk s3. split; [exact Hdate|].
    assert (Hsim3 : sim_date s3 = sim_date s).
    { unfold sim_date. simpl. by rewrite Hdate, Henv. }
    split; simpl.
    - rewrite Henv. intros e [He0| ->%list_elem_of_singleton]%elem_of_app;
        [by apply Hq|simpl; lia].
    - by rewrite Henv.
    - exists u. rewrite Henv. split_and!; try done. apply elem_of_app. by left.
    - rewrite Hprocs. intros pid' P'. rewrite Hsim3, Hdate.
      destruct (decide (pid = pid')) as [<-|Hne].
      + rewrite list_lookup_insert_eq by (by eapply lookup_lt_Some).
        intros [= <-]. simpl. split_and!; try done.
        eapply pc_ok_mono; [| |exact Hk]; [exact Hcur|lia].
      + rewrite list_lookup_insert_ne by done. apply Hp.
    - by rewrite Hsim3, Hdate.
    - exact Hs'. }
  destruct out as [delay k| |e]; intros [= <-].
  - destruct Hout as [Hdelay Hk]. by apply Hgen.
  - by apply Hgen.
  - by apply Hgen.
Qed.

Lemma run_inv_final (horizon : Z) (assets : list string) (wf : WorkflowDefinition)
    (s : AnimSimulator) :
  run_inv horizon assets wf s →
  Forall (event_ok assets wf (current_date s)
            (current_date s + timedelta_days horizon)) (events s)
  ∧ StronglySorted by_end_time (events s).
Proof.
  intros [Hq Hn _ Hp He Hs]. split; [|done].
  eapply Forall_impl; [exact He|]. intros ev. apply event_ok_mono.
  unfold sim_date, timedelta_days. lia.
Qed.

Lemma run_loop_events (horizon : Z) (assets : list string) (wf : WorkflowDefinition)
    (fuel : nat) :
  ∀ s st s', run_inv horizon assets wf s →
  run_loop fuel s = Some (st, s') →
  Forall (event_ok assets wf (current_date s)
            (current_date s + timedelta_days horizon)) (events s')
  ∧ StronglySorted by_end_time (events s').
Proof.
  induction fuel as [|fuel IH]; intros s st s' Hinv; [done|].
  cbn [run_loop].
  destruct (pop_min (queue (env s))) as [[e rest]|] eqn:Hpop.
  2: { intros [= <- <-]. by apply run_inv_final. }
  set (s1 := with_env s {| now := e_time e; queue := rest; eid := eid (env s) |}).
  assert (Hresume : ∀ pid, e_event e ≠ EvUntil →
            match resume_process (S fuel) s1 pid with
            | Some s2 => run_loop fuel s2
            | None => None
            end = Some (st, s') →
            Forall (event_ok assets wf (current_date s)
                      (current_date s + timedelta_days horizon)) (events s')
            ∧ StronglySorted by_end_time (events s')).
  { intros pid Hne.
    pose proof (run_inv_pop horizon assets wf s e rest Hinv Hpop Hne) as Hinv1.
    destruct (resume_process (S fuel) s1 pid) as [s2|] eqn:Hres; [|done].
    destruct (run_inv_resume horizon assets wf (S fuel) s1 s2 pid Hinv1 Hres)
      as [Hdate Hinv2].
    intros Hrun. change (current_date s1) with (current_date s) in Hdate.
    rewrite <- Hdate. by eapply IH. }
  destruct (e_event e) as [pid|pid|pid [err|]|] eqn:Hev.
  - by apply Hresume.
  - by apply Hresume.
  - intros [= <- <-]. by apply (run_inv_final horizon assets wf s).
  - intros Hrun.
    assert (Hne : e_event e ≠ EvUntil) by (by rewrite Hev).
    pose proof (run_inv_pop horizon assets wf s e rest Hinv Hpop Hne) as Hinv1.
    by apply (IH s1 st s' Hinv1).
  - intros [= <- <-]. by apply (run_inv_final horizon assets wf s).
Qed.

Lemma schedule_production_events (project_id : string) (assets : list string) :
  ∀ s, events (state_of (schedule_production s project_id assets)) = events s.
Proof.
  induction assets as [|a assets IH]; intros s; simpl; [done|].
  destruct (workflow_definitions (params s) !! "asset_workflow"%string); [|done].
  destruct (complexity_matrix (params s) !! a); [|done].
  by rewrite IH.
Qed.

Lemma schedule_production_Ok_inv (project_id : string) (assets : list string) :
  ∀ s s', schedule_production s project_id assets = Ok tt s' →
  ∀ a, a ∈ assets → is_Some (complexity_matrix (params s) !! a).
Proof.
  induction assets as [|a assets IH]; intros s s' Hrun b Hb.
  - by apply not_elem_of_nil in Hb.
  - simpl in Hrun.
    destruct (workflow_definitions (params s) !! "asset_workflow"%string); [|done].
    destruct (complexity_matrix (params s) !! a) as [level|] eqn:Hlevel; [|done].
    apply elem_of_cons in Hb as [->|Hb]; [by eexists|].
    by apply (IH _ _ Hrun).
Qed.

Lemma simulate_events_sound (prm : ProductionParameters) (wall_clock : Z)
    (pool : option ResourcePool) (project_id : string) (assets : list string)
    (until : Z) (wf : WorkflowDefinition) (fuel : nat) (st : run_status)
    (evs : list ProductionEvent) :
  workflow_definitions prm !! "asset_workflow"%string = Some wf →
  simulate fuel prm wall_clock pool project_id assets until = Some (st, evs) →
  Forall (event_ok assets wf wall_clock (wall_clock + timedelta_days until)) evs
  ∧ StronglySorted by_end_time evs.
Proof.
  intros Hwf. unfold simulate.
  destruct (AnimSimulator_init prm wall_clock) as [e|s0] eqn:Hinit.
  { intros [= <- <-]. split; constructor. }
  assert (Hs0 : params s0 = prm ∧ procs s0 = [] ∧ events s0 = []
                ∧ current_date s0 = wall_clock ∧ env s0 = Environment_init).
  { unfold AnimSimulator_init in Hinit.
    destruct (resource_calendars prm !! "studio"%string); [|done].
    by injection Hinit as <-. }
  destruct Hs0 as (Hprm & Hp0 & He0 & Hd0 & Henv0).
  set (s1 := match pool with Some p => with_pool s0 p | None => s0 end).
  assert (Hs1 : params s1 = prm ∧ procs s1 = [] ∧ events s1 = []
                ∧ current_date s1 = wall_clock ∧ env s1 = Environment_init)
    by (by destruct pool).
  destruct Hs1 as (Hprm1 & Hp1 & He1 & Hd1 & Henv1).
  pose proof (schedule_production_events project_id assets s1) as Hevs.
  destruct (schedule_production s1 project_id assets) as [[] s2|e s2] eqn:Hsched.
  2: { intros [= <- <-]. simpl in Hevs. rewrite Hevs, He1. split; constructor. }
  simpl in Hevs.
  destruct (schedule_production_ok project_id assets wf s1) as (s2' & Heq & Hp2 & Hq2 & Hn2 & _ & _ & _ & Hd2).
  { by rewrite Hprm1. }
  { by apply (schedule_production_Ok_inv project_id assets s1 s2). }
  rewrite Hsched in Heq. injection Heq as <-.
  rewrite Hp1, Henv1 in *. simpl in Hp2, Hq2, Hn2.
  unfold run. rewrite Hn2.
  destruct (Z.leb_spec until 0) as [Hle|Hgt].
  { intros [= <- <-]. rewrite Hevs, He1. split; constructor. }
  set (s3 := with_env s2 (schedule (env s2) EvUntil URGENT (until - 0))).
  destruct (run_loop fuel s3) as [[st' s4]|] eqn:Hrun; [|done].
  intros [= <- <-].
  rewrite <- Hd1, <- Hd2.
  apply (run_loop_events until assets wf fuel s3 st' s4); [|exact Hrun].
  split; simpl.
  - rewrite Hq2, Hn2. intros e [He| ->%list_elem_of_singleton]%elem_of_app.
    + unfold initial_entries in He. apply list_elem_of_fmap in He as (i & -> & _).
      simpl. lia.
    + simpl. lia.
  - rewrite Hn2. lia.
  - eexists. split; [apply elem_of_app; right; by apply list_elem_of_singleton|].
    simpl. rewrite Hn2. split; [done|lia].
  - rewrite Hp2. intros pid P HP.
    rewrite list_lookup_fmap in HP.
    destruct (assets !! pid) as [a|] eqn:Ha; [|done].
    injection HP as <-. simpl. split_and!; try done. by eapply list_elem_of_lookup_2.
  - rewrite Hevs, He1. constructor.
  - rewrite Hevs, He1. constructor.
Qed.

(** X9: when the workflow ["asset_workflow"] is defined, every event of a
    run, however the run ends, belongs to one of the scheduled assets and to
    a stage of the workflow, starts no earlier than the wall-clock reading
    at construction, does not end before it starts, and ends no later than
    the horizon counted in days from that reading. *)
Theorem simulate_events_within_horizon (prm : ProductionParameters) (wall_clock : Z)
    (pool : option ResourcePool) (project_id : string) (assets : list string)
    (until : Z) (wf : WorkflowDefinition) (fuel : nat) (st : run_status)
    (evs : list ProductionEvent) :
  workflow_definitions prm !! "asset_workflow"%string = Some wf →
  simulate fuel prm wall_clock pool project_id assets until = Some (st, evs) →
  ∀ ev, ev ∈ evs →
    item_id ev ∈ assets
    ∧ is_Some (stages wf !! stage ev)
    ∧ wall_clock <= start_time ev
    ∧ start_time ev <= end_time ev
    ∧ end_time ev <= wall_clock + timedelta_days until.
Proof.
  intros Hwf Hrun ev Hev.
  destruct (simulate_events_sound _ _ _ _ _ _ _ _ _ _ Hwf Hrun) as [Hok _].
  rewrite Forall_forall in Hok. exact (Hok ev Hev).
Qed.

Lemma simulate_events_within_horizon_witness :
  ∃ ev, simulate 20 (params_AB 2 3) monday_2026_03_02 None "p" ["x"%string] 365
          = Some (Completed, [ev])
    ∧ monday_2026_03_02 <= start_time ev
    ∧ start_time ev <= end_time ev
    ∧ end_time ev <= monday_2026_03_02 + timedelta_days 365.
Proof.
  assert (Hrun : ∃ ev, simulate 20 (params_AB 2 3) monday_2026_03_02 None "p"
                         ["x"%string] 365 = Some (Completed, [ev]))
    by (eexists; vm_compute; reflexivity).
  destruct Hrun as [ev Hrun]. exists ev. split; [exact Hrun|].
  destruct (simulate_events_within_horizon (params_AB 2 3) monday_2026_03_02 None "p"
              ["x"%string] 365 (workflow_AB 2 3) 20 Completed [ev] eq_refl Hrun ev)
    as (_ & _ & H1 & H2 & H3).
  - by apply list_elem_of_singleton.
  - by split_and!.
Defined.

(** X10: when the workflow ["asset_workflow"] is defined, the event list of a
    run is in completion order: the end times of the events never decrease
    along the list. *)
Theorem simulate_events_completion_order (prm : ProductionParameters) (wall_clock : Z)
    (pool : option ResourcePool) (project_id : string) (assets : list string)
    (until : Z) (wf : WorkflowDefinition) (fuel : nat) (st : run_status)
    (evs : list ProductionEvent) :
  workflow_definitions prm !! "asset_workflow"%string = Some wf →
  simulate fuel prm wall_clock pool project_id assets until = Some (st, evs) →
  StronglySorted by_end_time evs.
Proof.
  intros Hwf Hrun.
  by destruct (simulate_events_sound _ _ _ _ _ _ _ _ _ _ Hwf Hrun) as [_ Hsorted].
Qed.

Lemma simulate_events_completion_order_witness :
  ∃ a b, simulate 20 (params_AB 2 3) (monday_2026_03_02 + 3) None "p" ["x"%string] 365
          = Some (Completed, [a; b])
    ∧ end_time a <= end_time b.
Proof.
  assert (Hrun : ∃ a b, simulate 20 (params_AB 2 3) (monday_2026_03_02 + 3) None "p"
                         ["x"%string] 365 = Some (Completed, [a; b]))
    by (do 2 eexists; vm_compute; reflexivity).
  destruct Hrun as (a & b & Hrun). exists a, b. split; [exact Hrun|].
  pose proof (simulate_events_completion_order (params_AB 2 3) (monday_2026_03_02 + 3)
                None "p" ["x"%string] 365 (workflow_AB 2 3) 20 Completed [a; b]
                eq_refl Hrun) as Hsorted.
  apply StronglySorted_cons in Hsorted as [Hab _].
  apply Forall_cons in Hab as [Hab _]. exact Hab.
Defined.

(** *** Runs that raise *)

Lemma resume_fails_at_start (fuel : nat) (s : AnimSimulator) (P : Process) :
  fails_at_start (params s) (current_date s) P →
  ∃ e, resume (p_asset_id P) (p_workflow P) (p_complexity P) (S fuel) s PStart
       = Some (s, Throw e).
Proof.
  intros (first & sd & bid & Hfirst & Hne & Hsd & Hbid & Hinput).
  cbn [resume stage_loop]. rewrite Hfirst.
  rewrite bool_decide_eq_false_2 by done.
  rewrite Hsd, Hbid. rewrite bool_decide_eq_true_2 by done.
  destruct (creative_calendar (params s) !! p_asset_id P) as [input_date|];
    [|by eexists].
  unfold timeout. rewrite (proj2 (Z.ltb_lt _ _)) by lia. by eexists.
Qed.

(** What one resumption does to the queue and the processes. *)
Lemma resume_process_frame (fuel : nat) (s s2 : AnimSimulator) (pid : nat) :
  resume_process fuel s pid = Some s2 →
  current_date s2 = current_date s ∧ params s2 = params s
  ∧ (∀ pid', pid' ≠ pid → procs s2 !! pid' = procs s !! pid')
  ∧ (s2 = s
     ∨ ∃ new, queue (env s2) = queue (env s) ++ [new] ∧ e_event new ≠ EvUntil).
Proof.
  unfold resume_process.
  destruct (procs s !! pid) as [P|]; [|intros [= <-]; split_and!; try done; by left].
  destruct (resume _ _ _ fuel s (p_pc P)) as [[s' out]|] eqn:Hres; [|done].
  apply resume_frame in Hres as (Henv & Hprocs & Hdate & Hprm).
  destruct out as [delay k| |e]; intros [= <-]; simpl; rewrite Henv, Hprocs;
    (split_and!; [done|done| |]);
    try (intros pid' Hne; by rewrite list_lookup_insert_ne);
    right; eexists; split; reflexivity || done.
Qed.

Lemma run_loop_doomed (T : Z) (fuel : nat) :
  ∀ s st s', doomed T s → run_loop fuel s = Some (st, s') → ∃ e, st = Crashed e.
Proof.
  induction fuel as [|fuel IH]; intros s st s' [Huntil Hdoom]; [done|].
  cbn [run_loop].
  destruct (pop_min (queue (env s))) as [[m rest]|] eqn:Hpop.
  2: { exfalso.
       assert (Hempty : queue (env s) = []).
       { destruct (queue (env s)) as [|a q]; [done|]. simpl in Hpop.
         destruct (pop_min q) as [[??]|]; [destruct (entry_ltb _ _)|]; done. }
       rewrite Hempty in Hdoom.
       destruct Hdoom as [(f & ? & ? & Hf & _)|(i & ? & ? & Hi & _)];
         by apply not_elem_of_nil in Hf || by apply not_elem_of_nil in Hi. }
  pose proof (pop_min_perm _ _ _ Hpop) as Hperm.
  pose proof (pop_min_time _ _ _ Hpop) as Hmin.
  assert (Hmq : m ∈ queue (env s)) by (rewrite Hperm; apply elem_of_cons; by left).
  assert (Hrest : ∀ x, x ∈ queue (env s) → x = m ∨ x ∈ rest).
  { intros x Hx. rewrite Hperm in Hx. by apply elem_of_cons in Hx. }
  assert (Hlow : ∀ x, x ∈ queue (env s) → e_time m <= e_time x).
  { intros x [->|Hx]%Hrest; [done|by apply Hmin]. }
  set (s1 := with_env s {| now := e_time m; queue := rest; eid := eid (env s) |}).
  assert (Huntil1 : ∀ u, u ∈ rest → e_event u = EvUntil → T <= e_time u).
  { intros u Hu. apply Huntil. rewrite Hperm. apply elem_of_cons. by right. }
  (* the stop event is not the least entry *)
  assert (Hnot_until : e_event m ≠ EvUntil).
  { intros Hm. specialize (Huntil m Hmq Hm).
    destruct Hdoom as [(f & ? & ? & Hf & _ & Hft)|(i & ? & ? & Hi & _ & Hit & _)].
    - specialize (Hlow f Hf). lia.
    - specialize (Hlow i Hi). lia. }
  assert (Hresume : ∀ pid, (e_event m = EvInitialize pid ∨ e_event m = EvTimeout pid) →
            match resume_process (S fuel) s1 pid with
            | Some s2 => run_loop fuel s2
            | None => None
            end = Some (st, s') → ∃ e, st = Crashed e).
  { intros pid Hm.
    destruct (resume_process (S fuel) s1 pid) as [s2|] eqn:Hres; [|done].
    apply IH.
    destruct Hdoom as [(f & fpid & err & Hf & Hfe & Hft)|(i & ipid & P & Hi & Hie & Hit & HP & Hpc & Hfail)].
    - (* a failed process is waiting in the queue *)
      assert (Hfr : f ∈ rest).
      { destruct (Hrest f Hf) as [->|?]; [|done]. destruct Hm; congruence. }
      destruct (resume_process_frame _ _ _ _ Hres) as (_ & _ & _ & [->|(new & Hq & Hnew)]).
      + split; [exact Huntil1|]. left. by exists f, fpid, err.
      + split.
        * rewrite Hq. intros u [Hu| ->%list_elem_of_singleton]%elem_of_app;
            [by apply Huntil1|done].
        * left. exists f, fpid, err. rewrite Hq. split_and!; try done.
          apply elem_of_app. by left.
    - destruct (decide (pid = ipid)) as [->|Hne].
      + (* the process that fails at its start is resumed *)
        unfold resume_process in Hres. change (procs s1) with (procs s) in Hres.
        rewrite HP, Hpc in Hres.
        destruct (resume_fails_at_start fuel s1 P Hfail) as [e He].
        rewrite He in Hres. injection Hres as <-.
        split; simpl.
        * intros u [Hu| ->%list_elem_of_singleton]%elem_of_app;
            [by apply Huntil1|done].
        * left. eexists _, ipid, e. split_and!;
            [apply elem_of_app; right; by apply list_elem_of_singleton|done|].
          simpl. specialize (Hlow i Hi). lia.
      + (* another process is resumed *)
        assert (Hir : i ∈ rest).
        { destruct (Hrest i Hi) as [->|?]; [|done]. destruct Hm; congruence. }
        destruct (resume_process_frame _ _ _ _ Hres)
          as (Hdate & Hprm & Hother & [->|(new & Hq & Hnew)]).
        * split; [exact Huntil1|]. right. by exists i, ipid, P.
        * split.
          -- rewrite Hq. intros u [Hu| ->%list_elem_of_singleton]%elem_of_app;
               [by apply Huntil1|done].
          -- right. exists i, ipid, P. rewrite Hq, Hdate, Hprm.
             split_and!; try done; [apply elem_of_app; by left|].
             rewrite Hother by done. exact HP. }
  destruct (e_event m) as [pid|pid|pid [err|]|] eqn:Hev.
  - apply Hresume. by left.
  - apply Hresume. by right.
  - intros [= <- <-]. by eexists.
  - apply IH. split; [exact Huntil1|].
    destruct Hdoom as [(f & fpid & err & Hf & Hfe & Hft)
                      |(i & ipid & P & Hi & Hie & Hit & HP & Hpc & Hfail)].
    + left. exists f, fpid, err. split_and!; try done.
      change (f ∈ rest). destruct (Hrest f Hf) as [->|?]; [congruence|done].
    + right. exists i, ipid, P. split_and!; try done.
      change (i ∈ rest). destruct (Hrest i Hi) as [->|?]; [congruence|done].
  - done.
Qed.

(** When the first stage of the workflow has a default bid and a scheduled
    asset has no creative-input date, or one earlier than the wall-clock
    reading at construction, a run that ends has raised. *)
Lemma simulate_unready_crashes (prm : ProductionParameters) (wall_clock : Z)
    (pool : option ResourcePool) (project_id : string) (assets : list string)
    (until : Z) (wf : WorkflowDefinition) (first a : string) (sd : StageDef)
    (dflt : Z) (fuel : nat) (st : run_status) (evs : list ProductionEvent) :
  workflow_definitions prm !! "asset_workflow"%string = Some wf →
  stage_order wf !! O = Some first →
  first ≠ ""%string →
  stages wf !! first = Some sd →
  sd_default sd = Some dflt →
  a ∈ assets →
  match creative_calendar prm !! a with
  | None => True
  | Some input_date => input_date < wall_clock
  end →
  simulate fuel prm wall_clock pool project_id assets until = Some (st, evs) →
  ∃ e, st = Crashed e.
Proof.
  intros Hwf Hfirst Hne Hsd Hdflt Ha Hinput. unfold simulate.
  destruct (AnimSimulator_init prm wall_clock) as [e|s0] eqn:Hinit.
  { intros [= <- <-]. by eexists. }
  assert (Hs0 : params s0 = prm ∧ procs s0 = []
                ∧ current_date s0 = wall_clock ∧ env s0 = Environment_init).
  { unfold AnimSimulator_init in Hinit.
    destruct (resource_calendars prm !! "studio"%string); [|done].
    by injection Hinit as <-. }
  destruct Hs0 as (Hprm & Hp0 & Hd0 & Henv0).
  set (s1 := match pool with Some p => with_pool s0 p | None => s0 end).
  assert (Hs1 : params s1 = prm ∧ procs s1 = []
                ∧ current_date s1 = wall_clock ∧ env s1 = Environment_init)
    by (by destruct pool).
  destruct Hs1 as (Hprm1 & Hp1 & Hd1 & Henv1).
  destruct (schedule_production s1 project_id assets) as [[] s2|e s2] eqn:Hsched.
  2: { intros [= <- <-]. by eexists. }
  destruct (schedule_production_ok project_id assets wf s1)
    as (s2' & Heq & Hp2 & Hq2 & Hn2 & _ & _ & Hprm2 & Hd2).
  { by rewrite Hprm1. }
  { by apply (schedule_production_Ok_inv project_id assets s1 s2). }
  rewrite Hsched in Heq. injection Heq as <-.
  rewrite Hp1, Henv1 in *. simpl in Hp2, Hq2, Hn2.
  unfold run. rewrite Hn2.
  destruct (Z.leb_spec until 0) as [Hle|Hgt].
  { intros [= <- <-]. by eexists. }
  set (s3 := with_env s2 (schedule (env s2) EvUntil URGENT (until - 0))).
  destruct (run_loop fuel s3) as [[st' s4]|] eqn:Hrun; [|done].
  intros [= <- <-].
  apply (run_loop_doomed until fuel s3 st' s4); [|exact Hrun].
  apply list_elem_of_lookup in Ha as [idx Hidx].
  split; simpl.
  - rewrite Hq2, Hn2. intros u [Hu| ->%list_elem_of_singleton]%elem_of_app.
    + unfold initial_entries in Hu. apply list_elem_of_fmap in Hu as (i & -> & _). done.
    + simpl. lia.
  - right.
    exists {| e_time := 0; e_priority := URGENT; e_id := (0 + idx)%nat;
              e_event := EvInitialize (0 + idx)%nat |}, idx,
           (new_process (params s1) wf a).
    split_and!; try done.
    + rewrite Hq2. apply elem_of_app. left. unfold initial_entries.
      apply list_elem_of_fmap. exists idx. split; [done|].
      apply elem_of_seq. apply lookup_lt_Some in Hidx. lia.
    + rewrite Hp2, list_lookup_fmap, Hidx. done.
    + exists first, sd, (default dflt (sd_levels sd !! p_complexity (new_process (params s1) wf a))).
      split_and!; try done.
      * unfold stage_bid. by rewrite Hdflt.
      * simpl. by rewrite Hprm2, Hprm1, Hd2, Hd1.
Qed.


(** X11: when the stage names of the workflow are distinct, its first stage
    is defined with a default, and one of the scheduled assets has no
    creative-input date or one that is earlier than the wall-clock reading
    at construction, the run ends and does not complete: [run] raises (the
    process of that asset raises [KeyError], or [ValueError] for the
    negative delay, at its first resumption, unless another exception comes
    first).  Some number of steps is enough for this outcome, any larger
    number gives the same one, and no number of steps gives another. *)
Theorem run_raises_on_unready_asset (prm : ProductionParameters) (wall_clock : Z)
    (pool : option ResourcePool) (project_id : string) (assets : list string)
    (until : Z) (wf : WorkflowDefinition) (first a : string) (sd : StageDef)
    (dflt : Z) :
  workflow_definitions prm !! "asset_workflow"%string = Some wf →
  NoDup (stage_order wf) →
  stage_order wf !! O = Some first →
  first ≠ ""%string →
  stages wf !! first = Some sd →
  sd_default sd = Some dflt →
  a ∈ assets →
  match creative_calendar prm !! a with
  | None => True
  | Some input_date => input_date < wall_clock
  end →
  ∃ (fuel0 : nat) (e : exn) (evs : list ProductionEvent),
    (∀ fuel, (fuel0 <= fuel)%nat →
       simulate fuel prm wall_clock pool project_id assets until = Some (Crashed e, evs))
    ∧ (∀ fuel r, simulate fuel prm wall_clock pool project_id assets until = Some r →
         r = (Crashed e, evs)).
Proof.
  intros Hwf Hnodup Hfirst Hne Hsd Hdflt Ha Hinput.
  destruct (simulate_ends prm wall_clock pool project_id assets until)
    as (fuel0 & [st evs] & Hrun).
  { intros wf' Hwf'. rewrite Hwf in Hwf'. by injection Hwf' as <-. }
  destruct (simulate_unready_crashes prm wall_clock pool project_id assets until wf
              first a sd dflt fuel0 st evs Hwf Hfirst Hne Hsd Hdflt Ha Hinput Hrun)
    as [e ->].
  exists fuel0, e, evs. split.
  - intros fuel Hfuel. by apply (simulate_mono fuel0 fuel).
  - intros fuel r Hr.
    apply (simulate_mono fuel (fuel `max` fuel0)) in Hr; [|lia].
    apply (simulate_mono fuel0 (fuel `max` fuel0)) in Hrun; [|lia].
    congruence.
Qed.

Lemma run_raises_on_unready_asset_witness :
  ∃ fuel0 : nat, ∀ fuel, (fuel0 <= fuel)%nat →
    simulate fuel (params_AB 2 3) (monday_2026_03_02 + 8) None "p" ["x"%string] 365
    = Some (Crashed (ValueError "Negative delay"), []).
Proof.
  assert (Hrun : simulate 20 (params_AB 2 3) (monday_2026_03_02 + 8) None "p"
                   ["x"%string] 365
                 = Some (Crashed (ValueError "Negative delay"), []))
    by (vm_compute; reflexivity).
  assert (Hin : "x"%string ∈ ["x"%string]) by (by apply list_elem_of_singleton).
  assert (Hpast : match creative_calendar (params_AB 2 3) !! "x"%string with
                  | None => True
                  | Some input_date => input_date < monday_2026_03_02 + 8
                  end) by (by vm_compute).
  assert (Hne : "A"%string ≠ ""%string) by done.
  assert (Hnodup : NoDup (stage_order (workflow_AB 2 3))).
  { simpl. apply NoDup_cons. split; [|apply NoDup_singleton].
    by intros ?%list_elem_of_singleton. }
  destruct (run_raises_on_unready_asset (params_AB 2 3) (monday_2026_03_02 + 8) None "p"
              ["x"%string] 365 (workflow_AB 2 3) "A" "x" (stage_quota 2) 2
              eq_refl Hnodup eq_refl Hne eq_refl eq_refl Hin Hpast)
    as (fuel0 & e & evs & Hfrom & Hall).
  exists fuel0. intros fuel Hfuel.
  rewrite (Hfrom fuel Hfuel). f_equal. symmetry. exact (Hall 20%nat _ Hrun).
Defined.

(** *** The resources behind the events *)

Lemma same_staff_refl (p : ResourcePool) : same_staff p p.
Proof. intros l. by destruct (objs p !! l). Qed.

Lemma same_staff_trans (p1 p2 p3 : ResourcePool) :
  same_staff p1 p2 → same_staff p2 p3 → same_staff p1 p3.
Proof.
  intros H12 H23 l. specialize (H12 l). specialize (H23 l).
  destruct (objs p1 !! l), (objs p2 !! l), (objs p3 !! l); try done.
  destruct H12, H23. split; congruence.
Qed.

Lemma same_staff_booked (p : ResourcePool) (l : nat) (r : Resource) (date hours : Z) :
  objs p !! l = Some r → same_staff p (set_obj p l (booked r date hours)).
Proof.
  intros Hl l'. simpl. destruct (decide (l' = l)) as [->|Hne].
  - rewrite list_lookup_insert_eq by (by eapply lookup_lt_Some). by rewrite Hl.
  - rewrite list_lookup_insert_ne by done. by destruct (objs p !! l').
Qed.

Lemma hold_ok_same_staff (p0 p : ResourcePool) (start : Z) (res : nat) :
  same_staff p0 p → hold_ok p start res → hold_ok p0 start res.
Proof.
  intros Hsame (r & Hr & Hwork). specialize (Hsame res). rewrite Hr in Hsame.
  destruct (objs p0 !! res) as [r0|] eqn:Hr0; [|done]. destruct Hsame as [_ Hcal].
  exists r0. split; [done|]. by rewrite <- Hcal.
Qed.

Lemma is_available_workday (r : Resource) (date hours : Z) :
  is_available r date hours = true → is_workday (calendar r) date = true.
Proof. unfold is_available. by destruct (is_workday (calendar r) date). Qed.

Lemma stage_from_alloc_staff (asset : string) (wf : WorkflowDefinition)
    (head : AnimSimulator → option string → option (AnimSimulator * suspend))
    (s s' : AnimSimulator) (st : string) (sd : StageDef) (bid : Z) (out : suspend) :
  (∀ s1 next s2 out2, head s1 next = Some (s2, out2) →
     same_staff (resource_pool s1) (resource_pool s2)
     ∧ yield_staffed (resource_pool s2) out2) →
  stage_from_alloc asset wf head s st sd bid = Some (s', out) →
  same_staff (resource_pool s) (resource_pool s')
  ∧ yield_staffed (resource_pool s') out.
Proof.
  intros Hhead. unfold stage_from_alloc.
  destruct (sd_resource_type sd) as [rty|];
    [|intros [= <- <-]; split; [apply same_staff_refl|done]].
  unfold allocate_resource.
  pose proof (allocate_scan_spec (resource_pool s) (sim_date s) bid
                (bucket (resource_pool s) rty)) as Hspec.
  destruct (allocate_scan _ _ _ _) as [[res|] p'|e p']; [| |done].
  - destruct Hspec as (r & _ & Hl & Hav & ->).
    assert (Hsame : same_staff (resource_pool s)
                      (set_obj (resource_pool s) res (booked r (sim_date s) bid)))
      by (by apply same_staff_booked).
    unfold timeout. destruct (_ <? 0); intros [= <- <-]; (split; [exact Hsame|]);
      [done|].
    simpl. exists (booked r (sim_date s) bid). split.
    + apply list_lookup_insert_eq. by eapply lookup_lt_Some.
    + by apply (is_available_workday r (sim_date s) bid).
  - destruct Hspec as [-> _].
    cbn [resolve_conflict _get_pending_tasks negb].
    destruct (get_next_stage wf st) as [e|next];
      [intros [= <- <-]; split; [apply same_staff_refl|done]|].
    intros Hrun. apply Hhead in Hrun. exact Hrun.
Qed.

Lemma stage_loop_staff (asset : string) (wf : WorkflowDefinition) (cx : string)
    (fuel : nat) :
  ∀ s next s' out, stage_loop asset wf cx fuel s next = Some (s', out) →
  same_staff (resource_pool s) (resource_pool s')
  ∧ yield_staffed (resource_pool s') out.
Proof.
  induction fuel as [|fuel IH]; intros s next s' out; [done|].
  cbn [stage_loop].
  assert (Hstop : ∀ o, yield_staffed (resource_pool s) o →
            Some (s, o) = Some (s', out) →
            same_staff (resource_pool s) (resource_pool s')
            ∧ yield_staffed (resource_pool s') out).
  { intros o Ho [= <- <-]. split; [apply same_staff_refl|done]. }
  destruct next as [st|]; [|by apply Hstop].
  destruct (bool_decide (st = ""%string)); [by apply Hstop|].
  destruct (stages wf !! st) as [sd|]; [|by apply Hstop].
  destruct (stage_bid sd cx) as [e|bid]; [by apply Hstop|].
  destruct (stage_order wf !! O) as [first|]; [|by apply Hstop].
  destruct (bool_decide (st = first)).
  - destruct (creative_calendar (params s) !! asset) as [input_date|];
      [|by apply Hstop].
    unfold timeout. destruct (_ <? 0); by apply Hstop.
  - apply stage_from_alloc_staff. intros s1 next s2 out2. apply IH.
Qed.

Lemma resume_staff (asset : string) (wf : WorkflowDefinition) (cx : string)
    (fuel : nat) (s s' : AnimSimulator) (k : pc) (out : suspend) :
  resume asset wf cx fuel s k = Some (s', out) →
  same_staff (resource_pool s) (resource_pool s')
  ∧ yield_staffed (resource_pool s') out
  ∧ (events s' = events s
     ∨ ∃ st start res, k = PHold st start res
         ∧ events s' = events s ++ [ProductionEvent_init asset st start (sim_date s)
                                      (resource_name (resource_pool s) res)]).
Proof.
  destruct k as [|st sd bid|st start res|st| |]; cbn [resume].
  - destruct (stage_order wf !! O) as [first|].
    + intros Hrun. pose proof (stage_loop_frame _ _ _ _ _ _ _ _ Hrun) as (_&_&_&_&He).
      apply stage_loop_staff in Hrun as [? ?]. split_and!; try done. by left.
    + intros [= <- <-]. split_and!; [apply same_staff_refl|done|by left].
  - intros Hrun.
    assert (Hev : events s' = events s).
    { unfold stage_from_alloc in Hrun.
      destruct (sd_resource_type sd) as [rty|]; [|by injection Hrun as <- <-].
      destruct (allocate_resource _ _ _ _) as [[res|] p'|e p'].
      - unfold timeout in Hrun. by destruct (_ <? 0); injection Hrun as <- <-.
      - cbn [resolve_conflict _get_pending_tasks negb] in Hrun.
        destruct (get_next_stage wf st) as [e|next]; [by injection Hrun as <- <-|].
        by apply stage_loop_frame in Hrun as (_&_&_&_&He).
      - by injection Hrun as <- <-. }
    apply stage_from_alloc_staff in Hrun as [? ?];
      [|intros s1 next s2 out2; apply stage_loop_staff].
    split_and!; try done. by left.
  - destruct (get_next_stage wf st) as [e|next].
    + intros [= <- <-]. split_and!; [apply same_staff_refl|done|].
      right. by exists st, start, res.
    + intros Hrun. pose proof (stage_loop_frame _ _ _ _ _ _ _ _ Hrun) as (_&_&_&_&He).
      apply stage_loop_staff in Hrun as [? ?]. split_and!; try done.
      right. by exists st, start, res.
  - intros Hrun. pose proof (stage_loop_frame _ _ _ _ _ _ _ _ Hrun) as (_&_&_&_&He).
    apply stage_loop_staff in Hrun as [? ?]. split_and!; try done. by left.
  - intros [= <- <-]. split_and!; [apply same_staff_refl|done|by left].
  - intros [= <- <-]. split_and!; [apply same_staff_refl|done|by left].
Qed.

Lemma staff_inv_resume (p0 : ResourcePool) (fuel : nat) (s s2 : AnimSimulator)
    (pid : nat) :
  staff_inv p0 s → resume_process fuel s pid = Some s2 → staff_inv p0 s2.
Proof.
  intros [Hpool Hprocs Hevents]. unfold resume_process.
  destruct (procs s !! pid) as [P|] eqn:HP; [|by intros [= <-]].
  destruct (resume _ _ _ fuel s (p_pc P)) as [[s' out]|] eqn:Hres; [|done].
  pose proof (resume_frame _ _ _ _ _ _ _ _ Hres) as (_ & Hp' & _ & _).
  destruct (resume_staff _ _ _ _ _ _ _ _ Hres) as (Hsame & Hout & Hevs).
  assert (Hpool' : same_staff p0 (resource_pool s')) by (by eapply same_staff_trans).
  assert (Hevents' : Forall (event_staffed p0) (events s')).
  { destruct Hevs as [->|(st & start & res & Hk & ->)]; [done|].
    apply Forall_app. split; [done|]. apply Forall_singleton.
    specialize (Hprocs pid P HP). rewrite Hk in Hprocs.
    destruct Hprocs as (r0 & Hr0 & Hwork).
    exists res, r0. split_and!; try done. simpl. unfold resource_name.
    specialize (Hpool res). rewrite Hr0 in Hpool.
    destruct (objs (resource_pool s) !! res) as [r|]; [|done]. by destruct Hpool. }
  assert (Hgen : ∀ (k : pc) (ev : sim_event) (delay : Z),
    pc_staffed (resource_pool s') k →
    staff_inv p0 (with_env (with_procs s' (<[pid := set_pc P k]> (procs s')))
                    (schedule (env s') ev NORMAL delay))).
  { intros k ev delay Hk. split; simpl; [done| |done].
    rewrite Hp'. intros pid' P'. destruct (decide (pid = pid')) as [<-|Hne].
    - rewrite list_lookup_insert_eq by (by eapply lookup_lt_Some).
      intros [= <-]. simpl. destruct k; try done. simpl in *.
      by eapply hold_ok_same_staff.
    - rewrite list_lookup_insert_ne by done. apply Hprocs. }
  destruct out as [delay k| |e]; intros [= <-]; by apply Hgen.
Qed.

Lemma run_loop_staff (p0 : ResourcePool) (fuel : nat) :
  ∀ s st s', staff_inv p0 s → run_loop fuel s = Some (st, s') →
  Forall (event_staffed p0) (events s').
Proof.
  induction fuel as [|fuel IH]; intros s st s' Hinv; [done|].
  cbn [run_loop].
  destruct (pop_min (queue (env s))) as [[e rest]|];
    [|intros [= <- <-]; by destruct Hinv].
  set (s1 := with_env s {| now := e_time e; queue := rest; eid := eid (env s) |}).
  assert (Hinv1 : staff_inv p0 s1) by (by destruct Hinv).
  assert (Hresume : ∀ pid,
            match resume_process (S fuel) s1 pid with
            | Some s2 => run_loop fuel s2
            | None => None
            end = Some (st, s') → Forall (event_staffed p0) (events s')).
  { intros pid. destruct (resume_process (S fuel) s1 pid) as [s2|] eqn:Hres; [|done].
    apply IH. by eapply staff_inv_resume. }
  destruct (e_event e) as [pid|pid|pid [err|]|].
  - apply Hresume.
  - apply Hresume.
  - intros [= <- <-]. by destruct Hinv.
  - by apply IH.
  - intros [= <- <-]. by destruct Hinv.
Qed.

Lemma schedule_production_pool (project_id : string) (assets : list string) :
  ∀ s, resource_pool (state_of (schedule_production s project_id assets))
       = resource_pool s
     ∧ (Forall (fun P => p_pc P = PStart) (procs s) →
        Forall (fun P => p_pc P = PStart)
          (procs (state_of (schedule_production s project_id assets)))).
Proof.
  induction assets as [|a assets IH]; intros s; simpl; [done|].
  destruct (workflow_definitions (params s) !! "asset_workflow"%string) as [wf|];
    [|done].
  destruct (complexity_matrix (params s) !! a) as [level|]; [|done].
  destruct (IH (env_process s a level wf)) as [Hpool Hstart]. split; [done|].
  intros Hall. apply Hstart. simpl. apply Forall_app. split; [done|].
  by apply Forall_singleton.
Qed.

Lemma register_resources_calendar (cal : BusinessCalendar) (l : nat) (r : Resource) :
  objs (_register_resources (ResourcePool_init cal)) !! l = Some r → calendar r = cal.
Proof.
  do 9 (destruct l as [|l]; [by intros [= <-]|]). done.
Qed.

(** X12: every event of a run, however the run ends, was done by a resource
    of the pool the simulator started with (the default pool, or the one put
    in its place), carries the name of that resource, and starts on a working
    day of that resource's calendar; with the default pool this is a working
    day of the studio calendar. *)
Theorem simulate_events_on_workdays (prm : ProductionParameters) (wall_clock : Z)
    (pool : option ResourcePool) (project_id : string) (assets : list string)
    (until : Z) (cal : BusinessCalendar) (fuel : nat) (st : run_status)
    (evs : list ProductionEvent) :
  resource_calendars prm !! "studio"%string = Some cal →
  simulate fuel prm wall_clock pool project_id assets until = Some (st, evs) →
  ∀ ev, ev ∈ evs →
    (∃ l r, objs (default (_register_resources (ResourcePool_init cal)) pool) !! l = Some r
            ∧ resource ev = name r
            ∧ is_workday (calendar r) (start_time ev) = true)
    ∧ (pool = None → is_workday cal (start_time ev) = true).
Proof.
  intros Hcal Hsim.
  set (p0 := default (_register_resources (ResourcePool_init cal)) pool).
  assert (Hall : Forall (event_staffed p0) evs).
  { revert Hsim. unfold simulate, AnimSimulator_init. rewrite Hcal.
    set (s1 := match pool with Some p => with_pool _ p | None => _ end).
    assert (Hs1 : resource_pool s1 = p0 ∧ procs s1 = [] ∧ events s1 = [])
      by (by destruct pool).
    destruct Hs1 as (Hpool1 & Hp1 & He1).
    pose proof (schedule_production_events project_id assets s1) as Hevs.
    destruct (schedule_production_pool project_id assets s1) as [Hpool Hstart].
    destruct (schedule_production s1 project_id assets) as [[] s2|e s2].
    2: { intros [= <- <-]. simpl in Hevs. rewrite Hevs, He1. constructor. }
    simpl in Hevs, Hpool, Hstart. unfold run.
    destruct (until <=? now (env s2)).
    { intros [= <- <-]. rewrite Hevs, He1. constructor. }
    destruct (run_loop fuel _) as [[st' s4]|] eqn:Hrun; [|done].
    intros [= <- <-]. apply (run_loop_staff p0 fuel _ _ _) in Hrun; [done|].
    split; simpl.
    - rewrite Hpool, Hpool1. apply same_staff_refl.
    - intros pid P HP. rewrite Hp1 in Hstart. specialize (Hstart ltac:(constructor)).
      rewrite Forall_forall in Hstart.
      rewrite (Hstart P); [done|]. by eapply list_elem_of_lookup_2.
    - rewrite Hevs, He1. constructor. }
  intros ev Hev. rewrite Forall_forall in Hall.
  destruct (Hall ev Hev) as (l & r & Hl & Hname & Hwork).
  split; [by exists l, r|].
  intros ->. simpl in p0. unfold p0 in Hl.
  by rewrite <- (register_resources_calendar cal l r Hl).
Qed.

Lemma simulate_events_on_workdays_witness :
  ∃ ev, simulate 20 (params_AB 2 3) monday_2026_03_02 None "p" ["x"%string] 365
          = Some (Completed, [ev])
    ∧ is_workday studio_cal (start_time ev) = true.
Proof.
  assert (Hrun : ∃ ev, simulate 20 (params_AB 2 3) monday_2026_03_02 None "p"
                         ["x"%string] 365 = Some (Completed, [ev]))
    by (eexists; vm_compute; reflexivity).
  destruct Hrun as [ev Hrun]. exists ev. split; [exact Hrun|].
  assert (Hin : ev ∈ [ev]) by (by apply list_elem_of_singleton).
  destruct (simulate_events_on_workdays (params_AB 2 3) monday_2026_03_02 None "p"
              ["x"%string] 365 studio_cal 20 Completed [ev] eq_refl Hrun ev Hin)
    as [_ Hwork].
  by apply Hwork.
Defined.

(** *** The stages of one item *)

Lemma get_next_stage_in_order (wf : WorkflowDefinition) (st st' : string) :
  get_next_stage wf st = inr (Some st') → st' ∈ stage_order wf.
Proof.
  unfold get_next_stage.
  destruct (index_of st (stage_order wf)) as [idx|]; [|done].
  destruct (_ <? _); [|done].
  intros [= Hnext]. by eapply list_elem_of_lookup_2.
Qed.

Lemma stage_loop_in_order (asset : string) (wf : WorkflowDefinition) (cx : string)
    (fuel : nat) :
  ∀ s next s' out,
  (∀ st, next = Some st → st ∈ stage_order wf) →
  stage_loop asset wf cx fuel s next = Some (s', out) →
  match out with Yield _ k => pc_in_order wf k | Return | Throw _ => True end.
Proof.
  induction fuel as [|fuel IH]; intros s next s' out Hnext; [done|].
  cbn [stage_loop].
  destruct next as [st|]; [|by intros [= <- <-]].
  specialize (Hnext st eq_refl).
  destruct (bool_decide (st = ""%string)); [by intros [= <- <-]|].
  destruct (stages wf !! st) as [sd|]; [|by intros [= <- <-]].
  destruct (stage_bid sd cx) as [e|bid]; [by intros [= <- <-]|].
  destruct (stage_order wf !! O) as [first|]; [|by intros [= <- <-]].
  destruct (bool_decide (st = first)).
  - destruct (creative_calendar (params s) !! asset) as [input_date|];
      [|by intros [= <- <-]].
    unfold timeout. by destruct (_ <? 0); intros [= <- <-].
  - unfold stage_from_alloc.
    destruct (sd_resource_type sd) as [rty|]; [|by intros [= <- <-]].
    destruct (allocate_resource _ _ _ _) as [[res|] p'|e p'].
    + unfold timeout. by destruct (_ <? 0); intros [= <- <-].
    + cbn [resolve_conflict _get_pending_tasks negb].
      destruct (get_next_stage wf st) as [e|next] eqn:Hn; [by intros [= <- <-]|].
      apply IH. intros st' ->. by eapply get_next_stage_in_order.
    + by intros [= <- <-].
Qed.

Lemma resume_in_order (asset : string) (wf : WorkflowDefinition) (cx : string)
    (fuel : nat) (s s' : AnimSimulator) (k : pc) (out : suspend) :
  pc_in_order wf k →
  resume asset wf cx fuel s k = Some (s', out) →
  match out with Yield _ k' => pc_in_order wf k' | Return | Throw _ => True end.
Proof.
  intros Hk. destruct k as [|st sd bid|st start res|st| |]; cbn [resume].
  - destruct (stage_order wf !! O) as [first|] eqn:Hfirst; [|by intros [= <- <-]].
    apply stage_loop_in_order. intros st [= <-]. by eapply list_elem_of_lookup_2.
  - unfold stage_from_alloc.
    destruct (sd_resource_type sd) as [rty|]; [|by intros [= <- <-]].
    destruct (allocate_resource _ _ _ _) as [[res|] p'|e p'].
    + unfold timeout. by destruct (_ <? 0); intros [= <- <-].
    + cbn [resolve_conflict _get_pending_tasks negb].
      destruct (get_next_stage wf st) as [e|next] eqn:Hn; [by intros [= <- <-]|].
      apply stage_loop_in_order. intros st' ->. by eapply get_next_stage_in_order.
    + by intros [= <- <-].
  - destruct (get_next_stage wf st) as [e|next] eqn:Hn; [by intros [= <- <-]|].
    apply stage_loop_in_order. intros st' ->. by eapply get_next_stage_in_order.
  - apply stage_loop_in_order. by intros st' [= <-].
  - by intros [= <- <-].
  - by intros [= <- <-].
Qed.

Lemma resume_rank (asset : string) (wf : WorkflowDefinition) (cx : string)
    (fuel : nat) (s s' : AnimSimulator) (k : pc) (out : suspend) :
  NoDup (stage_order wf) →
  resume asset wf cx fuel s k = Some (s', out) →
  match out with
  | Yield _ k' => (pc_rank wf k' < pc_rank wf k)%nat
  | Return | Throw _ => True
  end.
Proof.
  intros Hnd Hres.
  destruct (resume_ends asset wf cx (fuel `max` (2 + pc_rank wf k)) s k Hnd)
    as (s'' & out' & Hres' & _ & _ & Hout); [lia|].
  rewrite (resume_mono asset wf cx fuel _ s k (s', out)) in Hres'; [|lia|done].
  by injection Hres' as <- <-.
Qed.

Lemma remaining_pos (wf : WorkflowDefinition) (st : string) :
  st ∈ stage_order wf →
  (stage_pos wf st < length (stage_order wf))%nat
  ∧ remaining wf (Some st) = (length (stage_order wf) - stage_pos wf st)%nat.
Proof.
  intros Hin. split; [|done]. unfold stage_pos.
  destruct (index_of st (stage_order wf)) as [idx|] eqn:Hidx.
  - simpl. apply index_of_Some in Hidx. by eapply lookup_lt_Some.
  - exfalso. apply list_elem_of_lookup in Hin as [i Hi].
    clear -Hi Hidx. revert i Hi Hidx.
    induction (stage_order wf) as [|y l IH]; intros i Hi Hidx; [done|].
    simpl in Hidx. case_bool_decide as Hy; [done|].
    destruct i as [|i]; simpl in Hi; [congruence|].
    destruct (index_of st l) eqn:Hl; [done|]. by eapply IH.
Qed.

Lemma order_inv_resume (wf : WorkflowDefinition) (fuel : nat) (s s2 : AnimSimulator)
    (pid : nat) :
  NoDup (stage_order wf) →
  order_inv wf s → resume_process fuel s pid = Some s2 → order_inv wf s2.
Proof.
  intros Hnd [Hprocs Hdist Hevents Hsorted]. unfold resume_process.
  destruct (procs s !! pid) as [P|] eqn:HP; [|by intros [= <-]].
  destruct (Hprocs pid P HP) as [Hwf Hpc].
  destruct (resume _ _ _ fuel s (p_pc P)) as [[s' out]|] eqn:Hres; [|done].
  rewrite Hwf in Hres.
  pose proof (resume_frame _ _ _ _ _ _ _ _ Hres) as (_ & Hp' & _ & _).
  pose proof (resume_staff _ _ _ _ _ _ _ _ Hres) as (_ & _ & Hevs).
  pose proof (resume_in_order _ _ _ _ _ _ _ _ Hpc Hres) as Hin.
  pose proof (resume_rank _ _ _ _ _ _ _ _ Hnd Hres) as Hrank.
  assert (Hlt : (pid < length (procs s))%nat) by (by eapply lookup_lt_Some).
  assert (Hgen : ∀ (k : pc) (ev : sim_event) (delay : Z),
    pc_in_order wf k →
    (pc_rank wf k < pc_rank wf (p_pc P) ∨ pc_rank wf k = O)%nat →
    order_inv wf (with_env (with_procs s' (<[pid := set_pc P k]> (procs s')))
                    (schedule (env s') ev NORMAL delay))).
  { intros k ev delay Hk Hr.
    assert (Hlook : ∀ pid' P', <[pid := set_pc P k]> (procs s) !! pid' = Some P' →
              (pid' = pid ∧ P' = set_pc P k)
              ∨ (pid' ≠ pid ∧ procs s !! pid' = Some P')).
    { intros pid' P'. destruct (decide (pid = pid')) as [<-|Hne].
      - rewrite list_lookup_insert_eq by done. intros [= <-]. by left.
      - rewrite list_lookup_insert_ne by done. intros ?. by right. }
    split; simpl; rewrite ?Hp'.
    - intros pid' P' [[-> ->]|[_ HP']]%Hlook; [done|exact (Hprocs pid' P' HP')].
    - intros pid1 pid2 P1 P2 [[-> ->]|[Hne1 HP1]]%Hlook [[-> ->]|[Hne2 HP2]]%Hlook;
        simpl; try done.
      + intros Ha. symmetry. by eapply Hdist.
      + intros Ha. by eapply Hdist.
      + by apply Hdist.
    - assert (Hold : ∀ ev0, ev0 ∈ events s →
                stage ev0 ∈ stage_order wf
                ∧ ∀ pid' P', <[pid := set_pc P k]> (procs s) !! pid' = Some P' →
                    item_id ev0 = p_asset_id P' →
                    (pc_rank wf (p_pc P') < 2 * remaining wf (Some (stage ev0)))%nat).
      { intros ev0 Hev0. destruct (Hevents ev0 Hev0) as [Hst Hr0]. split; [done|].
        intros pid' P' [[-> ->]|[_ HP']]%Hlook Hitem; [|by eapply Hr0].
        simpl in *. specialize (Hr0 pid P HP Hitem). lia. }
      destruct Hevs as [->|(st & start & res & Hkk & ->)]; [exact Hold|].
      intros ev0 [Hev0| ->%list_elem_of_singleton]%elem_of_app; [by apply Hold|].
      rewrite Hkk in Hpc, Hr. simpl in Hpc, Hr. simpl. split; [done|].
      intros pid' P' [[-> ->]|[Hne HP']]%Hlook Hitem.
      * simpl. destruct (remaining_pos wf st Hpc) as [Hpos _]. lia.
      * exfalso. apply Hne. symmetry. by eapply Hdist.
    - destruct Hevs as [->|(st & start & res & Hkk & ->)]; [done|].
      apply StronglySorted_app. split_and!; [|done|by repeat constructor].
      intros x1 x2 Hx1 ->%list_elem_of_singleton Hitem. simpl in *.
      destruct (Hevents x1 Hx1) as [_ Hr1].
      specialize (Hr1 pid P HP Hitem). rewrite Hkk in Hr1. simpl in Hr1. lia. }
  destruct out as [delay k| |e]; intros [= <-].
  - apply Hgen; [done|by left].
  - apply Hgen; [done|by right].
  - apply Hgen; [done|by right].
Qed.

Lemma run_loop_order (wf : WorkflowDefinition) (fuel : nat) :
  NoDup (stage_order wf) →
  ∀ s st s', order_inv wf s → run_loop fuel s = Some (st, s') →
  (∀ ev, ev ∈ events s' → stage ev ∈ stage_order wf)
  ∧ StronglySorted (stage_before wf) (events s').
Proof.
  intros Hnd. induction fuel as [|fuel IH]; intros s st s' Hinv; [done|].
  assert (Hfinal : (∀ ev, ev ∈ events s → stage ev ∈ stage_order wf)
                   ∧ StronglySorted (stage_before wf) (events s)).
  { destruct Hinv as [_ _ Hev Hs]. split; [|done]. intros ev Hin. by apply Hev. }
  cbn [run_loop].
  destruct (pop_min (queue (env s))) as [[e rest]|]; [|by intros [= <- <-]].
  set (s1 := with_env s {| now := e_time e; queue := rest; eid := eid (env s) |}).
  assert (Hinv1 : order_inv wf s1) by (by destruct Hinv).
  assert (Hresume : ∀ pid,
            match resume_process (S fuel) s1 pid with
            | Some s2 => run_loop fuel s2
            | None => None
            end = Some (st, s') →
            (∀ ev, ev ∈ events s' → stage ev ∈ stage_order wf)
            ∧ StronglySorted (stage_before wf) (events s')).
  { intros pid. destruct (resume_process (S fuel) s1 pid) as [s2|] eqn:Hres; [|done].
    apply IH. by eapply order_inv_resume. }
  destruct (e_event e) as [pid|pid|pid [err|]|].
  - apply Hresume.
  - apply Hresume.
  - by intros [= <- <-].
  - by apply IH.
  - by intros [= <- <-].
Qed.

(** X13: when the stage names of the workflow are distinct and no asset is
    scheduled twice, the events of one item follow the workflow: every event
    is for a stage of [stage_order], and of two events of the same item the
    later one in the list is for a later stage.  In particular no stage of an
    item is recorded twice. *)
Theorem simulate_item_stages_in_order (prm : ProductionParameters) (wall_clock : Z)
    (pool : option ResourcePool) (project_id : string) (assets : list string)
    (until : Z) (wf : WorkflowDefinition) (fuel : nat) (st : run_status)
    (evs : list ProductionEvent) :
  workflow_definitions prm !! "asset_workflow"%string = Some wf →
  NoDup (stage_order wf) →
  NoDup assets →
  simulate fuel prm wall_clock pool project_id assets until = Some (st, evs) →
  (∀ ev, ev ∈ evs → stage ev ∈ stage_order wf)
  ∧ ∀ (i j : nat) (a b : ProductionEvent),
      (i < j)%nat → evs !! i = Some a → evs !! j = Some b →
      item_id a = item_id b →
      (stage_pos wf (stage a) < stage_pos wf (stage b))%nat.
Proof.
  intros Hwf Hnd Hassets Hsim.
  assert (Hmain : (∀ ev, ev ∈ evs → stage ev ∈ stage_order wf)
                  ∧ StronglySorted (stage_before wf) evs).
  { revert Hsim. unfold simulate.
    destruct (AnimSimulator_init prm wall_clock) as [e|s0] eqn:Hinit.
    { intros [= <- <-]. split; [by intros ev ?%not_elem_of_nil|constructor]. }
    assert (Hs0 : params s0 = prm ∧ procs s0 = [] ∧ events s0 = []
                  ∧ env s0 = Environment_init).
    { unfold AnimSimulator_init in Hinit.
      destruct (resource_calendars prm !! "studio"%string); [|done].
      by injection Hinit as <-. }
    destruct Hs0 as (Hprm & Hp0 & He0 & Henv0).
    set (s1 := match pool with Some p => with_pool s0 p | None => s0 end).
    assert (Hs1 : params s1 = prm ∧ procs s1 = [] ∧ events s1 = []
                  ∧ env s1 = Environment_init) by (by destruct pool).
    destruct Hs1 as (Hprm1 & Hp1 & He1 & Henv1).
    pose proof (schedule_production_events project_id assets s1) as Hevs.
    destruct (schedule_production s1 project_id assets) as [[] s2|e s2] eqn:Hsched.
    2: { intros [= <- <-]. simpl in Hevs. rewrite Hevs, He1.
         split; [by intros ev ?%not_elem_of_nil|constructor]. }
    simpl in Hevs.
    destruct (schedule_production_ok project_id assets wf s1)
      as (s2' & Heq & Hp2 & _).
    { by rewrite Hprm1. }
    { by apply (schedule_production_Ok_inv project_id assets s1 s2). }
    rewrite Hsched in Heq. injection Heq as <-.
    rewrite Hp1 in Hp2. simpl in Hp2.
    unfold run. destruct (until <=? now (env s2)).
    { intros [= <- <-]. rewrite Hevs, He1.
      split; [by intros ev ?%not_elem_of_nil|constructor]. }
    destruct (run_loop fuel _) as [[st' s4]|] eqn:Hrun; [|done].
    intros [= <- <-]. apply (run_loop_order wf fuel Hnd _ _ _) in Hrun; [done|].
    assert (Hproc : ∀ pid P, procs s2 !! pid = Some P →
              ∃ a, assets !! pid = Some a ∧ P = new_process (params s1) wf a).
    { intros pid P. rewrite Hp2, list_lookup_fmap.
      destruct (assets !! pid) as [a|]; [|done]. intros [= <-]. by exists a. }
    split; simpl.
    - intros pid P (a & _ & ->)%Hproc. done.
    - intros pid pid' P P' (a & Ha & ->)%Hproc (a' & Ha' & ->)%Hproc. simpl.
      intros <-. by eapply NoDup_lookup.
    - rewrite Hevs, He1. by intros ev ?%not_elem_of_nil.
    - rewrite Hevs, He1. constructor. }
  destruct Hmain as [Hstages Hsorted]. split; [done|].
  intros i j a b Hij Hi Hj Hitem.
  assert (Ha : a ∈ take j evs).
  { apply list_elem_of_lookup. exists i. by rewrite lookup_take_lt. }
  assert (Hb : b ∈ drop j evs).
  { apply list_elem_of_lookup. exists O. by rewrite lookup_drop, Nat.add_0_r. }
  rewrite <- (take_drop j evs) in Hsorted.
  pose proof (StronglySorted_app_1_elem_of _ _ _ _ _ Hsorted Ha Hb Hitem) as Hrem.
  destruct (remaining_pos wf (stage a)) as [Hpa Hra].
  { apply Hstages. by eapply list_elem_of_lookup_2. }
  destruct (remaining_pos wf (stage b)) as [Hpb Hrb].
  { apply Hstages. by eapply list_elem_of_lookup_2. }
  rewrite Hra, Hrb in Hrem. lia.
Qed.

Lemma simulate_item_stages_in_order_witness :
  ∃ a b, simulate 20 (params_AB 2 3) (monday_2026_03_02 + 3) None "p" ["x"%string] 365
          = Some (Completed, [a; b])
    ∧ (stage_pos (workflow_AB 2 3) (stage a) < stage_pos (workflow_AB 2 3) (stage b))%nat.
Proof.
  assert (Hrun : ∃ a b, simulate 20 (params_AB 2 3) (monday_2026_03_02 + 3) None "p"
                         ["x"%string] 365 = Some (Completed, [a; b])
                        ∧ item_id a = item_id b)
    by (do 2 eexists; split; vm_compute; reflexivity).
  destruct Hrun as (a & b & Hrun & Hitem). exists a, b. split; [exact Hrun|].
  assert (Hnd : NoDup (stage_order (workflow_AB 2 3))).
  { simpl. apply NoDup_cons. split; [|apply NoDup_singleton].
    by intros ?%list_elem_of_singleton. }
  assert (Hassets : NoDup ["x"%string]) by apply NoDup_singleton.
  destruct (simulate_item_stages_in_order (params_AB 2 3) (monday_2026_03_02 + 3) None
              "p" ["x"%string] 365 (workflow_AB 2 3) 20 Completed [a; b]
              eq_refl Hnd Hassets Hrun) as [_ Horder].
  exact (Horder 0%nat 1%nat a b ltac:(lia) eq_refl eq_refl Hitem).
Defined.

(** *** The duration of the events *)











(** *** The stall branch *)

Lemma stage_loop_no_stall (asset : string) (wf : WorkflowDefinition) (cx : string)
    (fuel : nat) :
  ∀ s next s' out, stage_loop asset wf cx fuel s next = Some (s', out) →
  yields_stall out = false.
Proof.
  induction fuel as [|fuel IH]; intros s next s' out; [done|].
  cbn [stage_loop].
  destruct next as [st|]; [|by intros [= <- <-]].
  destruct (bool_decide (st = ""%string)); [by intros [= <- <-]|].
  destruct (stages wf !! st) as [sd|]; [|by intros [= <- <-]].
  destruct (stage_bid sd cx) as [e|bid]; [by intros [= <- <-]|].
  destruct (stage_order wf !! O) as [first|]; [|by intros [= <- <-]].
  destruct (bool_decide (st = first)).
  - destruct (creative_calendar (params s) !! asset) as [input_date|];
      [|by intros [= <- <-]].
    unfold timeout. by destruct (_ <? 0); intros [= <- <-].
  - unfold stage_from_alloc.
    destruct (sd_resource_type sd) as [rty|]; [|by intros [= <- <-]].
    destruct (allocate_resource _ _ _ _) as [[res|] p'|e p'].
    + unfold timeout. by destruct (_ <? 0); intros [= <- <-].
    + cbn [resolve_conflict _get_pending_tasks negb].
      destruct (get_next_stage wf st) as [e|next]; [by intros [= <- <-]|].
      apply IH.
    + by intros [= <- <-].
Qed.

(** X15: the stall branch of [process_asset] is never taken.  Whatever the
    state and the point at which the generator is resumed, what it yields
    next is never the one-day wait before a retry: [resolve_conflict] answers
    [True] for every asset and stage, so a stage without a resource is left
    for the next one instead. *)
Theorem process_asset_never_stalls (asset : string) (wf : WorkflowDefinition)
    (cx : string) (fuel : nat) (s s' : AnimSimulator) (k : pc) (out : suspend) :
  resume asset wf cx fuel s k = Some (s', out) →
  yields_stall out = false ∧ ∀ a st, resolve_conflict a st = true.
Proof.
  intros Hres. split; [|done].
  destruct k as [|st sd bid|st start res|st| |]; cbn [resume] in Hres.
  - destruct (stage_order wf !! O) as [first|]; [|by injection Hres as <- <-].
    by apply stage_loop_no_stall in Hres.
  - unfold stage_from_alloc in Hres.
    destruct (sd_resource_type sd) as [rty|]; [|by injection Hres as <- <-].
    destruct (allocate_resource _ _ _ _) as [[res|] p'|e p'].
    + unfold timeout in Hres. by destruct (_ <? 0); injection Hres as <- <-.
    + cbn [resolve_conflict _get_pending_tasks negb] in Hres.
      destruct (get_next_stage wf st) as [e|next]; [by injection Hres as <- <-|].
      by apply stage_loop_no_stall in Hres.
    + by injection Hres as <- <-.
  - destruct (get_next_stage wf st) as [e|next]; [by injection Hres as <- <-|].
    by apply stage_loop_no_stall in Hres.
  - by apply stage_loop_no_stall in Hres.
  - by injection Hres as <- <-.
  - by injection Hres as <- <-.
Qed.

(** Stage A cannot get its 9 hours: the generator goes on to stage B and
    yields the hold of B, [2 * 24] units. *)
Lemma process_asset_never_stalls_witness :
  ∃ s' start res,
    resume "x" (workflow_AB 9 2) "alta" 5 sim_A9 (PInputWait "A" (stage_quota 9) 9)
      = Some (s', Yield 48 (PHold "B" start res))
    ∧ yields_stall (Yield 48 (PHold "B" start res)) = false.
Proof.
  assert (Hres : ∃ s' start res,
            resume "x" (workflow_AB 9 2) "alta" 5 sim_A9 (PInputWait "A" (stage_quota 9) 9)
            = Some (s', Yield 48 (PHold "B" start res)))
    by (do 3 eexists; vm_compute; reflexivity).
  destruct Hres as (s' & start & res & Hres). exists s', start, res.
  split; [exact Hres|].
  exact (proj1 (process_asset_never_stalls _ _ _ _ _ _ _ _ Hres)).
Defined.
